(** * Seneca Science Club backend: event registration and contact form

    A shallow embedding of the Express route handlers of the repository
    that own the event capacity counter, the participants and their
    registrations (routes/events.js) and of the contact form handler
    (routes/contact.js), together with the properties of the event
    registration workflow that the specification states.

    Conventions of the embedding.
    - A table of the relational store is the list of its rows in insertion
      order; [prisma.X.findFirst] returns the first matching row of that
      list and [findUnique] the row with the given primary key.
    - Primary keys are opaque; they are numbers here and every table hands
      out its next key from a counter, so a key is never issued twice.  The
      route parameter [:id] is a key of the same type.
    - Integer columns are unbounded integers.
    - A string is the sequence of its bytes.  [Js.trim] and
      [Validator.isLength] are those of validator.js on text within ASCII,
      where a byte is a character; properties that depend on what is
      trimmed or counted say so ([Text]).
    - The store is available: a store call raises only where Prisma itself
      raises on the data ([update] of a missing row).  The schema file is
      not part of the sources, so no other constraint of the schema is a
      source of failure here; the checks proved below are the handlers' own.
      The [Faults] module drops this assumption for the registration
      handler.
    - The body of [PUT /:id] is handed to [prisma.event.update] as it
      comes.  [Prisma.EventData] holds the bodies that set columns of the
      event to plain values; a body that carries the key, a relation or an
      atomic operation is outside it.  The integrity properties of
      sequences of requests are therefore stated for registrations and
      listings.
    - A handler is a function from the store (and what the environment
      supplies: the clock, the random suffix, the outcome of the mail
      transport) to the response and the next store.  Every [await] of a
      handler is a point where another request may run; the [Concurrent]
      module makes those points explicit. *)

From Stdlib Require Import ZArith NArith List String Ascii Bool Lia.
From Stdlib Require Import Permutation Sorted.
Import ListNotations.

Local Open Scope string_scope.
Local Open Scope Z_scope.

(** ** JavaScript string helpers used by the handlers *)

Module Js.

(** [s.split(sep)] for a one-character separator: never the empty array. *)
Fixpoint split (sep : ascii) (s : string) : list string :=
  match s with
  | EmptyString => [EmptyString]
  | String c rest =>
      if Ascii.eqb c sep then EmptyString :: split sep rest
      else match split sep rest with
           | [] => [String c EmptyString]
           | w :: ws => String c w :: ws
           end
  end.

(** [a.join(sep)] *)
Definition join (sep : string) (a : list string) : string :=
  String.concat sep a.

(** [a.slice(1)] *)
Definition slice1 {A : Type} (a : list A) : list A := tl a.

(** [a[0]] of an array of strings that [split] returned *)
Definition first (a : list string) : string := hd EmptyString a.

(** [s || ''] : the empty string is falsy *)
Definition or_empty (s : string) : string :=
  if String.eqb s "" then "" else s.

(** The characters the regular expression [\s] accepts, within ASCII. *)
Definition is_space (c : ascii) : bool :=
  let n := nat_of_ascii c in
  (Nat.eqb n 9 || Nat.eqb n 10 || Nat.eqb n 11 || Nat.eqb n 12
   || Nat.eqb n 13 || Nat.eqb n 32)%bool.

Fixpoint ltrim (s : string) : string :=
  match s with
  | EmptyString => EmptyString
  | String c rest => if is_space c then ltrim rest else s
  end.

Fixpoint rtrim (s : string) : string :=
  match s with
  | EmptyString => EmptyString
  | String c rest =>
      let rest' := rtrim rest in
      if (is_space c && String.eqb rest' "")%bool then EmptyString
      else String c rest'
  end.

(** validator.js [trim(str)] without a character set *)
Definition trim (s : string) : string := rtrim (ltrim s).

End Js.

(** ** The express-validator chains of the routes *)

Module Validator.

(** [isLength({ min, max })]; the length is the number of bytes, which is
    the length validator.js counts for text within ASCII. *)
Definition isLength (min : nat) (max : option nat) (s : string) : bool :=
  (Nat.leb min (String.length s)
   && match max with
      | Some m => Nat.leb (String.length s) m
      | None => true
      end)%bool.

(** [notEmpty()] *)
Definition notEmpty (s : string) : bool := negb (String.eqb s "").

(** [isInt({ min, max })] on a value that is an integer number *)
Definition isInt (min : Z) (max : option Z) (n : Z) : bool :=
  ((min <=? n)
   && match max with
      | Some m => n <=? m
      | None => true
      end)%bool.

(** [isIn(values)] *)
Definition isIn (values : list string) (s : string) : bool :=
  existsb (String.eqb s) values.

(** One chain: the message of [withMessage] when the check fails. *)
Definition check (ok : bool) (msg : string) : list string :=
  if ok then [] else [msg].

(** [optional()]: an absent field is not checked. *)
Definition optional {A : Type} (v : option A) (chain : A -> list string)
  : list string :=
  match v with
  | None => []
  | Some x => chain x
  end.

End Validator.

(** ** Data model (the rows the handlers read and write) *)

Definition Id := N.
Bind Scope N_scope with Id.

Inductive Role := ADMIN | MODERATOR | MEMBER.

Definition Role_eqb (a b : Role) : bool :=
  match a, b with
  | ADMIN, ADMIN | MODERATOR, MODERATOR | MEMBER, MEMBER => true
  | _, _ => false
  end.

Module Event.
Record t := mk {
  id : Id;
  title : string;
  description : string;
  date : string;
  category : string;
  maxCapacity : option Z;
  currentCapacity : Z
}.
End Event.

Module User.
Record t := mk {
  id : Id;
  email : string;
  senecaId : string;
  firstName : string;
  lastName : string;
  program : string;
  year : Z;
  password : string;
  role : Role
}.
End User.

Module EventRegistration.
Record t := mk {
  id : Id;
  userId : Id;
  eventId : Id;
  createdAt : Z
}.
End EventRegistration.

Module ContactMessage.
Record t := mk {
  id : Id;
  name : string;
  email : string;
  subject : string;
  message : string
}.
End ContactMessage.

Record Store := mkStore {
  events : list Event.t;
  users : list User.t;
  eventRegistrations : list EventRegistration.t;
  contactMessages : list ContactMessage.t;
  nextUserId : Id;
  nextRegistrationId : Id;
  nextMessageId : Id
}.

(** ** The store calls of the handlers (Prisma client) *)

Module Prisma.

(** Rewrites the first row that [p] accepts; [None] when there is none
    ([update] raises "record to update not found"). *)
Fixpoint update_first {A : Type} (p : A -> bool) (f : A -> A) (l : list A)
  : option (list A) :=
  match l with
  | [] => None
  | x :: rest =>
      if p x then Some (f x :: rest)
      else match update_first p f rest with
           | Some rest' => Some (x :: rest')
           | None => None
           end
  end.

Definition has_event_id (id : Id) (e : Event.t) : bool :=
  N.eqb (Event.id e) id.

Definition has_user_id (id : Id) (u : User.t) : bool :=
  N.eqb (User.id u) id.

(** [prisma.event.findUnique({ where: { id } })] *)
Definition event_findUnique (st : Store) (id : Id) : option Event.t :=
  find (has_event_id id) (events st).

(** [where: { OR: [{ email }, { senecaId }] }] *)
Definition email_or_senecaId (email senecaId : string) (u : User.t) : bool :=
  (String.eqb (User.email u) email
   || String.eqb (User.senecaId u) senecaId)%bool.

(** [prisma.user.findFirst({ where: { OR: [{ email }, { senecaId }] } })] *)
Definition user_findFirst (st : Store) (email senecaId : string)
  : option User.t :=
  find (email_or_senecaId email senecaId) (users st).

Definition user_and_event (userId eventId : Id) (r : EventRegistration.t)
  : bool :=
  (N.eqb (EventRegistration.userId r) userId
   && N.eqb (EventRegistration.eventId r) eventId)%bool.

(** [prisma.eventRegistration.findFirst({ where: { userId, eventId } })] *)
Definition eventRegistration_findFirst (st : Store) (userId eventId : Id)
  : option EventRegistration.t :=
  find (user_and_event userId eventId) (eventRegistrations st).

(** The [data] of [prisma.user.create] in the registration handler; the
    role column takes its default. *)
Record UserData := mkUserData {
  d_email : string;
  d_senecaId : string;
  d_firstName : string;
  d_lastName : string;
  d_program : string;
  d_year : Z;
  d_password : string
}.

(** [prisma.user.create({ data })] *)
Definition user_create (st : Store) (d : UserData) : User.t * Store :=
  let u := User.mk (nextUserId st) (d_email d) (d_senecaId d)
             (d_firstName d) (d_lastName d) (d_program d) (d_year d)
             (d_password d) MEMBER in
  (u, mkStore (events st) (users st ++ [u]) (eventRegistrations st)
        (contactMessages st) (N.succ (nextUserId st))
        (nextRegistrationId st) (nextMessageId st)).

(** [prisma.eventRegistration.create({ data: { userId, eventId } })];
    [createdAt] is the store's clock at the insertion. *)
Definition eventRegistration_create (st : Store) (now : Z)
    (userId eventId : Id) : EventRegistration.t * Store :=
  let r := EventRegistration.mk (nextRegistrationId st) userId eventId now in
  (r, mkStore (events st) (users st) (eventRegistrations st ++ [r])
        (contactMessages st) (nextUserId st)
        (N.succ (nextRegistrationId st)) (nextMessageId st)).

Definition with_events (st : Store) (evs : list Event.t) : Store :=
  mkStore evs (users st) (eventRegistrations st) (contactMessages st)
    (nextUserId st) (nextRegistrationId st) (nextMessageId st).

Definition increment_currentCapacity (e : Event.t) : Event.t :=
  Event.mk (Event.id e) (Event.title e) (Event.description e) (Event.date e)
    (Event.category e) (Event.maxCapacity e) (Event.currentCapacity e + 1).

(** [prisma.event.update({ where: { id },
                          data: { currentCapacity: { increment: 1 } } })] *)
Definition event_increment (st : Store) (id : Id) : option Store :=
  match update_first (has_event_id id) increment_currentCapacity (events st)
  with
  | Some evs => Some (with_events st evs)
  | None => None
  end.

(** The columns a request body of [PUT /:id] may set to a plain value; an
    absent field leaves its column alone.  [maxCapacity] may be set to
    [null].  (The handler passes [req.body] on unchecked: bodies with the
    key of the row, nested writes of relations or atomic operations are
    not of this type.) *)
Record EventData := mkEventData {
  d_title : option string;
  d_description : option string;
  d_date : option string;
  d_category : option string;
  d_maxCapacity : option (option Z);
  d_currentCapacity : option Z
}.

Definition set {A : Type} (v : option A) (old : A) : A :=
  match v with
  | Some x => x
  | None => old
  end.

Definition apply_data (d : EventData) (e : Event.t) : Event.t :=
  Event.mk (Event.id e)
    (set (d_title d) (Event.title e))
    (set (d_description d) (Event.description e))
    (set (d_date d) (Event.date e))
    (set (d_category d) (Event.category e))
    (set (d_maxCapacity d) (Event.maxCapacity e))
    (set (d_currentCapacity d) (Event.currentCapacity e)).

(** [prisma.event.update({ where: { id }, data })] *)
Definition event_update (st : Store) (id : Id) (d : EventData)
  : option (Event.t * Store) :=
  match update_first (has_event_id id) (apply_data d) (events st) with
  | Some evs =>
      match find (has_event_id id) evs with
      | Some e => Some (e, with_events st evs)
      | None => None
      end
  | None => None
  end.

(** [orderBy: { createdAt: 'asc' }]: rows with equal keys keep their order. *)
Fixpoint insert_by_createdAt (r : EventRegistration.t)
    (l : list EventRegistration.t) : list EventRegistration.t :=
  match l with
  | [] => [r]
  | x :: rest =>
      if EventRegistration.createdAt r <=? EventRegistration.createdAt x
      then r :: l
      else x :: insert_by_createdAt r rest
  end.

Definition orderBy_createdAt_asc (l : list EventRegistration.t)
  : list EventRegistration.t :=
  fold_right insert_by_createdAt [] l.

(** [select] of the included user of a registration *)
Record UserSelect := mkUserSelect {
  s_firstName : string;
  s_lastName : string;
  s_email : string;
  s_program : string;
  s_year : Z
}.

Definition select_user (u : User.t) : UserSelect :=
  mkUserSelect (User.firstName u) (User.lastName u) (User.email u)
    (User.program u) (User.year u).

(** A registration with [include: { user: { select } }] *)
Record RegistrationWithUser := mkRegistrationWithUser {
  registration : EventRegistration.t;
  user : option UserSelect
}.

Definition include_user (st : Store) (r : EventRegistration.t)
  : RegistrationWithUser :=
  mkRegistrationWithUser r
    (option_map select_user
       (find (has_user_id (EventRegistration.userId r)) (users st))).

Definition of_event (eventId : Id) (r : EventRegistration.t) : bool :=
  N.eqb (EventRegistration.eventId r) eventId.

(** [prisma.eventRegistration.findMany({ where: { eventId }, include,
                                        orderBy: { createdAt: 'asc' } })] *)
Definition eventRegistration_findMany (st : Store) (eventId : Id)
  : list RegistrationWithUser :=
  map (include_user st)
    (orderBy_createdAt_asc (filter (of_event eventId) (eventRegistrations st))).

(** [prisma.contactMessage.create({ data: { name, email, subject, message } })] *)
Definition contactMessage_create (st : Store)
    (name email subject message : string) : ContactMessage.t * Store :=
  let m := ContactMessage.mk (nextMessageId st) name email subject message in
  (m, mkStore (events st) (users st) (eventRegistrations st)
        (contactMessages st ++ [m]) (nextUserId st)
        (nextRegistrationId st) (N.succ (nextMessageId st))).

End Prisma.

(** ** HTTP responses *)

Inductive Body :=
| Error (error : string)
| Errors (errors : list string)
| Registered (message : string) (registration : EventRegistration.t)
| RegistrationList (registrations : list Prisma.RegistrationWithUser)
| EventJson (event : Event.t)
| Submitted (message : string) (id : Id).

Record Response := json {
  status : Z;
  body : Body
}.

(** The error taxonomy of the specification, as the handlers answer it. *)
Definition ValidationError (errors : list string) : Response :=
  json 400 (Errors errors).
Definition NotFound : Response :=
  json 404 (Error "Event not found").
Definition CapacityExceeded : Response :=
  json 400 (Error "Event is at full capacity").
Definition AlreadyRegistered : Response :=
  json 400 (Error "Already registered for this event").
Definition AuthorizationError : Response :=
  json 403 (Error "Admin access required").

(** [req.user], as the authentication middleware leaves it *)
Record ReqUser := mkReqUser {
  req_user_id : Id;
  req_user_role : Role
}.

(** ** routes/events.js *)

Module Events.

(** Body of [POST /:id/register] *)
Record RegisterBody := mkRegisterBody {
  name : string;
  email : string;
  senecaId : string;
  program : string;
  year : Z
}.

(** What the environment supplies to one registration: the clock of the
    store and [Math.random().toString(36).substr(2, 9)]. *)
Record Env := mkEnv {
  now : Z;
  random : string
}.

(** The sanitizers of the chains rewrite the body: [name], [senecaId] and
    [program] are trimmed. *)
Definition sanitize (b : RegisterBody) : RegisterBody :=
  mkRegisterBody (Js.trim (name b)) (email b) (Js.trim (senecaId b))
    (Js.trim (program b)) (year b).

(** [event.maxCapacity && event.currentCapacity >= event.maxCapacity]:
    [null] and [0] are falsy. *)
Definition at_full_capacity (event : Event.t) : bool :=
  match Event.maxCapacity event with
  | None => false
  | Some m => (negb (m =? 0) && (Event.currentCapacity event >=? m))%bool
  end.

(** [data] of the user the registration creates *)
Definition new_user (env : Env) (b : RegisterBody) : Prisma.UserData :=
  Prisma.mkUserData (email b) (senecaId b)
    (Js.first (Js.split " " (name b)))
    (Js.or_empty (Js.join " " (Js.slice1 (Js.split " " (name b)))))
    (program b) (year b)
    ("temp-password-" ++ random env).

Definition categories : list string :=
  ["WORKSHOP"; "LECTURE"; "SOCIAL"; "COMPETITION"; "FIELD_TRIP";
   "CONFERENCE"; "OTHER"].

(** The sanitizers of [PUT /:id]: [title] and [description] are trimmed. *)
Definition sanitize_update (d : Prisma.EventData) : Prisma.EventData :=
  Prisma.mkEventData (option_map Js.trim (Prisma.d_title d))
    (option_map Js.trim (Prisma.d_description d))
    (Prisma.d_date d) (Prisma.d_category d)
    (Prisma.d_maxCapacity d) (Prisma.d_currentCapacity d).

Section Handlers.

(** validator.js predicates that are not part of the repository *)
Variable isEmail : string -> bool.
Variable isISO8601 : string -> bool.

(** The chains of [POST /:id/register], on the sanitized body *)
Definition validate (b : RegisterBody) : list string :=
  Validator.check (Validator.notEmpty (name b)) "Name is required"
  ++ Validator.check (isEmail (email b)) "Valid email is required"
  ++ Validator.check (Validator.notEmpty (senecaId b)) "Seneca ID is required"
  ++ Validator.check (Validator.notEmpty (program b)) "Program is required"
  ++ Validator.check (Validator.isInt 1 (Some 4) (year b)) "Year must be 1-4".

(** The tail of the handler: create the registration, then bump the
    counter of the event. *)
Definition create_registration (st : Store) (env : Env) (userId id : Id)
  : Response * Store :=
  let (registration, st1) :=
    Prisma.eventRegistration_create st (now env) userId id in
  match Prisma.event_increment st1 id with
  | Some st2 =>
      (json 201 (Registered "Successfully registered for event" registration),
       st2)
  | None => (json 500 (Error "Failed to register for event"), st1)
  end.

(** [POST /:id/register] *)
Definition register (st : Store) (env : Env) (id : Id) (raw : RegisterBody)
  : Response * Store :=
  let b := sanitize raw in
  match validate b with
  | (_ :: _) as errors => (json 400 (Errors errors), st)
  | [] =>
      match Prisma.event_findUnique st id with
      | None => (json 404 (Error "Event not found"), st)
      | Some event =>
          if at_full_capacity event
          then (json 400 (Error "Event is at full capacity"), st)
          else
            match Prisma.user_findFirst st (email b) (senecaId b) with
            | Some existingUser =>
                match Prisma.eventRegistration_findFirst st
                        (User.id existingUser) id with
                | Some _ =>
                    (json 400 (Error "Already registered for this event"), st)
                | None => create_registration st env (User.id existingUser) id
                end
            | None =>
                let (newUser, st1) := Prisma.user_create st (new_user env b) in
                create_registration st1 env (User.id newUser) id
            end
      end
  end.

(** [GET /:id/registrations] *)
Definition listRegistrations (st : Store) (user : ReqUser) (id : Id)
  : Response :=
  if negb (Role_eqb (req_user_role user) ADMIN)
  then json 403 (Error "Admin access required")
  else json 200 (RegistrationList (Prisma.eventRegistration_findMany st id)).

(** The chains of [PUT /:id], on the sanitized body *)
Definition validate_update (d : Prisma.EventData) : list string :=
  Validator.optional (Prisma.d_title d) (fun v =>
    Validator.check (Validator.isLength 3 (Some 100%nat) v)
      "Title must be 3-100 characters")
  ++ Validator.optional (Prisma.d_description d) (fun v =>
    Validator.check (Validator.isLength 10 None v)
      "Description must be at least 10 characters")
  ++ Validator.optional (Prisma.d_date d) (fun v =>
    Validator.check (isISO8601 v) "Invalid date format")
  ++ Validator.optional (Prisma.d_category d) (fun v =>
    Validator.check (Validator.isIn categories v) "Invalid category").

(** [PUT /:id] *)
Definition updateEvent (st : Store) (user : ReqUser) (id : Id)
    (raw : Prisma.EventData) : Response * Store :=
  if negb (Role_eqb (req_user_role user) ADMIN)
  then (json 403 (Error "Admin access required"), st)
  else
    let d := sanitize_update raw in
    match validate_update d with
    | (_ :: _) as errors => (json 400 (Errors errors), st)
    | [] =>
        match Prisma.event_update st id d with
        | Some (event, st1) => (json 200 (EventJson event), st1)
        | None => (json 500 (Error "Failed to update event"), st)
        end
    end.

End Handlers.

End Events.

(** ** The service run one request at a time *)

Module Service.

Inductive Op :=
| Register (env : Events.Env) (id : Id) (raw : Events.RegisterBody)
| ListRegistrations (user : ReqUser) (id : Id)
| UpdateEvent (user : ReqUser) (id : Id) (raw : Prisma.EventData).

Section Run.

Variable isEmail : string -> bool.
Variable isISO8601 : string -> bool.

Definition exec (st : Store) (op : Op) : Response * Store :=
  match op with
  | Register env id raw => Events.register isEmail st env id raw
  | ListRegistrations user id => (Events.listRegistrations st user id, st)
  | UpdateEvent user id raw => Events.updateEvent isISO8601 st user id raw
  end.

(** Each request completes before the next one starts. *)
Fixpoint exec_all (st : Store) (ops : list Op) : list Response * Store :=
  match ops with
  | [] => ([], st)
  | op :: rest =>
      let (r, st1) := exec st op in
      let (rs, st2) := exec_all st1 rest in
      (r :: rs, st2)
  end.

(** A run of registrations for one event *)
Definition register_all (st : Store) (id : Id)
    (calls : list (Events.Env * Events.RegisterBody))
  : list Response * Store :=
  exec_all st (map (fun c => Register (fst c) id (snd c)) calls).

End Run.

End Service.

(** ** The registration handler between its [await]s

    The handler of [POST /:id/register] gives up control at every store
    call.  A task is the handler suspended at one of them, with the local
    variables it still needs; a step runs the pending store call and the
    synchronous code up to the next one. *)

Module Concurrent.

Inductive Task :=
| FindEvent (id : Id) (b : Events.RegisterBody)
| FindUser (id : Id) (b : Events.RegisterBody)
| FindRegistration (id : Id) (userId : Id)
| CreateUser (id : Id) (b : Events.RegisterBody)
| CreateRegistration (id : Id) (userId : Id)
| IncrementEvent (id : Id) (registration : EventRegistration.t)
| Done (r : Response).

Section Machine.

Variable isEmail : string -> bool.

(** The request arrives: validation runs before the first store call. *)
Definition start (id : Id) (raw : Events.RegisterBody) : Task :=
  let b := Events.sanitize raw in
  match Events.validate isEmail b with
  | (_ :: _) as errors => Done (json 400 (Errors errors))
  | [] => FindEvent id b
  end.

Definition step (env : Events.Env) (st : Store) (t : Task) : Task * Store :=
  match t with
  | FindEvent id b =>
      match Prisma.event_findUnique st id with
      | None => (Done (json 404 (Error "Event not found")), st)
      | Some event =>
          if Events.at_full_capacity event
          then (Done (json 400 (Error "Event is at full capacity")), st)
          else (FindUser id b, st)
      end
  | FindUser id b =>
      match Prisma.user_findFirst st (Events.email b) (Events.senecaId b) with
      | Some existingUser => (FindRegistration id (User.id existingUser), st)
      | None => (CreateUser id b, st)
      end
  | FindRegistration id userId =>
      match Prisma.eventRegistration_findFirst st userId id with
      | Some _ =>
          (Done (json 400 (Error "Already registered for this event")), st)
      | None => (CreateRegistration id userId, st)
      end
  | CreateUser id b =>
      let (newUser, st1) := Prisma.user_create st (Events.new_user env b) in
      (CreateRegistration id (User.id newUser), st1)
  | CreateRegistration id userId =>
      let (registration, st1) :=
        Prisma.eventRegistration_create st (Events.now env) userId id in
      (IncrementEvent id registration, st1)
  | IncrementEvent id registration =>
      match Prisma.event_increment st id with
      | Some st1 =>
          (Done (json 201
                   (Registered "Successfully registered for event"
                      registration)), st1)
      | None => (Done (json 500 (Error "Failed to register for event")), st)
      end
  | Done r => (Done r, st)
  end.

(** One request running alone for [n] steps *)
Fixpoint steps (n : nat) (env : Events.Env) (st : Store) (t : Task)
  : Task * Store :=
  match n with
  | O => (t, st)
  | S m => let (t1, st1) := step env st t in steps m env st1 t1
  end.

(** The requests in flight, each with what the environment supplies to it *)
Definition Tasks := list (Events.Env * Task).

(** The scheduler resumes the [i]-th request for one step. *)
Fixpoint resume (i : nat) (st : Store) (ts : Tasks) : Store * Tasks :=
  match ts with
  | [] => (st, [])
  | (env, t) :: rest =>
      match i with
      | O => let (t1, st1) := step env st t in (st1, (env, t1) :: rest)
      | S j => let (st1, rest1) := resume j st rest in (st1, (env, t) :: rest1)
      end
  end.

Fixpoint run (schedule : list nat) (st : Store) (ts : Tasks) : Store * Tasks :=
  match schedule with
  | [] => (st, ts)
  | i :: rest => let (st1, ts1) := resume i st ts in run rest st1 ts1
  end.

End Machine.

Definition succeeded (t : Task) : bool :=
  match t with
  | Done r => status r =? 201
  | _ => false
  end.

End Concurrent.

(** ** routes/contact.js *)

Module Contact.

(** Body of [POST /] *)
Record ContactBody := mkContactBody {
  name : string;
  email : string;
  subject : string;
  message : string
}.

(** The message handed to [transporter.sendMail] (sender and recipient are
    the configured mailbox) *)
Record Mail := mkMail {
  mail_subject : string;
  mail_html : string
}.

Definition sanitize (b : ContactBody) : ContactBody :=
  mkContactBody (Js.trim (name b)) (email b) (Js.trim (subject b))
    (Js.trim (message b)).

Definition notification (b : ContactBody) : Mail :=
  mkMail ("New Contact Form: " ++ subject b)
    ("
          <h3>New Contact Form Submission</h3>
          <p><strong>From:</strong> " ++ name b ++ " (" ++ email b ++ ")</p>
          <p><strong>Subject:</strong> " ++ subject b ++ "</p>
          <p><strong>Message:</strong></p>
          <p>" ++ message b ++ "</p>
        ").

Section Handlers.

Variable isEmail : string -> bool.

(** The mail transport: [true] when [sendMail] resolves, [false] when it
    rejects. *)
Variable sendMail : Mail -> bool.

Definition validate (b : ContactBody) : list string :=
  Validator.check (Validator.isLength 2 (Some 50%nat) (name b))
    "Name must be 2-50 characters"
  ++ Validator.check (isEmail (email b)) "Valid email is required"
  ++ Validator.check (Validator.isLength 5 (Some 100%nat) (subject b))
    "Subject must be 5-100 characters"
  ++ Validator.check (Validator.isLength 10 (Some 1000%nat) (message b))
    "Message must be 10-1000 characters".

(** [POST /]: the response, the next store and the lines written with
    [console.error] *)
Definition submit (st : Store) (raw : ContactBody)
  : Response * Store * list string :=
  let b := sanitize raw in
  match validate b with
  | (_ :: _) as errors => (json 400 (Errors errors), st, [])
  | [] =>
      let (contactMessage, st1) :=
        Prisma.contactMessage_create st (name b) (email b) (subject b)
          (message b) in
      let log :=
        if sendMail (notification b) then []
        else ["Failed to send email notification:"] in
      (json 201
         (Submitted "Contact form submitted successfully"
            (ContactMessage.id contactMessage)), st1, log)
  end.

End Handlers.

End Contact.

(** ** Invariants of the store and vocabulary of the properties *)

Module Invariant.

(** [currentCapacity <= maxCapacity] when the ceiling is set *)
Definition within_ceiling (e : Event.t) : bool :=
  match Event.maxCapacity e with
  | None => true
  | Some m => Event.currentCapacity e <=? m
  end.

Definition ceilings_respected (st : Store) : bool :=
  forallb within_ceiling (events st).

(** The same for the ceilings the capacity check of the handler reads as
    set: a ceiling of [0] is falsy there. *)
Definition within_nonzero_ceiling (e : Event.t) : bool :=
  match Event.maxCapacity e with
  | None => true
  | Some m => ((m =? 0) || (Event.currentCapacity e <=? m))%bool
  end.

Definition nonzero_ceilings_respected (st : Store) : bool :=
  forallb within_nonzero_ceiling (events st).

(** Requests that do not write the two capacity columns directly *)
Definition leaves_capacity_columns (op : Service.Op) : bool :=
  match op with
  | Service.Register _ _ _ => true
  | Service.ListRegistrations _ _ => true
  | Service.UpdateEvent _ _ raw =>
      match Prisma.d_maxCapacity raw, Prisma.d_currentCapacity raw with
      | None, None => true
      | _, _ => false
      end
  end.

(** Keys of users come from the counter, and a registration references an
    existing user and an existing event. *)
Definition user_key_issued (st : Store) (u : User.t) : bool :=
  (User.id u <? nextUserId st)%N.

Definition references_resolve (st : Store) (r : EventRegistration.t) : bool :=
  (existsb (Prisma.has_user_id (EventRegistration.userId r)) (users st)
   && existsb (Prisma.has_event_id (EventRegistration.eventId r)) (events st))%bool.

Definition well_formed (st : Store) : bool :=
  (forallb (user_key_issued st) (users st)
   && forallb (references_resolve st) (eventRegistrations st))%bool.

(** The count of an event, when it exists *)
Definition count (st : Store) (id : Id) : option Z :=
  option_map Event.currentCapacity (Prisma.event_findUnique st id).

Definition full (st : Store) (id : Id) : bool :=
  match Prisma.event_findUnique st id with
  | Some event => Events.at_full_capacity event
  | None => false
  end.

(** What the listing shows of a participant who submitted [b] and was
    created from it *)
Definition submitted (b : Events.RegisterBody) : Prisma.UserSelect :=
  let b := Events.sanitize b in
  Prisma.mkUserSelect
    (Js.first (Js.split " " (Events.name b)))
    (Js.or_empty (Js.join " " (Js.slice1 (Js.split " " (Events.name b)))))
    (Events.email b) (Events.program b) (Events.year b).

Definition UserSelect_eqb (a b : Prisma.UserSelect) : bool :=
  (String.eqb (Prisma.s_firstName a) (Prisma.s_firstName b)
   && String.eqb (Prisma.s_lastName a) (Prisma.s_lastName b)
   && String.eqb (Prisma.s_email a) (Prisma.s_email b)
   && String.eqb (Prisma.s_program a) (Prisma.s_program b)
   && (Prisma.s_year a =? Prisma.s_year b))%bool.

(** An entry of the listing matches the submitted participant info. *)
Definition matches (b : Events.RegisterBody)
    (entry : Prisma.RegistrationWithUser) : bool :=
  match Prisma.user entry with
  | Some u => UserSelect_eqb u (submitted b)
  | None => false
  end.

(** An entry of the listing belongs to a user. *)
Definition entry_of_user (userId : Id) (entry : Prisma.RegistrationWithUser)
  : bool :=
  N.eqb (EventRegistration.userId (Prisma.registration entry)) userId.

Definition createdAt_le (a b : EventRegistration.t) : Prop :=
  EventRegistration.createdAt a <= EventRegistration.createdAt b.

(** The participant a body resolves to: the natural keys after sanitizing *)
Definition resolve (st : Store) (b : Events.RegisterBody) : option User.t :=
  Prisma.user_findFirst st (Events.email (Events.sanitize b))
    (Events.senecaId (Events.sanitize b)).

(** The body passes the field chains of the registration route. *)
Definition passes_chains (isEmail : string -> bool) (b : Events.RegisterBody)
  : bool :=
  match Events.validate isEmail (Events.sanitize b) with
  | [] => true
  | _ :: _ => false
  end.

(** Two bodies share neither the email nor the senecaId. *)
Definition distinct_keys (a b : Events.RegisterBody) : bool :=
  (negb (String.eqb (Events.email a) (Events.email b))
   && negb (String.eqb (Events.senecaId (Events.sanitize a))
              (Events.senecaId (Events.sanitize b))))%bool.

(** Participants the store does not know yet, pairwise distinct *)
Fixpoint newcomers (st : Store) (bs : list Events.RegisterBody) : bool :=
  match bs with
  | [] => true
  | b :: rest =>
      (match resolve st b with None => true | Some _ => false end
       && forallb (distinct_keys b) rest
       && newcomers st rest)%bool
  end.

End Invariant.

(** ** Concrete stores and requests of the examples *)

Module Example.

(** Stand-ins for the validator.js predicates on the inputs of the
    examples: every address below has an [@], every date is absent. *)
Definition isEmail (s : string) : bool :=
  existsb (Ascii.eqb "@") (list_ascii_of_string s).

Definition isISO8601 (s : string) : bool :=
  Nat.leb 10 (String.length s).

Definition workshop (maxCapacity : option Z) (currentCapacity : Z) : Event.t :=
  Event.mk 1 "Chemistry night" "Hands-on titration workshop" "2025-03-01"
    "WORKSHOP" maxCapacity currentCapacity.

Definition ann : User.t :=
  User.mk 1 "ann@myseneca.ca" "S1" "Ann" "Lee" "CPA" 2 "secret" MEMBER.

Definition empty_store : Store := mkStore [] [] [] [] 1 1 1.

(** One event with a single seat, nobody registered *)
Definition one_seat : Store :=
  mkStore [workshop (Some 1) 0] [] [] [] 1 1 1.

(** One event with five seats of which three are taken by the counter *)
Definition three_of_five : Store :=
  mkStore [workshop (Some 5) 3] [] [] [] 1 1 1.

(** One event with room, and Ann known to the store *)
Definition ann_known : Store :=
  mkStore [workshop (Some 5) 0] [ann] [] [] 2 1 1.

Definition alice : Events.RegisterBody :=
  Events.mkRegisterBody "Alice Van Dam" "alice@myseneca.ca" "S100" "CPA" 1.

Definition bob : Events.RegisterBody :=
  Events.mkRegisterBody "Bob Ray" "bob@myseneca.ca" "S200" "BSD" 3.

(** Bob's address with the senecaId the store holds for Ann *)
Definition bob_as_S1 : Events.RegisterBody :=
  Events.mkRegisterBody "Bob Ray" "bob@myseneca.ca" "S1" "BSD" 3.

(** Ann's address with a senecaId the store does not hold *)
Definition ann_as_S9 : Events.RegisterBody :=
  Events.mkRegisterBody "Ann Lee" "ann@myseneca.ca" "S9" "CPA" 2.

(** Another address with that same senecaId *)
Definition carl_as_S9 : Events.RegisterBody :=
  Events.mkRegisterBody "Carl Moss" "carl@myseneca.ca" "S9" "CPA" 2.

Definition nameless : Events.RegisterBody :=
  Events.mkRegisterBody "   " "alice@myseneca.ca" "S100" "CPA" 1.

Definition at_noon : Events.Env := Events.mkEnv 1200 "k3x9q0a1z".
Definition at_one : Events.Env := Events.mkEnv 1300 "p0o9i8u7y".

Definition admin : ReqUser := mkReqUser 7 ADMIN.
Definition member : ReqUser := mkReqUser 8 MEMBER.

(** [PUT /:id] with the body [{ maxCapacity: 2 }] *)
Definition lower_ceiling : Prisma.EventData :=
  Prisma.mkEventData None None None None (Some (Some 2)) None.

(** [PUT /:id] with the body [{ title: ... }] *)
Definition rename : Prisma.EventData :=
  Prisma.mkEventData (Some "Chemistry evening") None None None None None.

(** Two requests for the last seat, each suspended before its first store
    call *)
Definition two_requests : Concurrent.Tasks :=
  [(at_noon, Concurrent.start isEmail 1 alice);
   (at_one, Concurrent.start isEmail 1 bob)].

(** Each request is resumed in turn until both have answered. *)
Definition alternate : list nat := [0; 1; 0; 1; 0; 1; 0; 1; 0; 1]%nat.

(** One event with two seats, nobody registered *)
Definition two_seats : Store :=
  mkStore [workshop (Some 2) 0] [] [] [] 1 1 1.

(** Three requests for it, one after the other *)
Definition three_calls : list (Events.Env * Events.RegisterBody) :=
  [(at_noon, alice); (at_one, bob); (at_one, carl_as_S9)].

(** The single seat taken by Alice *)
Definition sold_out : Store :=
  snd (Events.register isEmail one_seat at_noon 1 alice).

(** One request after the other: the first runs to its answer before the
    second is resumed. *)
Definition one_by_one : list nat := [0; 0; 0; 0; 0; 1; 1; 1; 1; 1]%nat.

(** A registration, a listing and a change of title *)
Definition three_requests : list Service.Op :=
  [Service.Register at_noon 1 alice;
   Service.ListRegistrations admin 1;
   Service.UpdateEvent admin 1 rename].

Definition hello : Contact.ContactBody :=
  Contact.mkContactBody "Dana" "dana@myseneca.ca" "Joining the club"
    "How do I join the science club?".

Definition delivers (m : Contact.Mail) : bool := true.
Definition bounces (m : Contact.Mail) : bool := false.

End Example.

(** ** Integrity of the tables and the ledger of an event *)

Module Integrity.

(** No two users share an email, and no two share a senecaId. *)
Fixpoint keys_distinct (us : list User.t) : bool :=
  match us with
  | [] => true
  | u :: rest =>
      (negb (existsb (Prisma.email_or_senecaId (User.email u)
                        (User.senecaId u)) rest)
       && keys_distinct rest)%bool
  end.

(** No two registrations link the same user to the same event. *)
Fixpoint pairs_distinct (rs : list EventRegistration.t) : bool :=
  match rs with
  | [] => true
  | r :: rest =>
      (negb (existsb (Prisma.user_and_event (EventRegistration.userId r)
                        (EventRegistration.eventId r)) rest)
       && pairs_distinct rest)%bool
  end.

(** The number of registration rows of an event *)
Definition rows (st : Store) (id : Id) : Z :=
  Z.of_nat (List.length (filter (Prisma.of_event id) (eventRegistrations st))).

(** A request that has inserted its row for the event and has not yet
    incremented the counter *)
Definition awaiting_increment (id : Id) (t : Concurrent.Task) : Z :=
  match t with
  | Concurrent.IncrementEvent id' _ => if N.eqb id' id then 1 else 0
  | _ => 0
  end.

(** A request that was answered with 201 and a registration for the event *)
Definition answered_201 (id : Id) (t : Concurrent.Task) : Z :=
  match t with
  | Concurrent.Done r =>
      match body r with
      | Registered _ registration =>
          if ((status r =? 201)
              && N.eqb (EventRegistration.eventId registration) id)%bool
          then 1 else 0
      | _ => 0
      end
  | _ => 0
  end.

Fixpoint total (f : Concurrent.Task -> Z) (ts : Concurrent.Tasks) : Z :=
  match ts with
  | [] => 0
  | (_, t) :: rest => f t + total f rest
  end.

(** The row a suspended request carries is a row of the event it is about
    to increment. *)
Definition coherent (t : Concurrent.Task) : bool :=
  match t with
  | Concurrent.IncrementEvent id registration =>
      N.eqb (EventRegistration.eventId registration) id
  | _ => true
  end.

(** Requests as they arrive: the target event, the body, and what the
    environment will supply *)
Definition Request : Type := Events.Env * (Id * Events.RegisterBody).

Definition arrive (isEmail : string -> bool) (reqs : list Request)
  : Concurrent.Tasks :=
  map (fun q => (fst q, Concurrent.start isEmail (fst (snd q)) (snd (snd q))))
    reqs.

Definition all_answered (ts : Concurrent.Tasks) : bool :=
  forallb (fun et => match snd et with Concurrent.Done _ => true | _ => false end)
    ts.

(** A registration or a listing: not [PUT /:id], whose body is handed to
    the store as it comes. *)
Definition no_update (op : Service.Op) : bool :=
  match op with
  | Service.Register _ _ _ => true
  | Service.ListRegistrations _ _ => true
  | Service.UpdateEvent _ _ _ => false
  end.

End Integrity.

(** ** The registration handler when a store call fails

    The body of the handler of [POST /:id/register] is one [try] block:
    when an awaited store call rejects, whatever the reason (the store is
    unreachable, a constraint of the schema refuses the row), control goes
    to the [catch], which answers 500 "Failed to register for event".
    Nothing undoes the calls that took effect before. *)

Module Faults.

Section Handler.

Variable isEmail : string -> bool.

(** The handler when its store call number [n], counted from 0, rejects:
    the [n] calls before it ran as usual, and a handler that answers
    before making that call is not affected. *)
Definition interrupted (n : nat) (st : Store) (env : Events.Env) (id : Id)
    (raw : Events.RegisterBody) : Response * Store :=
  match Concurrent.steps n env st (Concurrent.start isEmail id raw) with
  | (Concurrent.Done r, st') => (r, st')
  | (_, st') => (json 500 (Error "Failed to register for event"), st')
  end.

End Handler.

End Faults.

(** ** routes/contact.js: removing a message *)

Module ContactAdmin.

Inductive Body :=
| Message (message : string)
| Error (error : string).

Record Response := json {
  status : Z;
  body : Body
}.

(** Drops the first row that [p] accepts; [None] when there is none
    ([delete] raises "record to delete does not exist"). *)
Fixpoint delete_first {A : Type} (p : A -> bool) (l : list A)
  : option (list A) :=
  match l with
  | [] => None
  | x :: rest =>
      if p x then Some rest
      else match delete_first p rest with
           | Some rest' => Some (x :: rest')
           | None => None
           end
  end.

Definition has_message_id (id : Id) (m : ContactMessage.t) : bool :=
  N.eqb (ContactMessage.id m) id.

(** [prisma.contactMessage.delete({ where: { id } })] *)
Definition contactMessage_delete (st : Store) (id : Id) : option Store :=
  match delete_first (has_message_id id) (contactMessages st) with
  | Some ms =>
      Some (mkStore (events st) (users st) (eventRegistrations st) ms
              (nextUserId st) (nextRegistrationId st) (nextMessageId st))
  | None => None
  end.

(** [DELETE /:id] *)
Definition remove (st : Store) (id : Id) : Response * Store :=
  match contactMessage_delete st id with
  | Some st1 => (json 200 (Message "Message deleted successfully"), st1)
  | None => (json 500 (Error "Failed to delete message"), st)
  end.

(** Every stored message has a key the counter issued. *)
Definition keys_issued (st : Store) : bool :=
  forallb (fun m => (ContactMessage.id m <? nextMessageId st)%N)
    (contactMessages st).

(** No two stored messages have the same key. *)
Fixpoint keys_distinct (ms : list ContactMessage.t) : bool :=
  match ms with
  | [] => true
  | m :: rest =>
      (negb (existsb (has_message_id (ContactMessage.id m)) rest)
       && keys_distinct rest)%bool
  end.

(** A stored message as the form accepts it: the text fields carry no
    surrounding white space and have the lengths of the chains, and the
    address is one the chain accepts. *)
Definition clean (isEmail : string -> bool) (m : ContactMessage.t) : bool :=
  (String.eqb (Js.trim (ContactMessage.name m)) (ContactMessage.name m)
   && Validator.isLength 2 (Some 50%nat) (ContactMessage.name m)
   && isEmail (ContactMessage.email m)
   && String.eqb (Js.trim (ContactMessage.subject m)) (ContactMessage.subject m)
   && Validator.isLength 5 (Some 100%nat) (ContactMessage.subject m)
   && String.eqb (Js.trim (ContactMessage.message m)) (ContactMessage.message m)
   && Validator.isLength 10 (Some 1000%nat) (ContactMessage.message m))%bool.

(** Submissions one after the other, each with its mail transport *)
Fixpoint submit_all (isEmail : string -> bool) (st : Store)
    (calls : list ((Contact.Mail -> bool) * Contact.ContactBody)) : Store :=
  match calls with
  | [] => st
  | (sendMail, raw) :: rest =>
      submit_all isEmail (snd (fst (Contact.submit isEmail sendMail st raw)))
        rest
  end.

End ContactAdmin.

(** ** Vocabulary for text

    A string is the sequence of its bytes.  On text within ASCII the bytes
    are the characters, [Js.trim] is the trim of validator.js and
    [Validator.isLength] counts what validator.js counts. *)

Module Text.

Definition is_ascii (s : string) : bool :=
  forallb (fun c => Nat.ltb (nat_of_ascii c) 128) (list_ascii_of_string s).

Definition first_char (s : string) : option ascii :=
  match s with
  | EmptyString => None
  | String c _ => Some c
  end.

Fixpoint last_char (s : string) : option ascii :=
  match s with
  | EmptyString => None
  | String c EmptyString => Some c
  | String _ rest => last_char rest
  end.

Definition is_blank (c : option ascii) : bool :=
  match c with
  | Some c => Ascii.eqb c " "
  | None => false
  end.

(** The string begins or ends with a space. *)
Definition padded (s : string) : bool :=
  (is_blank (first_char s) || is_blank (last_char s))%bool.

(** The text fields of a contact form and of a stored message are within
    ASCII. *)
Definition plain_body (b : Contact.ContactBody) : bool :=
  (is_ascii (Contact.name b) && is_ascii (Contact.subject b)
   && is_ascii (Contact.message b))%bool.

Definition plain_message (m : ContactMessage.t) : bool :=
  (is_ascii (ContactMessage.name m) && is_ascii (ContactMessage.subject m)
   && is_ascii (ContactMessage.message m))%bool.

End Text.

(** ** JavaScript arrays and numbers used by the blog routes *)

Module JsArray.

(** [a.findIndex(p)]: [None] stands for [-1]. *)
Fixpoint findIndex {A : Type} (p : A -> bool) (a : list A) : option nat :=
  match a with
  | [] => None
  | x :: rest => if p x then Some O else option_map S (findIndex p rest)
  end.

(** [a[i] = v] for an index within the array *)
Fixpoint assign {A : Type} (i : nat) (v : A) (a : list A) : list A :=
  match a, i with
  | [], _ => []
  | _ :: rest, O => v :: rest
  | x :: rest, S j => x :: assign j v rest
  end.

(** [a.splice(i, 1)] *)
Fixpoint splice1 {A : Type} (i : nat) (a : list A) : list A :=
  match a, i with
  | [], _ => []
  | _ :: rest, O => rest
  | x :: rest, S j => x :: splice1 j rest
  end.

(** A relative index of [slice]: counted from the end when negative,
    clamped to the array. *)
Definition relative (len k : Z) : Z :=
  if k <? 0 then Z.max (len + k) 0 else Z.min k len.

(** [a.slice(start, end)]; [None] is [NaN], which [slice] reads as 0. *)
Definition slice {A : Type} (start stop : option Z) (a : list A) : list A :=
  let len := Z.of_nat (List.length a) in
  let from := relative len (match start with Some k => k | None => 0 end) in
  let to := relative len (match stop with Some k => k | None => 0 end) in
  firstn (Z.to_nat (to - from)) (skipn (Z.to_nat from) a).

(** [[...new Set(a)]]: the first occurrence of every value, in order *)
Fixpoint uniq_from (seen : list string) (a : list string) : list string :=
  match a with
  | [] => []
  | x :: rest =>
      if existsb (String.eqb x) seen then uniq_from seen rest
      else x :: uniq_from (x :: seen) rest
  end.

Definition uniq (a : list string) : list string := uniq_from [] a.

(** [a.includes(x)] on an array of strings *)
Definition includes (a : list string) (x : string) : bool :=
  existsb (String.eqb x) a.

End JsArray.

Module JsString.

(** [s.includes(sub)] *)
Fixpoint includes (s sub : string) : bool :=
  (String.prefix sub s
   || match s with
      | EmptyString => false
      | String _ rest => includes rest sub
      end)%bool.

(** A string is truthy when it is not empty. *)
Definition truthy (s : string) : bool := negb (String.eqb s "").

End JsString.

(** Numbers are the integers they denote and [None] is [NaN]; this is
    exact as long as the integers stay below [2^53]. *)
Module JsNumber.

Definition digit (radix : Z) (c : ascii) : option Z :=
  let n := Z.of_nat (nat_of_ascii c) in
  let v :=
    if ((48 <=? n) && (n <=? 57))%bool then Some (n - 48)
    else if ((97 <=? n) && (n <=? 122))%bool then Some (n - 87)
    else if ((65 <=? n) && (n <=? 90))%bool then Some (n - 55)
    else None in
  match v with
  | Some d => if d <? radix then Some d else None
  | None => None
  end.

(** The value of the longest prefix of digits; [acc] is the value read so
    far, [None] when no digit was read. *)
Fixpoint digits (radix : Z) (acc : option Z) (s : string) : option Z :=
  match s with
  | EmptyString => acc
  | String c rest =>
      match digit radix c with
      | Some d =>
          digits radix
            (Some (match acc with Some a => a * radix + d | None => d end))
            rest
      | None => acc
      end
  end.

(** [parseInt(s)]: leading white space, a sign, [0x] for base sixteen, then
    the longest prefix of digits; [NaN] when there is none. *)
Definition parseInt (s : string) : option Z :=
  let s := Js.ltrim s in
  let (negative, s) :=
    match s with
    | String "-" rest => (true, rest)
    | String "+" rest => (false, rest)
    | _ => (false, s)
    end in
  let (radix, s) :=
    match s with
    | String "0" (String "x" rest) => (16, rest)
    | String "0" (String "X" rest) => (16, rest)
    | _ => (10, s)
    end in
  match digits radix None s with
  | Some n => Some (if negative then - n else n)
  | None => None
  end.

(** A query parameter with a numeric default: [parseInt(q)] where
    [q = default] when the parameter is absent. *)
Definition parameter (q : option string) (default : Z) : option Z :=
  match q with
  | Some s => parseInt s
  | None => Some default
  end.

Definition mul (a b : option Z) : option Z :=
  match a, b with
  | Some x, Some y => Some (x * y)
  | _, _ => None
  end.

Definition add (a b : option Z) : option Z :=
  match a, b with
  | Some x, Some y => Some (x + y)
  | _, _ => None
  end.

(** [a < b] and [a > b]: false as soon as one side is [NaN]. *)
Definition lt (a b : option Z) : bool :=
  match a, b with
  | Some x, Some y => x <? y
  | _, _ => false
  end.

Definition gt (a b : option Z) : bool := lt b a.

(** [Math.ceil(n / d)] as JSON shows it: [null] for [NaN] and for the
    infinities of a division by zero. *)
Definition ceil_div (n : Z) (d : option Z) : option Z :=
  match d with
  | None => None
  | Some 0 => None
  | Some d => Some (- ((- n) / d))
  end.

End JsNumber.

(** ** routes/blog.js: the blog posts kept in a JSON file

    The file is read and rewritten as a whole by every handler.  A post is
    the object the handlers build; of the values a hand-edited file or an
    unchecked body could hold, a field takes those of its type here
    ([isPublished] a boolean or absent, tags an array of strings, a string
    or absent). *)

Module Blog.

Inductive Tags :=
| TagArray (tags : list string)
| TagString (tags : string)
| TagsAbsent.

Record Author := mkAuthor {
  firstName : string;
  lastName : string;
  program : string
}.

Module Post.
Record t := mk {
  id : string;
  title : string;
  content : string;
  excerpt : string;
  tags : Tags;
  imageUrl : option string;
  author : Author;
  isPublished : option bool;
  publishedAt : option string;
  createdAt : string;
  updatedAt : string
}.
End Post.

(** [data/blog-posts.json] *)
Inductive File :=
| Missing
| Unparseable
| Stored (posts : list Post.t).

(** [readBlogPosts()]: any failure to read or parse gives the empty array. *)
Definition readBlogPosts (f : File) : list Post.t :=
  match f with
  | Stored posts => posts
  | Missing | Unparseable => []
  end.

(** [writeBlogPosts(posts)] *)
Definition writeBlogPosts (posts : list Post.t) : File := Stored posts.

Record Pagination := mkPagination {
  current : option Z;
  total : option Z;
  hasNext : bool;
  hasPrev : bool
}.

Inductive Body :=
| Error (error : string)
| Errors (errors : list string)
| PostJson (post : Post.t)
| Page (posts : list Post.t) (pagination : Pagination)
| Message (message : string)
| TagNames (tags : list string).

Record Response := json {
  status : Z;
  body : Body
}.

(** [post.isPublished] read as a condition *)
Definition published (p : Post.t) : bool :=
  match Post.isPublished p with
  | Some true => true
  | _ => false
  end.

Definition has_id (id : string) (p : Post.t) : bool :=
  String.eqb (Post.id p) id.

(** What the environment supplies to a creation: [uuidv4()] and the three
    readings of the clock *)
Record Stamp := mkStamp {
  uuid : string;
  publishedAt_now : string;
  createdAt_now : string;
  updatedAt_now : string
}.

(** *** [GET /:id] *)

Definition getPost (f : File) (id : string) : Response :=
  let posts := readBlogPosts f in
  match find (has_id id) posts with
  | Some post =>
      if published post then json 200 (PostJson post)
      else json 404 (Error "Blog post not found")
  | None => json 404 (Error "Blog post not found")
  end.

(** *** [POST /] *)

Record CreateBody := mkCreateBody {
  c_title : string;
  c_content : string;
  c_excerpt : string;
  c_tags : Tags;
  c_imageUrl : option string
}.

Definition sanitize_create (b : CreateBody) : CreateBody :=
  mkCreateBody (Js.trim (c_title b)) (Js.trim (c_content b))
    (Js.trim (c_excerpt b)) (c_tags b) (c_imageUrl b).

(** [isArray({ min: 1 })] *)
Definition isArray_min1 (t : Tags) : bool :=
  match t with
  | TagArray l => Nat.leb 1 (List.length l)
  | _ => false
  end.

Definition validate_create (b : CreateBody) : list string :=
  Validator.check (Validator.isLength 5 (Some 200%nat) (c_title b))
    "Title must be 5-200 characters"
  ++ Validator.check (Validator.isLength 100 None (c_content b))
    "Content must be at least 100 characters"
  ++ Validator.check (Validator.isLength 20 (Some 300%nat) (c_excerpt b))
    "Excerpt must be 20-300 characters"
  ++ Validator.check (isArray_min1 (c_tags b))
    "At least one tag is required".

Definition createPost (f : File) (env : Stamp) (raw : CreateBody)
  : Response * File :=
  let b := sanitize_create raw in
  match validate_create b with
  | (_ :: _) as errors => (json 400 (Errors errors), f)
  | [] =>
      let posts := readBlogPosts f in
      let newPost :=
        Post.mk (uuid env) (c_title b) (c_content b) (c_excerpt b) (c_tags b)
          (c_imageUrl b) (mkAuthor "Admin" "User" "Science Club")
          (Some true) (Some (publishedAt_now env)) (createdAt_now env)
          (updatedAt_now env) in
      (json 201 (PostJson newPost), writeBlogPosts (posts ++ [newPost]))
  end.

(** *** [POST /simple] *)

Inductive AuthorInput :=
| AuthorText (name : string)
| AuthorObject (firstName lastName : option string)
| AuthorAbsent.

Record SimpleBody := mkSimpleBody {
  s_title : string;
  s_content : string;
  s_excerpt : string;
  s_tags : Tags;
  s_imageUrl : option string;
  s_author : AuthorInput;
  s_accessCode : string
}.

Definition sanitize_simple (b : SimpleBody) : SimpleBody :=
  mkSimpleBody (Js.trim (s_title b)) (Js.trim (s_content b))
    (Js.trim (s_excerpt b)) (s_tags b) (s_imageUrl b) (s_author b)
    (s_accessCode b).

(** The custom chain of [author] *)
Definition author_given (a : AuthorInput) : bool :=
  match a with
  | AuthorText s => Nat.ltb 0 (String.length (Js.trim s))
  | AuthorObject (Some fn) _ =>
      (JsString.truthy fn && Nat.ltb 0 (String.length (Js.trim fn)))%bool
  | _ => false
  end.

Definition validate_simple (b : SimpleBody) : list string :=
  Validator.check (Validator.isLength 5 (Some 200%nat) (s_title b))
    "Title must be 5-200 characters"
  ++ Validator.check (Validator.isLength 10 None (s_content b))
    "Content must be at least 10 characters"
  ++ Validator.check (Validator.isLength 10 (Some 300%nat) (s_excerpt b))
    "Excerpt must be 10-300 characters"
  ++ Validator.check (author_given (s_author b)) "Author is required"
  ++ Validator.check (Validator.notEmpty (s_accessCode b))
    "Access code is required".

(** [process.env.MENTOR_ACCESS_CODE || 'SSC2024MENTOR'] *)
Definition validCode (mentorAccessCode : option string) : string :=
  match mentorAccessCode with
  | Some code => if JsString.truthy code then code else "SSC2024MENTOR"
  | None => "SSC2024MENTOR"
  end.

(** [authorParts]; [None] when [author.split] is not a function and the
    handler ends in its [catch]. *)
Definition authorParts (a : AuthorInput) : option (string * string) :=
  match a with
  | AuthorText s =>
      Some (let fn := Js.first (Js.split " " s) in
            if JsString.truthy fn then fn else "Anonymous",
            Js.or_empty (Js.join " " (Js.slice1 (Js.split " " s))))
  | AuthorObject (Some fn) (Some ln) =>
      if (JsString.truthy fn && JsString.truthy ln)%bool then Some (fn, ln)
      else None
  | _ => None
  end.

(** [Array.isArray(tags) ? tags
     : (tags ? tags.split(',').map(t => t.trim()) : [])]; the [trim] of
    JavaScript strips the same characters as the one of the chains, within
    ASCII. *)
Definition tag_names (t : Tags) : list string :=
  match t with
  | TagArray l => l
  | TagString s =>
      if JsString.truthy s then map Js.trim (Js.split "," s) else []
  | TagsAbsent => []
  end.

Definition createSimple (mentorAccessCode : option string) (f : File)
    (env : Stamp) (raw : SimpleBody) : Response * File :=
  let b := sanitize_simple raw in
  match validate_simple b with
  | (_ :: _) as errors => (json 400 (Errors errors), f)
  | [] =>
      if negb (String.eqb (s_accessCode b) (validCode mentorAccessCode))
      then (json 401 (Error "Invalid access code"), f)
      else
        match authorParts (s_author b) with
        | None => (json 500 (Error "Failed to create blog post"), f)
        | Some (fn, ln) =>
            let posts := readBlogPosts f in
            let newPost :=
              Post.mk (uuid env) (s_title b) (s_content b) (s_excerpt b)
                (TagArray (tag_names (s_tags b))) (s_imageUrl b)
                (mkAuthor fn ln "Science Club")
                (Some true) (Some (publishedAt_now env)) (createdAt_now env)
                (updatedAt_now env) in
            (json 201 (PostJson newPost), writeBlogPosts (posts ++ [newPost]))
        end
  end.

(** *** [PUT /:id] *)

(** The fields a body may carry; each one present replaces the field of
    the post ([...req.body]). *)
Record UpdateBody := mkUpdateBody {
  u_id : option string;
  u_title : option string;
  u_content : option string;
  u_excerpt : option string;
  u_tags : option Tags;
  u_imageUrl : option string;
  u_author : option Author;
  u_isPublished : option bool;
  u_publishedAt : option string;
  u_createdAt : option string
}.

Definition sanitize_update (b : UpdateBody) : UpdateBody :=
  mkUpdateBody (u_id b) (option_map Js.trim (u_title b))
    (option_map Js.trim (u_content b)) (option_map Js.trim (u_excerpt b))
    (u_tags b) (u_imageUrl b) (u_author b) (u_isPublished b)
    (u_publishedAt b) (u_createdAt b).

Definition validate_update (b : UpdateBody) : list string :=
  Validator.optional (u_title b) (fun v =>
    Validator.check (Validator.isLength 5 (Some 200%nat) v)
      "Title must be 5-200 characters")
  ++ Validator.optional (u_content b) (fun v =>
    Validator.check (Validator.isLength 10 None v)
      "Content must be at least 10 characters")
  ++ Validator.optional (u_excerpt b) (fun v =>
    Validator.check (Validator.isLength 10 (Some 300%nat) v)
      "Excerpt must be 10-300 characters").

Definition or_old {A : Type} (v : option A) (old : A) : A :=
  match v with
  | Some x => x
  | None => old
  end.

Definition or_old_option {A : Type} (v : option A) (old : option A)
  : option A :=
  match v with
  | Some x => Some x
  | None => old
  end.

(** [{ ...post, ...req.body, updatedAt: now }] *)
Definition spread (old : Post.t) (b : UpdateBody) (now : string) : Post.t :=
  Post.mk (or_old (u_id b) (Post.id old))
    (or_old (u_title b) (Post.title old))
    (or_old (u_content b) (Post.content old))
    (or_old (u_excerpt b) (Post.excerpt old))
    (or_old (u_tags b) (Post.tags old))
    (or_old_option (u_imageUrl b) (Post.imageUrl old))
    (or_old (u_author b) (Post.author old))
    (or_old_option (u_isPublished b) (Post.isPublished old))
    (or_old_option (u_publishedAt b) (Post.publishedAt old))
    (or_old (u_createdAt b) (Post.createdAt old))
    now.

Definition updatePost (f : File) (now : string) (id : string)
    (raw : UpdateBody) : Response * File :=
  let b := sanitize_update raw in
  match validate_update b with
  | (_ :: _) as errors => (json 400 (Errors errors), f)
  | [] =>
      let posts := readBlogPosts f in
      match JsArray.findIndex (has_id id) posts with
      | None => (json 404 (Error "Blog post not found"), f)
      | Some postIndex =>
          match nth_error posts postIndex with
          | Some old =>
              let updated := spread old b now in
              (json 200 (PostJson updated),
               writeBlogPosts (JsArray.assign postIndex updated posts))
          | None => (json 500 (Error "Failed to update blog post"), f)
          end
      end
  end.

(** *** [DELETE /:id] *)

Definition deletePost (f : File) (id : string) : Response * File :=
  let posts := readBlogPosts f in
  match JsArray.findIndex (has_id id) posts with
  | None => (json 404 (Error "Blog post not found"), f)
  | Some postIndex =>
      (json 200 (Message "Blog post deleted successfully"),
       writeBlogPosts (JsArray.splice1 postIndex posts))
  end.

(** *** [PATCH /:id/publish] *)

(** [{ ...post, isPublished,
       publishedAt: isPublished ? now : null, updatedAt: now' }] *)
Definition republish (old : Post.t) (isPublished : option bool)
    (now now' : string) : Post.t :=
  Post.mk (Post.id old) (Post.title old) (Post.content old)
    (Post.excerpt old) (Post.tags old) (Post.imageUrl old) (Post.author old)
    isPublished
    (match isPublished with Some true => Some now | _ => None end)
    (Post.createdAt old) now'.

Definition publishPost (f : File) (now now' : string) (id : string)
    (isPublished : option bool) : Response * File :=
  let posts := readBlogPosts f in
  match JsArray.findIndex (has_id id) posts with
  | None => (json 404 (Error "Blog post not found"), f)
  | Some postIndex =>
      match nth_error posts postIndex with
      | Some old =>
          let updated := republish old isPublished now now' in
          (json 200 (PostJson updated),
           writeBlogPosts (JsArray.assign postIndex updated posts))
      | None => (json 500 (Error "Failed to update blog post status"), f)
      end
  end.

(** *** [GET /tags/all] *)

(** [Array.isArray(post.tags) ? post.tags
     : (typeof post.tags === 'string'
        ? post.tags.split(',').map(t => t.trim()) : [])] *)
Definition tags_of (post : Post.t) : list string :=
  match Post.tags post with
  | TagArray l => l
  | TagString s => map Js.trim (Js.split "," s)
  | TagsAbsent => []
  end.

Definition tagsAll (f : File) : Response :=
  let posts := readBlogPosts f in
  let publishedPosts := filter published posts in
  let allTags := flat_map tags_of publishedPosts in
  json 200 (TagNames (filter JsString.truthy (JsArray.uniq allTags))).

(** *** [GET /] *)

(** [post.tags && (Array.isArray(post.tags) && post.tags.includes(tag)
     || typeof post.tags === 'string' && post.tags.includes(tag))] *)
Definition has_tag (tag : string) (p : Post.t) : bool :=
  match Post.tags p with
  | TagArray l => JsArray.includes l tag
  | TagString s => (JsString.truthy s && JsString.includes s tag)%bool
  | TagsAbsent => false
  end.

Section Listing.

(** [new Date(s).getTime()] of a string: the instant it denotes, [None]
    ([NaN]) when it denotes none *)
Variable time_of : string -> option Z.

(** [new Date(post.publishedAt)]: [null] is the epoch. *)
Definition published_time (p : Post.t) : option Z :=
  match Post.publishedAt p with
  | Some s => time_of s
  | None => Some 0
  end.

(** The comparator [new Date(b.publishedAt) - new Date(a.publishedAt)] is
    not positive: [a] may stay before [b].  A [NaN] is read as 0. *)
Definition not_after (a b : Post.t) : bool :=
  match published_time a, published_time b with
  | Some ta, Some tb => tb <=? ta
  | _, _ => true
  end.

Fixpoint insert_post (a : Post.t) (l : list Post.t) : list Post.t :=
  match l with
  | [] => [a]
  | x :: rest => if not_after a x then a :: l else x :: insert_post a rest
  end.

(** [posts.sort(comparator)]: the sort is stable *)
Definition sort_newest_first (l : list Post.t) : list Post.t :=
  fold_right insert_post [] l.

(** The posts a listing pages through: published, with the tag when one
    is asked for, newest first *)
Definition visible (f : File) (tag : option string) : list Post.t :=
  let posts := readBlogPosts f in
  let posts := filter published posts in
  let posts :=
    match tag with
    | Some t => if JsString.truthy t then filter (has_tag t) posts else posts
    | None => posts
    end in
  sort_newest_first posts.

Definition listPosts (f : File) (page limit tag : option string) : Response :=
  let posts := visible f tag in
  let total := Z.of_nat (List.length posts) in
  let p := JsNumber.parameter page 1 in
  let l := JsNumber.parameter limit 10 in
  let startIndex := JsNumber.mul (JsNumber.add p (Some (-1))) l in
  let endIndex := JsNumber.add startIndex l in
  let paginatedPosts := JsArray.slice startIndex endIndex posts in
  json 200
    (Page paginatedPosts
       (mkPagination p (JsNumber.ceil_div total l)
          (JsNumber.lt (JsNumber.mul p l) (Some total))
          (JsNumber.gt p (Some 1)))).

End Listing.

(** *** Vocabulary of the properties *)

(** No two posts have the same id. *)
Fixpoint ids_distinct (posts : list Post.t) : bool :=
  match posts with
  | [] => true
  | p :: rest =>
      (negb (existsb (has_id (Post.id p)) rest) && ids_distinct rest)%bool
  end.

(** The [k]-th run of [size] consecutive posts, counted from 0 *)
Definition chunk (size : Z) (k : nat) (posts : list Post.t) : list Post.t :=
  firstn (Z.to_nat size) (skipn (k * Z.to_nat size) posts).

(** Every published post carries a date that denotes an instant. *)
Definition dated (time_of : string -> option Z) (posts : list Post.t) : bool :=
  forallb (fun p => match published_time time_of p with
                    | Some _ => true
                    | None => false
                    end) posts.

Definition newer_or_same (time_of : string -> option Z) (a b : Post.t)
  : Prop :=
  match published_time time_of a, published_time time_of b with
  | Some ta, Some tb => tb <= ta
  | _, _ => False
  end.

End Blog.

(** ** More concrete requests *)

Module Sample.

(** Alice and Bob ask for the single seat of the workshop. *)
Definition two_arrivals : list Integrity.Request :=
  [(Example.at_noon, (1%N, Example.alice));
   (Example.at_one, (1%N, Example.bob))].

(** Ann is registered for the workshop. *)
Definition ann_registered : Store :=
  mkStore [Example.workshop (Some 5) 1] [Example.ann]
    [EventRegistration.mk 1 1 1 1100] [] 2 2 1.

(** Two stored contact messages *)
Definition inbox : Store :=
  mkStore [] [] []
    [ContactMessage.mk 1 "Dana" "dana@myseneca.ca" "Joining the club"
       "How do I join the science club?";
     ContactMessage.mk 2 "Evan" "evan@myseneca.ca" "Lab tour"
       "Is the lab tour open to first years?"] 1 1 3.

Definition too_short : Contact.ContactBody :=
  Contact.mkContactBody "D" "dana@myseneca.ca" "Hi" "Hello".

(** An accepted and a rejected submission, the first with a transport
    that bounces *)
Definition two_submissions
  : list ((Contact.Mail -> bool) * Contact.ContactBody) :=
  [(Example.bounces, Example.hello); (Example.delivers, too_short)].

(** Two registrations with a listing in between *)
Definition two_registrations : list Service.Op :=
  [Service.Register Example.at_noon 1 Example.ann_as_S9;
   Service.ListRegistrations Example.admin 1;
   Service.Register Example.at_one 1 Example.alice].

End Sample.

(** ** A blog file *)

Module BlogSample.

Import Blog.

(** The instants of the dates of the sample, in milliseconds *)
Definition clock (s : string) : option Z :=
  if String.eqb s "2024-03-01T10:00:00.000Z" then Some 1709287200000
  else if String.eqb s "2024-04-15T09:30:00.000Z" then Some 1713173400000
  else None.

Definition admin_user : Author := mkAuthor "Admin" "User" "Science Club".

Definition welcome : Post.t :=
  Post.mk "p1" "Welcome to the club"
    "The science club meets every Friday." "Meet the science club"
    (TagArray ["news"; "club"]) None admin_user (Some true)
    (Some "2024-03-01T10:00:00.000Z") "2024-03-01T10:00:00.000Z"
    "2024-03-01T10:00:00.000Z".

Definition draft : Post.t :=
  Post.mk "p2" "Lab safety rules"
    "Goggles and closed shoes are required." "What to wear in the lab"
    (TagString "lab, news") None admin_user (Some false) None
    "2024-03-01T10:00:00.000Z" "2024-03-01T10:00:00.000Z".

Definition fair : Post.t :=
  Post.mk "p3" "Science fair"
    "The science fair takes place in April." "Join the science fair"
    (TagString "fair, news") None admin_user (Some true)
    (Some "2024-04-15T09:30:00.000Z") "2024-04-15T09:30:00.000Z"
    "2024-04-15T09:30:00.000Z".

Definition journal : File := Stored [welcome; draft; fair].

Definition stamp : Stamp :=
  mkStamp "p4" "2024-04-15T09:30:00.000Z" "2024-04-15T09:30:00.000Z"
    "2024-04-15T09:30:00.000Z".

Definition announcement : CreateBody :=
  mkCreateBody "  Lab tour  "
    ("The chemistry lab opens its doors to first-year students on Monday; "
     ++ "bring your student card and closed shoes, and meet us at the "
     ++ "main entrance.")
    "The chemistry lab opens its doors on Monday."
    (TagArray ["lab"]) None.

End BlogSample.

(** * Properties *)

(** ** Facts about the store calls *)

Module PrismaFacts.

Import Prisma.

Section Lists.

Context {A : Type}.
Implicit Types (p q : A -> bool) (f : A -> A) (l : list A).

Lemma find_app_some p l l' x :
  find p l = Some x -> find p (l ++ l') = Some x.
Proof.
  induction l as [|y l IH]; simpl; [discriminate|].
  destruct (p y); auto.
Qed.

Lemma find_app_none p l l' :
  find p l = None -> find p (l ++ l') = find p l'.
Proof.
  induction l as [|y l IH]; simpl; [reflexivity|].
  destruct (p y); [discriminate|auto].
Qed.

Lemma find_none_filter p l : find p l = None -> filter p l = [].
Proof.
  induction l as [|y l IH]; simpl; [reflexivity|].
  destruct (p y); [discriminate|auto].
Qed.

Lemma find_none_existsb p l : find p l = None <-> existsb p l = false.
Proof.
  induction l as [|y l IH]; simpl; [tauto|].
  destruct (p y); simpl; [split; discriminate|exact IH].
Qed.

Lemma update_first_none p f l :
  update_first p f l = None <-> find p l = None.
Proof.
  induction l as [|y l IH]; simpl; [tauto|].
  destruct (p y); [split; discriminate|].
  destruct (update_first p f l); split; intros H;
    try discriminate; try reflexivity.
  - apply IH in H. discriminate.
  - now apply IH.
Qed.

Lemma update_first_some p f l x :
  find p l = Some x -> exists l', update_first p f l = Some l'.
Proof.
  intros H. destruct (update_first p f l) as [l'|] eqn:E; [eauto|].
  apply update_first_none in E. congruence.
Qed.

Lemma update_first_find p f l l' :
  (forall x, p (f x) = p x) ->
  update_first p f l = Some l' ->
  find p l' = option_map f (find p l).
Proof.
  intros Hp. revert l'.
  induction l as [|y l IH]; simpl; intros l' H; [discriminate|].
  destruct (p y) eqn:Ey.
  - injection H as <-. simpl. now rewrite Hp, Ey.
  - destruct (update_first p f l) as [r|]; [|discriminate].
    injection H as <-. simpl. rewrite Ey. auto.
Qed.

Lemma update_first_find_other p q f l l' :
  (forall x, q (f x) = q x) ->
  (forall x, p x = true -> q x = false) ->
  update_first p f l = Some l' ->
  find q l' = find q l.
Proof.
  intros Hq Hpq. revert l'.
  induction l as [|y l IH]; simpl; intros l' H; [discriminate|].
  destruct (p y) eqn:Ey.
  - injection H as <-. simpl. now rewrite Hq, (Hpq _ Ey).
  - destruct (update_first p f l) as [r|]; [|discriminate].
    injection H as <-. simpl. now rewrite (IH r).
Qed.

Lemma update_first_forallb p q f l l' :
  (forall x, find p l = Some x -> q x = true -> q (f x) = true) ->
  update_first p f l = Some l' ->
  forallb q l = true -> forallb q l' = true.
Proof.
  revert l'.
  induction l as [|y l IH]; simpl; intros l' Hq H; [discriminate|].
  destruct (p y) eqn:Ey.
  - injection H as <-. simpl. intros [Hy Hl]%andb_prop.
    now rewrite (Hq _ eq_refl Hy), Hl.
  - destruct (update_first p f l) as [r|]; [|discriminate].
    injection H as <-. simpl. intros [Hy Hl]%andb_prop.
    now rewrite Hy, (IH r).
Qed.

Lemma update_first_existsb p q f l l' :
  (forall x, q (f x) = q x) ->
  update_first p f l = Some l' ->
  existsb q l' = existsb q l.
Proof.
  intros Hq. revert l'.
  induction l as [|y l IH]; simpl; intros l' H; [discriminate|].
  destruct (p y).
  - injection H as <-. simpl. now rewrite Hq.
  - destruct (update_first p f l) as [r|]; [|discriminate].
    injection H as <-. simpl. now rewrite (IH r).
Qed.

Lemma filter_permutation p l l' :
  Permutation l l' -> Permutation (filter p l) (filter p l').
Proof.
  induction 1 as [|x l l' _ IH|x y l|l l' l'' _ IH1 _ IH2]; simpl.
  - constructor.
  - destruct (p x); auto.
  - destruct (p x), (p y); auto using Permutation_refl, perm_swap.
  - now transitivity (filter p l').
Qed.

Lemma filter_narrow p q l :
  (forall x, In x l -> q x = true -> p x = true) ->
  filter q (filter p l) = filter q l.
Proof.
  induction l as [|y l IH]; simpl; intros Hqp; [reflexivity|].
  destruct (p y) eqn:Ep; simpl.
  - rewrite IH; auto.
  - destruct (q y) eqn:Eq; [|apply IH; auto].
    rewrite Hqp in Ep; auto. discriminate.
Qed.

Lemma filter_none p l :
  (forall x, In x l -> p x = false) -> filter p l = [].
Proof.
  induction l as [|y l IH]; simpl; intros Hp; [reflexivity|].
  rewrite (Hp y) by auto. auto.
Qed.

Lemma in_firstn k l x : In x (firstn k l) -> In x l.
Proof.
  revert k. induction l as [|y l IH]; intros [|k]; simpl; try tauto.
  intros [->|H]; eauto.
Qed.

Lemma forallb_firstn p k l :
  forallb p l = true -> forallb p (firstn k l) = true.
Proof.
  rewrite !forallb_forall. intros H x Hx%in_firstn. now apply H.
Qed.

Lemma filter_of_map {B : Type} (g : B -> A) p (l : list B) :
  filter p (map g l) = map g (filter (fun x => p (g x)) l).
Proof.
  induction l as [|y l IH]; simpl; [reflexivity|].
  destruct (p (g y)); simpl; now rewrite IH.
Qed.

End Lists.

(** *** Ordering by creation time *)

Lemma insert_by_createdAt_perm r l :
  Permutation (insert_by_createdAt r l) (r :: l).
Proof.
  induction l as [|x l IH]; simpl; [reflexivity|].
  destruct (_ <=? _); [reflexivity|].
  rewrite IH. apply perm_swap.
Qed.

Lemma orderBy_createdAt_asc_perm l :
  Permutation (orderBy_createdAt_asc l) l.
Proof.
  induction l as [|x l IH]; simpl; [constructor|].
  rewrite insert_by_createdAt_perm. now constructor.
Qed.

Lemma insert_by_createdAt_sorted r l :
  Sorted Invariant.createdAt_le l ->
  Sorted Invariant.createdAt_le (insert_by_createdAt r l).
Proof.
  unfold Invariant.createdAt_le.
  induction 1 as [|x l Hl IH Hhd]; simpl.
  - repeat constructor.
  - destruct (Z.leb_spec (EventRegistration.createdAt r)
                (EventRegistration.createdAt x)) as [Hle|Hgt].
    + constructor; [now constructor|constructor; exact Hle].
    + constructor; [exact IH|].
      destruct Hhd as [|y l Hxy]; simpl.
      * constructor. lia.
      * destruct (_ <=? _); constructor; [lia|assumption].
Qed.

Lemma orderBy_createdAt_asc_sorted l :
  StronglySorted Invariant.createdAt_le (orderBy_createdAt_asc l).
Proof.
  apply Sorted_StronglySorted.
  - intros a b c. unfold Invariant.createdAt_le. lia.
  - induction l as [|x l IH]; simpl; [constructor|].
    now apply insert_by_createdAt_sorted.
Qed.

(** *** Incrementing the counter of an event *)

Lemma has_event_id_increment id e :
  has_event_id id (increment_currentCapacity e) = has_event_id id e.
Proof. reflexivity. Qed.

End PrismaFacts.

(** ** Facts about the registration handler *)

Module RegisterFacts.

Import Prisma Events.

(** The registration row a request for event [id] inserts for [userId] *)
Local Abbreviation row st env userId id :=
  (EventRegistration.mk (nextRegistrationId st) userId id (now env)).

Local Abbreviation created r :=
  (json 201 (Registered "Successfully registered for event" r)).

Lemma create_registration_spec st env userId id e :
  event_findUnique st id = Some e ->
  exists evs,
    update_first (has_event_id id) increment_currentCapacity (events st)
    = Some evs
    /\ create_registration st env userId id
       = (created (row st env userId id),
          mkStore evs (users st)
            (eventRegistrations st ++ [row st env userId id])
            (contactMessages st) (nextUserId st)
            (N.succ (nextRegistrationId st)) (nextMessageId st)).
Proof.
  intros He.
  destruct (PrismaFacts.update_first_some (has_event_id id)
              increment_currentCapacity _ _ He) as [evs Hevs].
  exists evs. split; [exact Hevs|].
  unfold create_registration, eventRegistration_create, event_increment.
  simpl. now rewrite Hevs.
Qed.

Section Register.

Variable isEmail : string -> bool.

Local Abbreviation register := (Events.register isEmail).
Local Abbreviation validate := (Events.validate isEmail).

(** The handler on a body that passes the chains, check by check *)
Lemma register_valid st env id raw :
  validate (sanitize raw) = [] ->
  register st env id raw
  = match event_findUnique st id with
    | None => (NotFound, st)
    | Some event =>
        if at_full_capacity event then (CapacityExceeded, st)
        else
          match Invariant.resolve st raw with
          | Some u =>
              match eventRegistration_findFirst st (User.id u) id with
              | Some _ => (AlreadyRegistered, st)
              | None => create_registration st env (User.id u) id
              end
          | None =>
              create_registration
                (snd (user_create st (new_user env (sanitize raw)))) env
                (nextUserId st) id
          end
    end.
Proof.
  intros Hv. unfold Events.register, Invariant.resolve. now rewrite Hv.
Qed.

Lemma register_invalid st env id raw :
  validate (sanitize raw) <> [] ->
  register st env id raw = (ValidationError (validate (sanitize raw)), st).
Proof.
  intros Hv. unfold Events.register.
  destruct (validate (sanitize raw)); [congruence|reflexivity].
Qed.

(** A request that is answered with 201 passed every check, and the store
    it leaves is the old one with the registration appended, the counter
    of the event incremented, and the user appended when it was unknown. *)
Lemma register_201 st env id raw resp st' :
  register st env id raw = (resp, st') ->
  status resp = 201 ->
  validate (sanitize raw) = []
  /\ exists e evs,
      event_findUnique st id = Some e
      /\ at_full_capacity e = false
      /\ update_first (has_event_id id) increment_currentCapacity (events st)
         = Some evs
      /\ ((exists u,
              Invariant.resolve st raw = Some u
              /\ eventRegistration_findFirst st (User.id u) id = None
              /\ resp = created (row st env (User.id u) id)
              /\ st' = mkStore evs (users st)
                         (eventRegistrations st ++ [row st env (User.id u) id])
                         (contactMessages st) (nextUserId st)
                         (N.succ (nextRegistrationId st)) (nextMessageId st))
          \/ (Invariant.resolve st raw = None
              /\ resp = created (row st env (nextUserId st) id)
              /\ st' = mkStore evs
                         (users st
                          ++ [fst (user_create st (new_user env (sanitize raw)))])
                         (eventRegistrations st
                          ++ [row st env (nextUserId st) id])
                         (contactMessages st) (N.succ (nextUserId st))
                         (N.succ (nextRegistrationId st)) (nextMessageId st))).
Proof.
  intros Hr H201.
  destruct (validate (sanitize raw)) as [|m ms] eqn:Hv.
  2:{ rewrite register_invalid in Hr by congruence.
      injection Hr as <- <-. discriminate. }
  split; [reflexivity|].
  rewrite (register_valid _ _ _ _ Hv) in Hr.
  destruct (event_findUnique st id) as [e|] eqn:He.
  2:{ injection Hr as <- <-. discriminate. }
  destruct (at_full_capacity e) eqn:Hfull.
  1:{ injection Hr as <- <-. discriminate. }
  destruct (Invariant.resolve st raw) as [u|] eqn:Hu.
  - destruct (eventRegistration_findFirst st (User.id u) id) eqn:Hreg.
    1:{ injection Hr as <- <-. discriminate. }
    destruct (create_registration_spec st env (User.id u) id e He)
      as (evs & Hevs & Hc).
    rewrite Hc in Hr. injection Hr as <- <-.
    exists e, evs. repeat split; try assumption.
    left. exists u. repeat split; reflexivity || assumption.
  - set (st1 := snd (user_create st (new_user env (sanitize raw)))) in *.
    destruct (create_registration_spec st1 env (nextUserId st) id e He)
      as (evs & Hevs & Hc).
    rewrite Hc in Hr. injection Hr as <- <-.
    exists e, evs. repeat split; try assumption.
    right. repeat split; reflexivity.
Qed.

(** Any other answer leaves the store as it was and is one of the four
    refusals. *)
Lemma register_refused st env id raw resp st' :
  register st env id raw = (resp, st') ->
  status resp <> 201 ->
  st' = st
  /\ (resp = ValidationError (validate (sanitize raw))
      \/ resp = NotFound \/ resp = CapacityExceeded
      \/ resp = AlreadyRegistered).
Proof.
  intros Hr Hn.
  destruct (validate (sanitize raw)) as [|m ms] eqn:Hv.
  2:{ rewrite register_invalid in Hr by congruence.
      injection Hr as <- <-. rewrite Hv. auto. }
  rewrite (register_valid _ _ _ _ Hv) in Hr.
  destruct (event_findUnique st id) as [e|] eqn:He.
  2:{ injection Hr as <- <-. auto. }
  destruct (at_full_capacity e).
  1:{ injection Hr as <- <-. auto. }
  destruct (Invariant.resolve st raw) as [u|].
  - destruct (eventRegistration_findFirst st (User.id u) id).
    1:{ injection Hr as <- <-. auto 6. }
    destruct (create_registration_spec st env (User.id u) id e He)
      as (evs & _ & Hc).
    rewrite Hc in Hr. injection Hr as <- <-. now elim Hn.
  - set (st1 := snd (user_create st (new_user env (sanitize raw)))) in *.
    destruct (create_registration_spec st1 env (nextUserId st) id e He)
      as (evs & _ & Hc).
    rewrite Hc in Hr. injection Hr as <- <-. now elim Hn.
Qed.

End Register.

End RegisterFacts.

(** ** The registration workflow, one request at a time *)

Module Registration.

Import Prisma Events.

Local Abbreviation created r :=
  (json 201 (Registered "Successfully registered for event" r)).

(** Closes a goal of a case analysis on the checks of the handler: the
    hypotheses name the outcome of each check, and either contradict each
    other or give the witnesses asked for. *)
Local Ltac settle :=
  intros;
  repeat match goal with
         | H : ex _ |- _ => destruct H
         | H : _ /\ _ |- _ => destruct H
         | H : _ \/ _ |- _ => destruct H
         end;
  try discriminate; try congruence;
  try (repeat esplit; (eassumption || reflexivity)).

(** The same when a hypothesis or the goal says that the participant of
    the body, if there is one, has no registration. *)
Local Ltac settle_all :=
  settle;
  try (exfalso;
       match goal with
       | H : forall u, Some ?v = Some u -> ~ _ |- _ =>
           apply (H v eq_refl); eauto
       end);
  try (try (split; [reflexivity|]); eexists; split; [reflexivity|];
       split; [assumption|];
       let Heq := fresh in
       let Hr := fresh in
       intros ? Heq [? Hr];
       (discriminate Heq || (injection Heq as <-; congruence))).

(** What the checks of the handler read, said without the store calls: the
    event with the key is the first row that carries it, the participant is
    the first user who holds the email or the senecaId, and a registration
    is a row that links the two. *)
Lemma find_first {A : Type} (p : A -> bool) (l : list A) x :
  find p l = Some x
  <-> exists before after,
        l = (before ++ x :: after)%list
        /\ p x = true
        /\ (forall y, In y before -> p y = false).
Proof.
  split.
  - induction l as [|y l IH]; simpl; [discriminate|].
    destruct (p y) eqn:Hy.
    + intros H. injection H as <-. exists [], l. simpl. repeat split; tauto.
    + intros H. destruct (IH H) as (before & after & -> & Hx & Hb).
      exists (y :: before), after. repeat split; trivial.
      intros z [<-|Hz]; auto.
  - intros (before & after & -> & Hx & Hb).
    induction before as [|y before IH]; simpl.
    + now rewrite Hx.
    + rewrite (Hb y) by now left.
      apply IH. intros z Hz. apply Hb. now right.
Qed.

Lemma find_absent {A : Type} (p : A -> bool) (l : list A) :
  find p l = None <-> (forall y, In y l -> p y = false).
Proof.
  split.
  - intros H y Hy. now apply (find_none p l H).
  - induction l as [|y l IH]; simpl; intros H; [reflexivity|].
    rewrite (H y) by now left. apply IH. intros z Hz. apply H. now right.
Qed.

Lemma event_findUnique_first st id e :
  event_findUnique st id = Some e
  <-> exists before after,
        events st = (before ++ e :: after)%list
        /\ Event.id e = id
        /\ (forall x, In x before -> Event.id x <> id).
Proof.
  unfold event_findUnique, has_event_id. rewrite find_first.
  split; intros (before & after & Hl & He & Hb); exists before, after;
    (split; [exact Hl|]); rewrite N.eqb_eq in *.
  - split; [exact He|]. intros x Hx. apply N.eqb_neq. auto.
  - split; [exact He|]. intros x Hx. apply N.eqb_neq. auto.
Qed.

Lemma event_findUnique_absent st id :
  event_findUnique st id = None
  <-> (forall e, In e (events st) -> Event.id e <> id).
Proof.
  unfold event_findUnique, has_event_id. rewrite find_absent.
  split; intros H e He; apply N.eqb_neq; auto.
Qed.

Lemma at_full_capacity_spec e :
  at_full_capacity e = true
  <-> exists m, Event.maxCapacity e = Some m
                /\ m <> 0 /\ m <= Event.currentCapacity e.
Proof.
  unfold at_full_capacity. destruct (Event.maxCapacity e) as [m|].
  - rewrite andb_true_iff, negb_true_iff, Z.eqb_neq, Z.geb_le. split.
    + intros [Hm Hle]. exists m. auto.
    + intros (m' & Heq & Hm & Hle). injection Heq as <-. auto.
  - split; [discriminate|]. intros (m & Heq & _). discriminate.
Qed.

Lemma email_or_senecaId_spec em sid u :
  email_or_senecaId em sid u = true
  <-> User.email u = em \/ User.senecaId u = sid.
Proof.
  unfold email_or_senecaId. now rewrite orb_true_iff, !String.eqb_eq.
Qed.

Lemma user_findFirst_first st em sid u :
  user_findFirst st em sid = Some u
  <-> exists before after,
        users st = (before ++ u :: after)%list
        /\ (User.email u = em \/ User.senecaId u = sid)
        /\ (forall x, In x before ->
            ~ (User.email x = em \/ User.senecaId x = sid)).
Proof.
  unfold user_findFirst. rewrite find_first.
  split; intros (before & after & Hl & Hu & Hb); exists before, after;
    (split; [exact Hl|]); rewrite email_or_senecaId_spec in *;
    (split; [exact Hu|]); intros x Hx.
  - rewrite <- email_or_senecaId_spec. rewrite (Hb x Hx). discriminate.
  - apply not_true_is_false. rewrite email_or_senecaId_spec. now apply Hb.
Qed.

Lemma eventRegistration_findFirst_some st userId id :
  (exists r, eventRegistration_findFirst st userId id = Some r)
  <-> exists r, In r (eventRegistrations st)
                /\ EventRegistration.userId r = userId
                /\ EventRegistration.eventId r = id.
Proof.
  unfold eventRegistration_findFirst, user_and_event. split.
  - intros [r Hr]. apply find_some in Hr as [Hin Hr].
    apply andb_prop in Hr as [Hu He]. apply N.eqb_eq in Hu, He. eauto.
  - intros (r & Hin & Hu & He).
    destruct (find _ (eventRegistrations st)) as [r'|] eqn:Hf; [eauto|].
    apply (find_none _ _ Hf) in Hin.
    rewrite Hu, He, !N.eqb_refl in Hin. discriminate.
Qed.

Section Sequential.

Variable isEmail : string -> bool.

Local Abbreviation register := (Events.register isEmail).
Local Abbreviation validate := (Events.validate isEmail).

(** After a 201: the new row is the only row added, it references the event
    and the user the body resolves to in the store the request leaves, and
    the counter of that event, and of no other, went up by one. *)
Lemma register_201_links st env id raw resp st' :
  register st env id raw = (resp, st') ->
  status resp = 201 ->
  exists r u e,
    resp = created r
    /\ r = EventRegistration.mk (nextRegistrationId st) (User.id u) id (now env)
    /\ Invariant.resolve st' raw = Some u
    /\ eventRegistrations st' = (eventRegistrations st ++ [r])%list
    /\ event_findUnique st id = Some e
    /\ at_full_capacity e = false
    /\ event_findUnique st' id = Some (increment_currentCapacity e)
    /\ (forall id', id' <> id ->
        event_findUnique st' id' = event_findUnique st id').
Proof.
  intros Hr H201.
  destruct (RegisterFacts.register_201 _ _ _ _ _ _ _ Hr H201)
    as (_ & e & evs & He & Hfull & Hevs
        & [(u & Hu & Hreg & -> & ->)|(Hu & -> & ->)]).
  - exists (EventRegistration.mk (nextRegistrationId st) (User.id u) id
              (now env)), u, e.
    repeat split; trivial.
    + unfold event_findUnique. simpl.
      rewrite (PrismaFacts.update_first_find _ _ _ _
                 (PrismaFacts.has_event_id_increment id) Hevs).
      unfold event_findUnique in He. now rewrite He.
    + intros id' Hne. unfold event_findUnique. simpl.
      apply PrismaFacts.update_first_find_other with (3 := Hevs);
        [reflexivity|].
      unfold has_event_id. intros x Hx%N.eqb_eq.
      apply N.eqb_neq. congruence.
  - exists (EventRegistration.mk (nextRegistrationId st) (nextUserId st) id
              (now env)),
      (fst (user_create st (new_user env (sanitize raw)))), e.
    repeat split; trivial.
    + unfold Invariant.resolve, user_findFirst in *. simpl.
      rewrite (PrismaFacts.find_app_none _ _ _ Hu). simpl.
      unfold email_or_senecaId. simpl. now rewrite String.eqb_refl.
    + unfold event_findUnique. simpl.
      rewrite (PrismaFacts.update_first_find _ _ _ _
                 (PrismaFacts.has_event_id_increment id) Hevs).
      unfold event_findUnique in He. now rewrite He.
    + intros id' Hne. unfold event_findUnique. simpl.
      apply PrismaFacts.update_first_find_other with (3 := Hevs);
        [reflexivity|].
      unfold has_event_id. intros x Hx%N.eqb_eq.
      apply N.eqb_neq. congruence.
Qed.

(** C4. A registration that is answered with 201 appends exactly one row
    to the registrations, the row that links the event to the participant
    the body resolves to; no other row is added or removed, and the counter
    of the event goes up by exactly one while every other event is left as
    it was. *)
Theorem register_creates_one_registration_and_increments
    st env id raw resp st' :
  register st env id raw = (resp, st') ->
  status resp = 201 ->
  exists r u c,
    resp = created r
    /\ eventRegistrations st' = (eventRegistrations st ++ [r])%list
    /\ EventRegistration.eventId r = id
    /\ Invariant.resolve st' raw = Some u
    /\ EventRegistration.userId r = User.id u
    /\ Invariant.count st id = Some c
    /\ Invariant.count st' id = Some (c + 1)
    /\ (forall id', id' <> id ->
        event_findUnique st' id' = event_findUnique st id').
Proof.
  intros Hr H201.
  destruct (register_201_links _ _ _ _ _ _ Hr H201)
    as (r & u & e & Hresp & Hrow & Hu & Hregs & He & _ & He' & Hother).
  exists r, u, (Event.currentCapacity e).
  unfold Invariant.count. rewrite He, He'. subst r. simpl.
  repeat split; trivial.
Qed.

(** The bodies the chains accept *)
Lemma validate_passes raw :
  validate (sanitize raw) = []
  <-> Js.trim (name raw) <> ""
      /\ isEmail (email raw) = true
      /\ Js.trim (senecaId raw) <> ""
      /\ Js.trim (program raw) <> ""
      /\ 1 <= year raw <= 4.
Proof.
  unfold Events.validate, Validator.check, Validator.notEmpty,
    Validator.isInt. simpl.
  destruct (String.eqb_spec (Js.trim (name raw)) "") as [Hn|Hn];
    destruct (isEmail (email raw));
    destruct (String.eqb_spec (Js.trim (senecaId raw)) "") as [Hs|Hs];
    destruct (String.eqb_spec (Js.trim (program raw)) "") as [Hp|Hp];
    destruct (Z.leb_spec 1 (year raw));
    destruct (Z.leb_spec (year raw) 4);
    simpl;
    (split;
     [intros Hv; try discriminate Hv; repeat split;
      (assumption || lia || reflexivity)
     |intros (Hv1 & Hv2 & Hv3 & Hv4 & Hv5);
      try reflexivity; try congruence; try discriminate; lia]).
Qed.

(** C3, as it holds on the code.  The handler checks, in this order: the
    fields of the body (400 with the messages of the chains), that the
    event exists (404 "Event not found"), that it has room (400 "Event is
    at full capacity"), which participant the body resolves to by email or
    senecaId, and that this participant has no registration for the event
    yet (400 "Already registered for this event").  Each refusal is given
    exactly when every earlier check passed and its own failed, and 201
    exactly when all passed.  The fields pass when the trimmed name,
    senecaId and program are not empty, the email is one [isEmail] accepts
    and the year is between 1 and 4.  The other conditions are read off
    the tables: the event is the first row with the key, it is full when
    its ceiling is set, not 0 and reached by the counter, the participant
    is the first user who holds the email or the trimmed senecaId, and a
    registration is a row that links this user to the event.  For a full
    event whose participant is already registered the answer is never the
    duplicate refusal: it is the capacity refusal when the fields pass the
    chains, and the 400 of the chains when they do not.  A refusal leaves
    the store as it was. *)
Theorem register_checks_in_order st env id raw :
  let b := sanitize raw in
  let resp := fst (register st env id raw) in
  let missing := forall e, In e (events st) -> Event.id e <> id in
  let found e :=
    exists before after,
      events st = (before ++ e :: after)%list
      /\ Event.id e = id
      /\ (forall x, In x before -> Event.id x <> id) in
  let full e :=
    exists m, Event.maxCapacity e = Some m
              /\ m <> 0 /\ m <= Event.currentCapacity e in
  let participant u :=
    exists before after,
      users st = (before ++ u :: after)%list
      /\ (User.email u = email raw
          \/ User.senecaId u = Js.trim (senecaId raw))
      /\ (forall x, In x before ->
          ~ (User.email x = email raw
             \/ User.senecaId x = Js.trim (senecaId raw))) in
  let registered u :=
    exists r, In r (eventRegistrations st)
              /\ EventRegistration.userId r = User.id u
              /\ EventRegistration.eventId r = id in
  (validate b = []
   <-> Js.trim (name raw) <> ""
       /\ isEmail (email raw) = true
       /\ Js.trim (senecaId raw) <> ""
       /\ Js.trim (program raw) <> ""
       /\ 1 <= year raw <= 4)
  /\ (validate b <> [] <-> resp = ValidationError (validate b))
  /\ (validate b = [] /\ missing <-> resp = NotFound)
  /\ (validate b = [] /\ (exists e, found e /\ full e)
      <-> resp = CapacityExceeded)
  /\ (validate b = []
      /\ (exists e u, found e /\ ~ full e /\ participant u /\ registered u)
      <-> resp = AlreadyRegistered)
  /\ (validate b = []
      /\ (exists e, found e /\ ~ full e
                    /\ forall u, participant u -> ~ registered u)
      <-> status resp = 201)
  /\ (forall e u,
        found e -> full e -> participant u -> registered u ->
        resp <> AlreadyRegistered
        /\ (validate b = [] -> resp = CapacityExceeded)
        /\ (validate b <> [] -> resp = ValidationError (validate b)))
  /\ (status resp = 400 \/ status resp = 404 ->
      snd (register st env id raw) = st).
Proof.
  intros b resp missing found full participant registered.
  split; [apply validate_passes|].
  assert (Hmissing : missing <-> event_findUnique st id = None)
    by (symmetry; apply event_findUnique_absent).
  assert (Hfound : forall e, found e <-> event_findUnique st id = Some e)
    by (intros e; symmetry; apply event_findUnique_first).
  assert (Hfull : forall e, full e <-> at_full_capacity e = true)
    by (intros e; symmetry; apply at_full_capacity_spec).
  assert (Hroom : forall e, ~ full e <-> at_full_capacity e = false)
    by (intros e; rewrite Hfull; apply not_true_iff_false).
  assert (Hparticipant : forall u,
             participant u <-> Invariant.resolve st raw = Some u)
    by (intros u; symmetry; apply user_findFirst_first).
  assert (Hregistered : forall u,
             registered u
             <-> exists r,
                   eventRegistration_findFirst st (User.id u) id = Some r)
    by (intros u; symmetry; apply eventRegistration_findFirst_some).
  clearbody missing found full participant registered.
  setoid_rewrite Hroom. setoid_rewrite Hregistered.
  setoid_rewrite Hparticipant. setoid_rewrite Hfull.
  setoid_rewrite Hfound. rewrite Hmissing.
  clear Hmissing Hfound Hfull Hroom Hparticipant Hregistered.
  subst resp.
  destruct (validate b) as [|m ms] eqn:Hv.
  2:{ rewrite RegisterFacts.register_invalid
        by (fold b; rewrite Hv; discriminate).
      fold b. rewrite Hv. simpl. repeat split; settle_all. }
  rewrite (RegisterFacts.register_valid _ _ _ _ _ Hv).
  destruct (event_findUnique st id) as [e|] eqn:He.
  2:{ simpl. repeat split; settle_all. }
  destruct (at_full_capacity e) eqn:Hfull.
  1:{ simpl. repeat split; settle_all. }
  destruct (Invariant.resolve st raw) as [u|] eqn:Hu.
  - destruct (eventRegistration_findFirst st (User.id u) id) as [r|] eqn:Hreg.
    + simpl. repeat split; settle_all.
    + destruct (RegisterFacts.create_registration_spec st env (User.id u)
                  id e He) as (evs & _ & ->).
      simpl. repeat split; settle_all.
  - destruct (RegisterFacts.create_registration_spec
                (snd (user_create st (new_user env (sanitize raw)))) env
                (nextUserId st) id e He) as (evs & _ & ->).
    simpl. repeat split; settle_all.
Qed.

(** C5, as it holds on the code.  A registration for an event that does
    not exist leaves
    the store as it was, whatever the body: no user and no registration is
    created.  It is answered with 404 "Event not found" when the body
    passes the field chains, and with the 400 of the chains when it does
    not: the chains run before the event is looked up. *)
Theorem register_missing_event st env id raw :
  event_findUnique st id = None ->
  snd (register st env id raw) = st
  /\ (validate (sanitize raw) = [] ->
      fst (register st env id raw) = NotFound)
  /\ (validate (sanitize raw) <> [] ->
      fst (register st env id raw)
      = ValidationError (validate (sanitize raw))).
Proof.
  intros He. repeat split.
  - destruct (validate (sanitize raw)) eqn:Hv.
    + now rewrite (RegisterFacts.register_valid _ _ _ _ _ Hv), He.
    + rewrite RegisterFacts.register_invalid by congruence. reflexivity.
  - intros Hv. now rewrite (RegisterFacts.register_valid _ _ _ _ _ Hv), He.
  - intros Hv. now rewrite RegisterFacts.register_invalid.
Qed.

(** In a well-formed store no registration references the key the next
    user will get. *)
Lemma next_user_has_no_rows st id :
  Invariant.well_formed st = true ->
  filter (user_and_event (nextUserId st) id) (eventRegistrations st) = [].
Proof.
  unfold Invariant.well_formed. intros [Hkeys Hrefs]%andb_prop.
  rewrite forallb_forall in Hkeys, Hrefs.
  induction (eventRegistrations st) as [|x l IH]; [reflexivity|].
  simpl. rewrite IH by (intros y Hy; apply Hrefs; now right).
  assert (Hx : Invariant.references_resolve st x = true)
    by (apply Hrefs; now left).
  unfold Invariant.references_resolve in Hx.
  apply andb_prop in Hx as [(u & Hin & Hid)%existsb_exists _].
  apply Hkeys in Hin. unfold Invariant.user_key_issued in Hin.
  unfold has_user_id in Hid.
  apply N.ltb_lt in Hin. apply N.eqb_eq in Hid.
  unfold user_and_event.
  destruct (N.eqb_spec (EventRegistration.userId x) (nextUserId st));
    [lia|reflexivity].
Qed.

Lemma next_user_unknown st :
  Invariant.well_formed st = true ->
  find (has_user_id (nextUserId st)) (users st) = None.
Proof.
  unfold Invariant.well_formed. intros [Hkeys _]%andb_prop.
  rewrite forallb_forall in Hkeys.
  destruct (find _ _) as [u|] eqn:Hu; [|reflexivity].
  apply find_some in Hu as [Hin Hid%N.eqb_eq].
  apply Hkeys in Hin. apply N.ltb_lt in Hin. lia.
Qed.

(** After a 201 from a well-formed store the new row is the only row of
    its user for the event. *)
Lemma register_201_single_row st env id raw r st' :
  Invariant.well_formed st = true ->
  register st env id raw = (created r, st') ->
  filter (user_and_event (EventRegistration.userId r) id)
    (eventRegistrations st') = [r].
Proof.
  intros Hwf Hr.
  destruct (RegisterFacts.register_201 _ _ _ _ _ _ _ Hr eq_refl)
    as (_ & e & evs & _ & _ & _
        & [(u & _ & Hreg & [= ->] & ->)|(_ & [= ->] & ->)]);
    simpl; rewrite filter_app; simpl;
    unfold user_and_event at 2; simpl; rewrite !N.eqb_refl; simpl.
  - unfold eventRegistration_findFirst in Hreg.
    now rewrite (PrismaFacts.find_none_filter _ _ Hreg).
  - now rewrite next_user_has_no_rows.
Qed.

(** C6, as it holds on the code.  After a registration that was answered
    with 201, a
    second request for the same event whose body passes the field chains
    and resolves to the same participant -- as a body with the same email
    and the same senecaId does -- is refused and leaves the store as it
    was: no registration and no user is created and the counter keeps its
    value.  The refusal is "Already registered for this event" when the
    event still has room, and "Event is at full capacity" when the first
    registration took the last seat.  From a well-formed store the
    participant then holds exactly one registration for the event. *)
Theorem second_registration_refused st env id raw resp st1 env' raw' :
  register st env id raw = (resp, st1) ->
  status resp = 201 ->
  validate (sanitize raw') = [] ->
  Invariant.resolve st1 raw' = Invariant.resolve st1 raw ->
  register st1 env' id raw'
  = (if Invariant.full st1 id then CapacityExceeded else AlreadyRegistered,
     st1)
  /\ (Invariant.well_formed st = true ->
      forall r, resp = created r ->
      filter (user_and_event (EventRegistration.userId r) id)
        (eventRegistrations (snd (register st1 env' id raw'))) = [r]).
Proof.
  intros Hr H201 Hv Hsame.
  assert (H2 : register st1 env' id raw'
               = (if Invariant.full st1 id
                  then CapacityExceeded else AlreadyRegistered, st1)).
  { destruct (register_201_links _ _ _ _ _ _ Hr H201)
      as (r & u & e & _ & Hrow & Hu & Hregs & _ & _ & He' & _).
    rewrite (RegisterFacts.register_valid _ _ _ _ _ Hv).
    unfold Invariant.full. rewrite He'.
    destruct (at_full_capacity (increment_currentCapacity e));
      [reflexivity|].
    rewrite Hsame, Hu.
    assert (Hlast : user_and_event (User.id u) id r = true)
      by (subst r; unfold user_and_event; simpl; now rewrite !N.eqb_refl).
    unfold eventRegistration_findFirst. rewrite Hregs.
    destruct (find (user_and_event (User.id u) id) (eventRegistrations st))
      eqn:Hold.
    - now rewrite (PrismaFacts.find_app_some _ _ _ _ Hold).
    - rewrite (PrismaFacts.find_app_none _ _ _ Hold). simpl.
      now rewrite Hlast. }
  split; [exact H2|].
  intros Hwf r ->. rewrite H2. simpl.
  now apply register_201_single_row with (env := env) (raw := raw) (st := st).
Qed.

Lemma UserSelect_eqb_refl a : Invariant.UserSelect_eqb a a = true.
Proof.
  unfold Invariant.UserSelect_eqb.
  now rewrite !String.eqb_refl, Z.eqb_refl.
Qed.

Lemma UserSelect_eqb_email a b :
  Invariant.UserSelect_eqb a b = true -> s_email a = s_email b.
Proof.
  unfold Invariant.UserSelect_eqb.
  intros [[[_ H]%andb_prop _]%andb_prop _]%andb_prop.
  now apply String.eqb_eq.
Qed.

Lemma rows_of_user_and_event userId id l :
  filter (fun x => N.eqb (EventRegistration.userId x) userId)
    (filter (of_event id) l)
  = filter (user_and_event userId id) l.
Proof.
  induction l as [|x l IH]; simpl; [reflexivity|].
  unfold user_and_event at 1, of_event at 1.
  destruct (N.eqb (EventRegistration.eventId x) id); simpl.
  - rewrite IH. now rewrite andb_true_r.
  - now rewrite andb_false_r.
Qed.

(** The listing of an event shows exactly the rows of a user that the
    table holds for the user and the event. *)
Lemma listing_of_user st id userId r :
  filter (user_and_event userId id) (eventRegistrations st) = [r] ->
  filter (Invariant.entry_of_user userId) (eventRegistration_findMany st id)
  = [include_user st r].
Proof.
  intros Hone. unfold eventRegistration_findMany.
  rewrite PrismaFacts.filter_of_map.
  change (fun x => Invariant.entry_of_user userId (include_user st x))
    with (fun x => N.eqb (EventRegistration.userId x) userId).
  assert (Hrows :
            filter (fun x => N.eqb (EventRegistration.userId x) userId)
              (orderBy_createdAt_asc
                 (filter (of_event id) (eventRegistrations st))) = [r]).
  { apply Permutation_length_1_inv.
    rewrite <- Hone, <- rows_of_user_and_event.
    apply PrismaFacts.filter_permutation. symmetry.
    apply PrismaFacts.orderBy_createdAt_asc_perm. }
  now rewrite Hrows.
Qed.

(** C7, as it holds on the code.  After a registration answered with 201
    from a
    well-formed store, the listing of the event that an administrator gets
    holds exactly one entry of the participant the body resolved to.  When
    the body resolved to no known participant, that entry shows the
    submitted info (the first word of the trimmed name as first name, the
    rest as last name, the email, the trimmed program and the year) and no
    other entry of the listing does. *)
Theorem listing_after_register st env id raw resp st' user :
  Invariant.well_formed st = true ->
  register st env id raw = (resp, st') ->
  status resp = 201 ->
  req_user_role user = ADMIN ->
  exists r entries,
    resp = created r
    /\ listRegistrations st' user id = json 200 (RegistrationList entries)
    /\ filter (Invariant.entry_of_user (EventRegistration.userId r)) entries
       = [include_user st' r]
    /\ (Invariant.resolve st raw = None ->
        Prisma.user (include_user st' r) = Some (Invariant.submitted raw)
        /\ filter (Invariant.matches raw) entries = [include_user st' r]).
Proof.
  intros Hwf Hr H201 Hadmin.
  destruct (register_201_links _ _ _ _ _ _ Hr H201)
    as (r & u & e & -> & Hrow & _).
  exists r, (eventRegistration_findMany st' id).
  assert (Hone : filter (Invariant.entry_of_user (EventRegistration.userId r))
                   (eventRegistration_findMany st' id)
                 = [include_user st' r]).
  { apply listing_of_user.
    now apply register_201_single_row with (1 := Hwf) (2 := Hr). }
  split; [reflexivity|].
  split; [unfold listRegistrations; now rewrite Hadmin|].
  split; [exact Hone|].
  intros Hnew.
  destruct (RegisterFacts.register_201 _ _ _ _ _ _ _ Hr H201)
    as (_ & _ & evs & _ & _ & _ & [(u' & Hu' & _)|(_ & Hresp & Hst')]);
    [congruence|].
  injection Hresp as Hr'. clear Hrow.
  assert (Hshown : Prisma.user (include_user st' r)
                   = Some (Invariant.submitted raw)).
  { subst r st'. unfold include_user. simpl.
    rewrite PrismaFacts.find_app_none by now apply next_user_unknown.
    simpl. unfold has_user_id. simpl. now rewrite N.eqb_refl. }
  split; [exact Hshown|].
  rewrite <- PrismaFacts.filter_narrow
    with (p := Invariant.entry_of_user (EventRegistration.userId r)).
  - rewrite Hone. simpl. unfold Invariant.matches. rewrite Hshown.
    now rewrite UserSelect_eqb_refl.
  - intros entry (x & <- & _)%in_map_iff Hm.
    unfold Invariant.matches, include_user in Hm. simpl in Hm.
    destruct (find (has_user_id (EventRegistration.userId x)) (users st'))
      as [u0|] eqn:Hu0; [|discriminate].
    simpl in Hm. apply UserSelect_eqb_email in Hm. simpl in Hm.
    apply find_some in Hu0 as [Hin Hid].
    unfold Invariant.entry_of_user. simpl.
    subst st' r. simpl in *.
    apply in_app_or in Hin as [Hold|[<-|[]]].
    + unfold Invariant.resolve, user_findFirst in Hnew.
      apply find_none with (x := u0) in Hnew; [|exact Hold].
      unfold email_or_senecaId in Hnew. simpl in Hnew.
      rewrite Hm, String.eqb_refl in Hnew. discriminate.
    + unfold has_user_id in Hid. simpl in Hid.
      now rewrite N.eqb_sym.
Qed.

(** *** A run of registrations by newcomers *)

Variable isISO8601 : string -> bool.

Local Abbreviation register_all :=
  (Service.register_all isEmail isISO8601).

Lemma register_all_cons st id c calls :
  register_all st id (c :: calls)
  = (fst (register st (fst c) id (snd c))
       :: fst (register_all (snd (register st (fst c) id (snd c))) id calls),
     snd (register_all (snd (register st (fst c) id (snd c))) id calls)).
Proof.
  unfold Service.register_all. simpl.
  destruct (register st (fst c) id (snd c)) as [r st1]. simpl.
  now destruct (Service.exec_all isEmail isISO8601 st1 _).
Qed.

Lemma passes_chains_valid raw :
  Invariant.passes_chains isEmail raw = true ->
  validate (sanitize raw) = [].
Proof.
  unfold Invariant.passes_chains.
  now destruct (validate (sanitize raw)).
Qed.

(** The other newcomers stay unknown when one of them becomes a user. *)
Lemma newcomers_after_one st st1 env b bs :
  users st1
  = (users st ++ [fst (user_create st (new_user env (sanitize b)))])%list ->
  forallb (Invariant.distinct_keys b) bs = true ->
  Invariant.newcomers st bs = true ->
  Invariant.newcomers st1 bs = true.
Proof.
  intros Husers.
  induction bs as [|b' bs IH]; simpl; [reflexivity|].
  intros [Hd Hds]%andb_prop [[Hb' Hpair]%andb_prop Hrest]%andb_prop.
  rewrite Hpair, IH by assumption.
  unfold Invariant.resolve, user_findFirst in *. rewrite Husers.
  destruct (find _ (users st)) eqn:Hold; [discriminate|].
  rewrite (PrismaFacts.find_app_none _ _ _ Hold). simpl.
  unfold Invariant.distinct_keys in Hd.
  apply andb_prop in Hd as [He Hs].
  unfold email_or_senecaId. simpl.
  apply negb_true_iff in He, Hs. simpl in Hs. now rewrite He, Hs.
Qed.

Lemma newcomers_firstn st k bs :
  Invariant.newcomers st bs = true ->
  Invariant.newcomers st (firstn k bs) = true.
Proof.
  revert k. induction bs as [|b bs IH]; intros [|k]; simpl; trivial.
  intros [[Hb Hd]%andb_prop Hrest]%andb_prop.
  rewrite Hb, IH by assumption. simpl.
  now rewrite PrismaFacts.forallb_firstn.
Qed.

(** From an event with room for [C - c] more, the first [C - c] newcomers
    are registered and every later one is told that the event is full. *)
Lemma register_all_newcomers id C calls :
  C <> 0 ->
  forall st e,
    event_findUnique st id = Some e ->
    Event.maxCapacity e = Some C ->
    Event.currentCapacity e <= C ->
    forallb (fun c => Invariant.passes_chains isEmail (snd c)) calls = true ->
    Invariant.newcomers st (map snd calls) = true ->
    exists n e',
      Z.of_nat n = Z.min (C - Event.currentCapacity e)
                     (Z.of_nat (List.length calls))
      /\ event_findUnique (snd (register_all st id calls)) id = Some e'
      /\ Event.maxCapacity e' = Some C
      /\ Event.currentCapacity e' = Event.currentCapacity e + Z.of_nat n
      /\ map status (firstn n (fst (register_all st id calls)))
         = repeat 201 n
      /\ skipn n (fst (register_all st id calls))
         = repeat CapacityExceeded (List.length calls - n).
Proof.
  intros HC. induction calls as [|[env b] calls IH]; intros st e He Hmax Hle.
  - intros _ _. exists 0%nat, e. simpl. repeat split; trivial; lia.
  - simpl forallb. simpl map.
    intros [Hv Hvs]%andb_prop Hnew.
    simpl in Hnew. apply andb_prop in Hnew as [[Hb Hd]%andb_prop Hrest].
    apply passes_chains_valid in Hv.
    destruct (Invariant.resolve st b) eqn:Hres; [discriminate|].
    rewrite register_all_cons. simpl fst. simpl snd.
    rewrite (RegisterFacts.register_valid _ _ _ _ _ Hv), He, Hres.
    unfold at_full_capacity. rewrite Hmax.
    apply Z.eqb_neq in HC as HC'. rewrite HC'. simpl negb. simpl andb.
    destruct (Z.geb_spec (Event.currentCapacity e) C) as [Hfull|Hroom].
    + simpl fst. simpl snd.
      destruct (IH st e He Hmax Hle Hvs Hrest)
        as (n & e' & Hn & He' & Hmax' & Hcur & Hok & Hfail).
      assert (n = 0)%nat as -> by lia.
      exists 0%nat, e'. simpl List.length.
      repeat split; trivial; try lia.
      simpl in Hfail |- *. rewrite Hfail.
      now rewrite Nat.sub_0_r.
    + destruct (RegisterFacts.create_registration_spec
                  (snd (user_create st (new_user env (sanitize b)))) env
                  (nextUserId st) id e He) as (evs & Hevs & ->).
      simpl in Hevs. simpl fst. simpl snd.
      match goal with
      | |- context [register_all ?s id calls] => set (st1 := s)
      end.
      assert (He1 : event_findUnique st1 id
                    = Some (increment_currentCapacity e)).
      { unfold event_findUnique, st1. simpl.
        rewrite (PrismaFacts.update_first_find _ _ _ _
                   (PrismaFacts.has_event_id_increment id) Hevs).
        unfold event_findUnique in He. simpl in He. now rewrite He. }
      assert (Hnew1 : Invariant.newcomers st1 (map snd calls) = true).
      { apply newcomers_after_one with (st := st) (env := env) (b := b);
          trivial. }
      destruct (IH st1 (increment_currentCapacity e) He1 Hmax
                  ltac:(simpl; lia) Hvs Hnew1)
        as (n & e' & Hn & He' & Hmax' & Hcur & Hok & Hfail).
      simpl in Hn, Hcur.
      exists (S n), e'. simpl List.length.
      repeat split; trivial; try lia.
      simpl. now rewrite Hok.
Qed.

(** *** Invariants of the store under sequential requests *)

Local Abbreviation exec := (Service.exec isEmail isISO8601).
Local Abbreviation exec_all := (Service.exec_all isEmail isISO8601).

Lemma room_after_increment e :
  at_full_capacity e = false ->
  Invariant.within_nonzero_ceiling e = true ->
  Invariant.within_nonzero_ceiling (increment_currentCapacity e) = true.
Proof.
  unfold at_full_capacity, Invariant.within_nonzero_ceiling. simpl.
  destruct (Event.maxCapacity e) as [m|]; [|trivial].
  destruct (m =? 0); simpl; [trivial|].
  rewrite Z.geb_leb. intros Hroom%Z.leb_gt _. apply Z.leb_le. lia.
Qed.

Lemma apply_data_keeps_ceiling d e :
  d_maxCapacity d = None ->
  d_currentCapacity d = None ->
  Invariant.within_nonzero_ceiling (apply_data d e)
  = Invariant.within_nonzero_ceiling e.
Proof.
  unfold Invariant.within_nonzero_ceiling. simpl. now intros -> ->.
Qed.

Lemma exec_keeps_nonzero_ceilings st op :
  Invariant.leaves_capacity_columns op = true ->
  Invariant.nonzero_ceilings_respected st = true ->
  Invariant.nonzero_ceilings_respected (snd (exec st op)) = true.
Proof.
  destruct op as [env id raw|user id|user id raw]; simpl; trivial.
  - intros _ Hinv.
    destruct (register st env id raw) as [resp st'] eqn:Hr. simpl.
    destruct (Z.eq_dec (status resp) 201) as [H201|Hn].
    + destruct (RegisterFacts.register_201 _ _ _ _ _ _ _ Hr H201)
        as (_ & e & evs & He & Hfull & Hevs & Hcase).
      assert (Hst' : events st' = evs)
        by (destruct Hcase as [(u & _ & _ & _ & ->)|(_ & _ & ->)];
            reflexivity).
      unfold Invariant.nonzero_ceilings_respected. rewrite Hst'.
      apply PrismaFacts.update_first_forallb with (2 := Hevs) (3 := Hinv).
      intros x Hx. unfold event_findUnique in He.
      assert (x = e) as -> by congruence.
      now apply room_after_increment.
    + now destruct (RegisterFacts.register_refused _ _ _ _ _ _ _ Hr Hn)
        as [-> _].
  - intros Hcols Hinv. unfold updateEvent.
    destruct (negb _); [exact Hinv|].
    destruct (validate_update _ _); [|exact Hinv].
    unfold event_update.
    destruct (update_first _ _ _) as [evs|] eqn:Hevs; [|exact Hinv].
    destruct (find _ evs); [|exact Hinv].
    simpl. unfold Invariant.nonzero_ceilings_respected. simpl.
    apply PrismaFacts.update_first_forallb with (2 := Hevs) (3 := Hinv).
    intros x _ Hx. rewrite apply_data_keeps_ceiling; trivial; simpl;
      now destruct (d_maxCapacity raw), (d_currentCapacity raw).
Qed.

(** C2, as it holds on the code.  For every event whose ceiling is set to
    a nonzero
    value, [currentCapacity <= maxCapacity] is preserved by every sequence
    of requests run one at a time that consists of registrations, listings
    and administrative updates whose body does not write [maxCapacity] or
    [currentCapacity]; a registration for an event whose counter has
    reached such a ceiling is refused with "Event is at full capacity"
    and changes nothing. *)
Theorem nonzero_ceilings_preserved st ops :
  forallb Invariant.leaves_capacity_columns ops = true ->
  Invariant.nonzero_ceilings_respected st = true ->
  Invariant.nonzero_ceilings_respected (snd (exec_all st ops)) = true
  /\ (forall env id raw e m,
        event_findUnique st id = Some e ->
        Event.maxCapacity e = Some m ->
        m <> 0 ->
        m <= Event.currentCapacity e ->
        validate (sanitize raw) = [] ->
        register st env id raw = (CapacityExceeded, st)).
Proof.
  intros Hops Hinv. split.
  - revert st Hinv. induction ops as [|op ops IH]; intros st Hinv;
      simpl; [exact Hinv|].
    simpl in Hops. apply andb_prop in Hops as [Hop Hops].
    pose proof (exec_keeps_nonzero_ceilings st op Hop Hinv) as H1.
    destruct (exec st op) as [r st1]. simpl in H1.
    specialize (IH Hops st1 H1).
    now destruct (exec_all st1 ops).
  - intros env id raw e m He Hmax Hm Hfull Hv.
    rewrite (RegisterFacts.register_valid _ _ _ _ _ Hv), He.
    unfold at_full_capacity. rewrite Hmax.
    apply Z.eqb_neq in Hm. rewrite Hm. simpl.
    rewrite Z.geb_leb. apply Z.leb_le in Hfull. now rewrite Hfull.
Qed.

(** One request leaves an event with room under its ceiling, and never
    lowers its counter. *)
Lemma exec_keeps_event_under_ceiling st op id e C :
  Invariant.leaves_capacity_columns op = true ->
  event_findUnique st id = Some e ->
  Event.maxCapacity e = Some C ->
  C <> 0 ->
  Event.currentCapacity e <= C ->
  exists e',
    event_findUnique (snd (exec st op)) id = Some e'
    /\ Event.maxCapacity e' = Some C
    /\ Event.currentCapacity e <= Event.currentCapacity e' <= C.
Proof.
  intros Hop He Hmax HC Hle.
  destruct op as [env id' raw|user id'|user id' raw]; simpl.
  - destruct (register st env id' raw) as [resp st'] eqn:Hr. simpl.
    destruct (Z.eq_dec (status resp) 201) as [H201|Hn].
    2:{ destruct (RegisterFacts.register_refused _ _ _ _ _ _ _ Hr Hn)
          as [-> _].
        exists e. repeat split; trivial; lia. }
    destruct (register_201_links _ _ _ _ _ _ Hr H201)
      as (_ & _ & e0 & _ & _ & _ & _ & He0 & Hroom & He0' & Hother).
    destruct (N.eq_dec id id') as [<-|Hne].
    + assert (e0 = e) as -> by congruence.
      exists (increment_currentCapacity e). simpl.
      repeat split; trivial; try lia.
      unfold at_full_capacity in Hroom. rewrite Hmax in Hroom.
      apply Z.eqb_neq in HC. rewrite HC in Hroom. simpl in Hroom.
      rewrite Z.geb_leb in Hroom. apply Z.leb_gt in Hroom. lia.
    + rewrite (Hother id Hne). exists e. repeat split; trivial; lia.
  - exists e. repeat split; trivial; lia.
  - simpl in Hop. unfold updateEvent.
    destruct (negb _); [exists e; repeat split; trivial; lia|].
    destruct (validate_update _ _);
      [|exists e; repeat split; trivial; lia].
    unfold event_update.
    destruct (update_first _ _ _) as [evs|] eqn:Hevs;
      [|exists e; repeat split; trivial; lia].
    destruct (find _ evs) eqn:Hfound;
      [|exists e; repeat split; trivial; lia].
    simpl. unfold event_findUnique in *. simpl.
    destruct (d_maxCapacity raw) eqn:Hdm; [discriminate|].
    destruct (d_currentCapacity raw) eqn:Hdc; [discriminate|].
    destruct (N.eq_dec id id') as [<-|Hne].
    + rewrite (PrismaFacts.update_first_find (has_event_id id)
                 (apply_data (sanitize_update raw)) _ _
                 (fun x => eq_refl) Hevs), He. simpl.
      eexists. split; [reflexivity|]. simpl.
      rewrite Hdm, Hdc. simpl. repeat split; trivial; lia.
    + rewrite (PrismaFacts.update_first_find_other (has_event_id id')
                 (has_event_id id) (apply_data (sanitize_update raw))
                 (events st) evs (fun x => eq_refl)); trivial.
      * exists e. repeat split; trivial; lia.
      * unfold has_event_id. intros x Hx%N.eqb_eq.
        apply N.eqb_neq. congruence.
Qed.

(** C1, as it holds on the code.  For an event with a nonzero ceiling [C]
    whose counter is at most [C], when the requests run one at a time --
    each completes before the next one starts -- the counter never exceeds
    [C], whatever the requests are (registrations for any event, listings,
    updates that do not write the capacity columns).  When the requests are
    registrations for the event that pass the field chains and come from
    pairwise distinct participants the store does not know, the first
    [C - currentCapacity] of them are answered with 201 and every later
    one with 400 "Event is at full capacity", and after [k] of them the
    counter is the smaller of [C] and its start value plus [k].  (From a
    counter of 0 and more than [C] such requests: exactly [C] succeed.) *)
Theorem sequential_registrations_never_overbook st id e C :
  event_findUnique st id = Some e ->
  Event.maxCapacity e = Some C ->
  C <> 0 ->
  Event.currentCapacity e <= C ->
  (forall ops,
      forallb Invariant.leaves_capacity_columns ops = true ->
      exists c,
        Invariant.count (snd (exec_all st ops)) id = Some c
        /\ Event.currentCapacity e <= c <= C)
  /\ (forall calls,
        forallb (fun c => Invariant.passes_chains isEmail (snd c)) calls
        = true ->
        Invariant.newcomers st (map snd calls) = true ->
        let n := Z.to_nat (Z.min (C - Event.currentCapacity e)
                             (Z.of_nat (List.length calls))) in
        map status (firstn n (fst (register_all st id calls))) = repeat 201 n
        /\ skipn n (fst (register_all st id calls))
           = repeat CapacityExceeded (List.length calls - n)
        /\ (forall k, (k <= List.length calls)%nat ->
            Invariant.count (snd (register_all st id (firstn k calls))) id
            = Some (Z.min C (Event.currentCapacity e + Z.of_nat k)))).
Proof.
  intros He Hmax HC Hle. split.
  - intros ops. revert st e He Hmax Hle.
    induction ops as [|op ops IH]; intros st e He Hmax Hle Hops; simpl.
    + exists (Event.currentCapacity e). unfold Invariant.count.
      rewrite He. simpl. split; [reflexivity|lia].
    + simpl in Hops. apply andb_prop in Hops as [Hop Hops].
      destruct (exec_keeps_event_under_ceiling st op id e C Hop He Hmax
                  HC Hle) as (e1 & He1 & Hmax1 & Hle1).
      destruct (exec st op) as [r st1]. simpl in He1.
      destruct (IH st1 e1 He1 Hmax1 ltac:(lia) Hops) as (c & Hc & Hle2).
      destruct (exec_all st1 ops) as [rs st2]. simpl in Hc |- *.
      exists c. split; [exact Hc|lia].
  - intros calls Hv Hnew n.
    destruct (register_all_newcomers id C calls HC st e He Hmax Hle Hv Hnew)
      as (n0 & e' & Hn & _ & _ & _ & Hok & Hfail).
    assert (n = n0) as -> by (unfold n; rewrite <- Hn; apply Nat2Z.id).
    repeat split; trivial.
    intros k Hk.
    destruct (register_all_newcomers id C (firstn k calls) HC st e He Hmax
                Hle) as (nk & ek & Hnk & Hek & _ & Hcur & _).
    + now apply PrismaFacts.forallb_firstn.
    + rewrite <- firstn_map. now apply newcomers_firstn.
    + unfold Invariant.count. rewrite Hek. simpl. f_equal.
      rewrite length_firstn in Hnk. lia.
Qed.

(** Well-formedness is an invariant of every request. *)
Lemma well_formed_intro st :
  (forall u, In u (users st) -> (User.id u < nextUserId st)%N) ->
  (forall r, In r (eventRegistrations st) ->
     existsb (has_user_id (EventRegistration.userId r)) (users st) = true
     /\ existsb (has_event_id (EventRegistration.eventId r)) (events st)
        = true) ->
  Invariant.well_formed st = true.
Proof.
  intros Hkeys Hrefs. unfold Invariant.well_formed.
  apply andb_true_intro. split; apply forallb_forall.
  - intros u Hu. now apply N.ltb_lt, Hkeys.
  - intros r Hr. unfold Invariant.references_resolve.
    destruct (Hrefs r Hr) as [-> ->]. reflexivity.
Qed.

Lemma well_formed_elim st :
  Invariant.well_formed st = true ->
  (forall u, In u (users st) -> (User.id u < nextUserId st)%N)
  /\ (forall r, In r (eventRegistrations st) ->
       existsb (has_user_id (EventRegistration.userId r)) (users st) = true
       /\ existsb (has_event_id (EventRegistration.eventId r)) (events st)
          = true).
Proof.
  unfold Invariant.well_formed. intros [Hkeys Hrefs]%andb_prop.
  rewrite forallb_forall in Hkeys, Hrefs. split.
  - intros u Hu. now apply N.ltb_lt, Hkeys.
  - intros r Hr. now apply andb_prop, Hrefs.
Qed.

Lemma register_keeps_well_formed st env id raw :
  Invariant.well_formed st = true ->
  Invariant.well_formed (snd (register st env id raw)) = true.
Proof.
  intros Hwf.
  destruct (register st env id raw) as [resp st'] eqn:Hr. simpl.
  destruct (Z.eq_dec (status resp) 201) as [H201|Hn].
  2:{ now destruct (RegisterFacts.register_refused _ _ _ _ _ _ _ Hr Hn)
        as [-> _]. }
  destruct (well_formed_elim st Hwf) as [Hkeys Hrefs].
  destruct (RegisterFacts.register_201 _ _ _ _ _ _ _ Hr H201)
    as (_ & e & evs & He & _ & Hevs & Hcase).
  assert (Hev : forall i, existsb (has_event_id i) evs
                          = existsb (has_event_id i) (events st))
    by (intros i; now apply PrismaFacts.update_first_existsb
                    with (2 := Hevs)).
  assert (Hid : existsb (has_event_id id) (events st) = true).
  { apply find_some in He as [Hin Hp].
    apply existsb_exists. eauto. }
  destruct Hcase as [(u & Hu & _ & _ & ->)|(_ & _ & ->)];
    apply well_formed_intro; simpl.
  - exact Hkeys.
  - intros r [Hr'| [<-|[]]]%in_app_or; rewrite Hev.
    + now apply Hrefs.
    + simpl. split; [|exact Hid].
      apply find_some in Hu as [Hin Hp].
      apply existsb_exists. exists u. split; [exact Hin|].
      unfold has_user_id. apply N.eqb_refl.
  - intros u [Hu| [<-|[]]]%in_app_or.
    + apply Hkeys in Hu. lia.
    + simpl. lia.
  - intros r [Hr'| [<-|[]]]%in_app_or; rewrite Hev, existsb_app.
    + destruct (Hrefs r Hr') as [-> ->]. auto.
    + simpl. unfold has_user_id at 2. simpl.
      rewrite N.eqb_refl, orb_true_r. auto.
Qed.

Lemma exec_keeps_well_formed st op :
  Invariant.well_formed st = true ->
  Invariant.well_formed (snd (exec st op)) = true.
Proof.
  destruct op as [env id raw|user id|user id raw]; simpl; trivial.
  - apply register_keeps_well_formed.
  - intros Hwf. unfold updateEvent.
    destruct (negb _); [exact Hwf|].
    destruct (validate_update _ _); [|exact Hwf].
    unfold event_update.
    destruct (update_first _ _ _) as [evs|] eqn:Hevs; [|exact Hwf].
    destruct (find _ evs); [|exact Hwf].
    simpl. destruct (well_formed_elim st Hwf) as [Hkeys Hrefs].
    apply well_formed_intro; simpl; [exact Hkeys|].
    intros r Hr'.
    rewrite (PrismaFacts.update_first_existsb _
               (has_event_id (EventRegistration.eventId r))
               (apply_data (sanitize_update raw)) _ _
               (fun x => eq_refl) Hevs).
    now apply Hrefs.
Qed.

End Sequential.

End Registration.

(** ** The listing of an event *)

Module Listing.

Import Prisma Events.

(** C8. [GET /:id/registrations] answers a caller whose role is not
    [ADMIN] with 403 "Admin access required" whatever the store holds (it
    is not consulted); it answers an administrator with 200 and the
    registrations of the event, each with its user, ordered by creation
    time, earliest first.  The registrations of the event are the stored
    rows whose [eventId] is the key asked for: every listed row is such a
    row, every such row is listed, as often as it is stored, and no row
    of another event is.  The user shown with a row is the user whose key
    the row carries, with the five selected columns. *)
Theorem listRegistrations_admin_only_ordered st user id :
  match req_user_role user with
  | ADMIN =>
      exists rows,
        listRegistrations st user id
        = json 200 (RegistrationList (map (include_user st) rows))
        /\ map registration (map (include_user st) rows) = rows
        /\ (forall r,
              In r rows
              <-> In r (eventRegistrations st)
                  /\ EventRegistration.eventId r = id)
        /\ Permutation rows
             (filter (fun r => N.eqb (EventRegistration.eventId r) id)
                (eventRegistrations st))
        /\ StronglySorted
             (fun a b => EventRegistration.createdAt a
                         <= EventRegistration.createdAt b) rows
        /\ (forall r u before after,
              users st = (before ++ u :: after)%list ->
              User.id u = EventRegistration.userId r ->
              (forall x, In x before ->
                         User.id x <> EventRegistration.userId r) ->
              Prisma.user (include_user st r)
              = Some (mkUserSelect (User.firstName u) (User.lastName u)
                        (User.email u) (User.program u) (User.year u)))
  | _ =>
      forall st', listRegistrations st' user id = AuthorizationError
  end.
Proof.
  unfold listRegistrations.
  destruct (req_user_role user); simpl; try reflexivity.
  exists (orderBy_createdAt_asc
            (filter (of_event id) (eventRegistrations st))).
  assert (Hperm : Permutation
                    (orderBy_createdAt_asc
                       (filter (of_event id) (eventRegistrations st)))
                    (filter (fun r => N.eqb (EventRegistration.eventId r) id)
                       (eventRegistrations st)))
    by apply PrismaFacts.orderBy_createdAt_asc_perm.
  split; [reflexivity|]. split; [|split; [|split; [|split]]].
  - rewrite map_map. simpl. apply map_id.
  - intros r. split.
    + intros Hr. apply (Permutation_in _ Hperm) in Hr.
      apply filter_In in Hr as [Hin He].
      split; [exact Hin|now apply N.eqb_eq].
    + intros [Hin He]. apply (Permutation_in _ (Permutation_sym Hperm)).
      apply filter_In. split; [exact Hin|now apply N.eqb_eq].
  - exact Hperm.
  - apply PrismaFacts.orderBy_createdAt_asc_sorted.
  - intros r u before after Husers Hu Hbefore. unfold include_user. simpl.
    assert (Hfind : find (has_user_id (EventRegistration.userId r)) (users st)
                    = Some u).
    { apply Registration.find_first. exists before, after.
      split; [exact Husers|]. unfold has_user_id.
      split; [now apply N.eqb_eq|].
      intros x Hx. apply N.eqb_neq. now apply Hbefore. }
    now rewrite Hfind.
Qed.

(** C10. The listing does not look the event up: for an identifier that
    references no event, an administrator is answered with 200 and a list,
    never with a 404; the list is empty in a well-formed store, where no
    registration references a missing event. *)
Theorem listRegistrations_of_missing_event st user id :
  event_findUnique st id = None ->
  req_user_role user = ADMIN ->
  exists entries,
    listRegistrations st user id = json 200 (RegistrationList entries)
    /\ (Invariant.well_formed st = true -> entries = []).
Proof.
  intros He Hadmin. exists (eventRegistration_findMany st id).
  unfold listRegistrations. rewrite Hadmin. simpl.
  split; [reflexivity|]. intros Hwf.
  unfold eventRegistration_findMany.
  rewrite PrismaFacts.filter_none; [reflexivity|].
  intros r Hr.
  destruct (Registration.well_formed_elim st Hwf) as [_ Hrefs].
  destruct (Hrefs r Hr) as [_ Hev].
  unfold of_event.
  destruct (N.eqb_spec (EventRegistration.eventId r) id) as [Heq|];
    [|reflexivity].
  rewrite Heq in Hev.
  apply PrismaFacts.find_none_existsb in He. congruence.
Qed.

End Listing.

(** ** The contact form *)

Module ContactForm.

Import Prisma Contact.

(** C9. A submission that passes the field chains is stored and answered
    with 201 and the key of the stored message, whether the mail transport
    delivers the notification or rejects it: the answer and the store are
    the same in both cases, the stored message stays, and a rejection only
    leaves a line on the error console. *)
Theorem notification_failure_is_not_surfaced isEmail st raw :
  validate isEmail (sanitize raw) = [] ->
  let record :=
    ContactMessage.mk (nextMessageId st) (name (sanitize raw))
      (email (sanitize raw)) (subject (sanitize raw))
      (message (sanitize raw)) in
  forall sendMail,
    fst (fst (submit isEmail sendMail st raw))
    = json 201 (Submitted "Contact form submitted successfully"
                  (ContactMessage.id record))
    /\ contactMessages (snd (fst (submit isEmail sendMail st raw)))
       = (contactMessages st ++ [record])%list
    /\ snd (submit isEmail sendMail st raw)
       = (if sendMail (notification (sanitize raw)) then []
          else ["Failed to send email notification:"]).
Proof.
  intros Hv record sendMail. unfold submit. rewrite Hv. simpl.
  now destruct (sendMail _).
Qed.

End ContactForm.

(** ** Requests that interleave *)

Module Interleaving.

Import Prisma Events Concurrent.

(** A request that runs alone through its five store calls is the
    handler. *)
Lemma steps_alone isEmail env st id raw :
  steps 5 env st (start isEmail id raw)
  = (Done (fst (register isEmail st env id raw)),
     snd (register isEmail st env id raw)).
Proof.
  unfold register, start.
  destruct (validate isEmail (sanitize raw)); [|reflexivity].
  simpl. destruct (event_findUnique st id); [|reflexivity].
  destruct (at_full_capacity _); [reflexivity|].
  simpl. destruct (user_findFirst st _ _); simpl.
  - destruct (eventRegistration_findFirst st _ id); [reflexivity|].
    unfold create_registration. simpl.
    now destruct (event_increment _ id).
  - unfold create_registration. simpl.
    now destruct (event_increment _ id).
Qed.

(** C1, counterexample.  The event has one seat left.  Two requests of
    distinct participants are resumed in turn: both find room before
    either has incremented the counter, both are answered with 201, and
    the counter ends at 2 above the ceiling of 1. *)
Lemma last_seat_taken_twice :
  Invariant.count Example.one_seat 1 = Some 0
  /\ option_map Event.maxCapacity (event_findUnique Example.one_seat 1)
     = Some (Some 1)
  /\ map (fun t => succeeded (snd t))
       (snd (run Example.alternate Example.one_seat Example.two_requests))
     = [true; true]
  /\ Invariant.count
       (fst (run Example.alternate Example.one_seat Example.two_requests)) 1
     = Some 2
  /\ Invariant.ceilings_respected
       (fst (run Example.alternate Example.one_seat Example.two_requests))
     = false.
Proof. repeat split; vm_compute; reflexivity. Qed.

(** The same two requests one after the other: the second is told that
    the event is full. *)
Lemma last_seat_taken_once :
  map (fun t => snd t)
    (snd (run Example.one_by_one Example.one_seat Example.two_requests))
  = [Done (json 201
             (Registered "Successfully registered for event"
                (EventRegistration.mk 1 1 1 1200)));
     Done CapacityExceeded]
  /\ Invariant.count
       (fst (run Example.one_by_one Example.one_seat Example.two_requests)) 1
     = Some 1.
Proof. split; vm_compute; reflexivity. Qed.

End Interleaving.

(** ** The properties on the concrete stores of the examples *)

Module Scenario.

Import Prisma Events Example.

Local Abbreviation register := (Events.register isEmail).
Local Abbreviation created r :=
  (json 201 (Registered "Successfully registered for event" r)).

(** Three newcomers and two seats: the first two are registered, the third
    is told that the event is full, and the counter goes 0, 1, 2, 2. *)
Lemma two_seats_three_newcomers :
  event_findUnique two_seats 1 = Some (workshop (Some 2) 0)
  /\ Event.maxCapacity (workshop (Some 2) 0) = Some 2
  /\ 2 <> 0
  /\ Event.currentCapacity (workshop (Some 2) 0) <= 2
  /\ forallb (fun c => Invariant.passes_chains isEmail (snd c)) three_calls
     = true
  /\ Invariant.newcomers two_seats (map snd three_calls) = true
  /\ map status
       (firstn 2 (fst (Service.register_all isEmail isISO8601 two_seats 1
                         three_calls)))
     = [201; 201]
  /\ skipn 2 (fst (Service.register_all isEmail isISO8601 two_seats 1
                     three_calls))
     = [CapacityExceeded]
  /\ (forall k, (k <= 3)%nat ->
      Invariant.count
        (snd (Service.register_all isEmail isISO8601 two_seats 1
                (firstn k three_calls))) 1
      = Some (Z.min 2 (0 + Z.of_nat k))).
Proof.
  split; [reflexivity|]. split; [reflexivity|]. split; [discriminate|].
  split; [simpl; lia|]. split; [reflexivity|]. split; [reflexivity|].
  apply (proj2 (Registration.sequential_registrations_never_overbook
                  isEmail isISO8601 two_seats 1 (workshop (Some 2) 0) 2
                  eq_refl eq_refl ltac:(discriminate) ltac:(simpl; lia))
           three_calls eq_refl eq_refl).
Defined.

(** C2, counterexample.  An administrator lowers the ceiling of an event
    with three registrations counted from five to two: the update is
    answered with 200 and leaves the counter above the ceiling. *)
Lemma update_breaks_ceiling :
  Invariant.ceilings_respected three_of_five = true
  /\ updateEvent isISO8601 three_of_five admin 1 lower_ceiling
     = (json 200 (EventJson (workshop (Some 2) 3)),
        mkStore [workshop (Some 2) 3] [] [] [] 1 1 1)
  /\ Invariant.ceilings_respected
       (snd (updateEvent isISO8601 three_of_five admin 1 lower_ceiling))
     = false.
Proof. repeat split. Qed.

(** A registration, a listing and a change of title keep the counter of
    the event under its ceiling of five. *)
Lemma three_requests_keep_ceiling :
  forallb Invariant.leaves_capacity_columns three_requests = true
  /\ Invariant.nonzero_ceilings_respected three_of_five = true
  /\ Invariant.nonzero_ceilings_respected
       (snd (Service.exec_all isEmail isISO8601 three_of_five three_requests))
     = true.
Proof.
  split; [reflexivity|]. split; [reflexivity|].
  apply (Registration.nonzero_ceilings_preserved isEmail isISO8601
           three_of_five three_requests); reflexivity.
Defined.

(** C3, counterexample.  The single seat of the workshop is taken by
    Alice.  A body with her email and senecaId and a blank name is for a
    full event and a participant who is already registered: it is
    answered with the 400 of the chains, "Name is required", not with the
    capacity refusal. *)
Lemma blank_name_on_sold_out_event :
  (exists e, event_findUnique sold_out 1 = Some e
             /\ at_full_capacity e = true)
  /\ (exists u r,
        Invariant.resolve sold_out nameless = Some u
        /\ eventRegistration_findFirst sold_out (User.id u) 1 = Some r)
  /\ register sold_out at_one 1 nameless
     = (ValidationError ["Name is required"], sold_out)
  /\ fst (register sold_out at_one 1 nameless) <> CapacityExceeded.
Proof.
  split; [eexists; split; reflexivity|].
  split; [eexists; eexists; split; reflexivity|].
  split; [reflexivity|discriminate].
Qed.

(** Alice asks again for the event whose only seat she holds: the event is
    full and she is registered, and the answer is the capacity refusal. *)
Lemma full_event_wins_over_duplicate :
  events sold_out = [workshop (Some 1) 1]
  /\ (exists u r,
        users sold_out = [u]
        /\ User.email u = email alice
        /\ eventRegistrations sold_out = [r]
        /\ EventRegistration.userId r = User.id u
        /\ EventRegistration.eventId r = 1%N)
  /\ fst (register sold_out at_one 1 alice) = CapacityExceeded
  /\ fst (register sold_out at_one 1 alice) <> AlreadyRegistered.
Proof.
  split; [reflexivity|].
  split; [eexists; eexists; repeat split; reflexivity|].
  destruct (Registration.register_checks_in_order isEmail sold_out at_one 1
              alice) as (_ & _ & _ & _ & _ & _ & Hboth & _).
  destruct (Hboth (workshop (Some 1) 1)
              (fst (user_create one_seat (new_user at_noon (sanitize alice)))))
    as (Hne & Hcap & _).
  - exists [], []. split; [reflexivity|]. split; [reflexivity|].
    intros x [].
  - exists 1. split; [reflexivity|]. split; [discriminate|]. simpl. lia.
  - exists [], []. split; [reflexivity|]. split; [left; reflexivity|].
    intros x [].
  - eexists. split; [left; reflexivity|]. split; reflexivity.
  - split; [apply Hcap; reflexivity|exact Hne].
Defined.

(** Alice takes the single seat: one row is appended and the counter goes
    from 0 to 1. *)
Lemma alice_takes_the_seat :
  status (fst (register one_seat at_noon 1 alice)) = 201
  /\ exists r u c,
      fst (register one_seat at_noon 1 alice) = created r
      /\ eventRegistrations (snd (register one_seat at_noon 1 alice))
         = (eventRegistrations one_seat ++ [r])%list
      /\ EventRegistration.eventId r = 1%N
      /\ Invariant.resolve (snd (register one_seat at_noon 1 alice)) alice
         = Some u
      /\ EventRegistration.userId r = User.id u
      /\ Invariant.count one_seat 1 = Some c
      /\ Invariant.count (snd (register one_seat at_noon 1 alice)) 1
         = Some (c + 1)
      /\ (forall id', id' <> 1%N ->
          event_findUnique (snd (register one_seat at_noon 1 alice)) id'
          = event_findUnique one_seat id').
Proof.
  split; [reflexivity|].
  apply (Registration.register_creates_one_registration_and_increments
           isEmail one_seat at_noon 1 alice); reflexivity.
Defined.

(** C5, counterexample.  No event has the key 7, and the name of the body
    is blank: the answer is the 400 of the field chains, not the 404. *)
Lemma blank_name_for_missing_event :
  event_findUnique one_seat 7 = None
  /\ register one_seat at_noon 7 nameless
     = (ValidationError ["Name is required"], one_seat)
  /\ fst (register one_seat at_noon 7 nameless) <> NotFound.
Proof. repeat split. discriminate. Qed.

(** Alice asks for an event that does not exist. *)
Lemma alice_for_missing_event :
  event_findUnique one_seat 7 = None
  /\ snd (register one_seat at_noon 7 alice) = one_seat
  /\ (validate isEmail (sanitize alice) = [] ->
      fst (register one_seat at_noon 7 alice) = NotFound)
  /\ (validate isEmail (sanitize alice) <> [] ->
      fst (register one_seat at_noon 7 alice)
      = ValidationError (validate isEmail (sanitize alice))).
Proof.
  split; [reflexivity|].
  apply (Registration.register_missing_event isEmail one_seat at_noon 7
           alice); reflexivity.
Defined.

(** C6, counterexample.  (1) Alice takes the last seat and asks again: the
    second answer is "Event is at full capacity", not "Already
    registered".  (2) A body with Ann's address and the senecaId S9 is
    registered as Ann, whose stored senecaId is S1; a second body with the
    same senecaId S9 and another address resolves to nobody, is answered
    with 201 and moves the counter from 1 to 2. *)
Lemma same_key_not_refused_as_duplicate :
  (status (fst (register one_seat at_noon 1 alice)) = 201
   /\ fst (register (snd (register one_seat at_noon 1 alice)) at_one 1 alice)
      = CapacityExceeded
   /\ CapacityExceeded <> AlreadyRegistered)
  /\ (senecaId carl_as_S9 = senecaId ann_as_S9
      /\ status (fst (register ann_known at_noon 1 ann_as_S9)) = 201
      /\ Invariant.count (snd (register ann_known at_noon 1 ann_as_S9)) 1
         = Some 1
      /\ status
           (fst (register (snd (register ann_known at_noon 1 ann_as_S9))
                   at_one 1 carl_as_S9)) = 201
      /\ Invariant.count
           (snd (register (snd (register ann_known at_noon 1 ann_as_S9))
                   at_one 1 carl_as_S9)) 1 = Some 2).
Proof. repeat split. discriminate. Qed.

(** Alice registers where there is room and asks again. *)
Lemma alice_asks_twice :
  status (fst (register ann_known at_noon 1 alice)) = 201
  /\ validate isEmail (sanitize alice) = []
  /\ register (snd (register ann_known at_noon 1 alice)) at_one 1 alice
     = (AlreadyRegistered, snd (register ann_known at_noon 1 alice))
  /\ filter (user_and_event 2 1)
       (eventRegistrations
          (snd (register (snd (register ann_known at_noon 1 alice))
                  at_one 1 alice)))
     = [EventRegistration.mk 1 2 1 1200].
Proof.
  split; [reflexivity|]. split; [reflexivity|].
  destruct (Registration.second_registration_refused isEmail ann_known
              at_noon 1 alice
              (fst (register ann_known at_noon 1 alice))
              (snd (register ann_known at_noon 1 alice))
              at_one alice eq_refl eq_refl eq_refl eq_refl) as [H1 H2].
  split; [exact H1|].
  exact (H2 eq_refl (EventRegistration.mk 1 2 1 1200) eq_refl).
Defined.

(** C7, counterexample.  Bob submits his own name, address, program and
    year with the senecaId the store holds for Ann; he is registered as
    Ann, and the listing shows Ann's stored fields and no entry that
    matches what Bob submitted. *)
Lemma listing_shows_the_stored_participant :
  status (fst (register ann_known at_noon 1 bob_as_S1)) = 201
  /\ listRegistrations (snd (register ann_known at_noon 1 bob_as_S1)) admin 1
     = json 200
         (RegistrationList
            [mkRegistrationWithUser (EventRegistration.mk 1 1 1 1200)
               (Some (mkUserSelect "Ann" "Lee" "ann@myseneca.ca" "CPA" 2))])
  /\ Invariant.submitted bob_as_S1
     = mkUserSelect "Bob" "Ray" "bob@myseneca.ca" "BSD" 3
  /\ filter (Invariant.matches bob_as_S1)
       (eventRegistration_findMany
          (snd (register ann_known at_noon 1 bob_as_S1)) 1)
     = [].
Proof. repeat split. Qed.

(** Alice is new to the store: the listing shows exactly one entry with
    what she submitted. *)
Lemma listing_shows_alice :
  Invariant.well_formed ann_known = true
  /\ status (fst (register ann_known at_noon 1 alice)) = 201
  /\ req_user_role admin = ADMIN
  /\ exists r entries,
      fst (register ann_known at_noon 1 alice) = created r
      /\ listRegistrations (snd (register ann_known at_noon 1 alice)) admin 1
         = json 200 (RegistrationList entries)
      /\ filter (Invariant.entry_of_user (EventRegistration.userId r)) entries
         = [include_user (snd (register ann_known at_noon 1 alice)) r]
      /\ (Invariant.resolve ann_known alice = None ->
          Prisma.user
            (include_user (snd (register ann_known at_noon 1 alice)) r)
          = Some (Invariant.submitted alice)
          /\ filter (Invariant.matches alice) entries
             = [include_user (snd (register ann_known at_noon 1 alice)) r]).
Proof.
  split; [reflexivity|]. split; [reflexivity|]. split; [reflexivity|].
  apply (Registration.listing_after_register isEmail ann_known at_noon 1
           alice); reflexivity.
Defined.

(** The notification of Dana's message bounces: she is answered with 201
    all the same. *)
Lemma dana_is_answered :
  Contact.validate isEmail (Contact.sanitize hello) = []
  /\ forall sendMail,
      fst (fst (Contact.submit isEmail sendMail empty_store hello))
      = json 201 (Submitted "Contact form submitted successfully" 1)
      /\ contactMessages
           (snd (fst (Contact.submit isEmail sendMail empty_store hello)))
         = [ContactMessage.mk 1 "Dana" "dana@myseneca.ca" "Joining the club"
              "How do I join the science club?"]
      /\ snd (Contact.submit isEmail sendMail empty_store hello)
         = (if sendMail (Contact.notification (Contact.sanitize hello))
            then [] else ["Failed to send email notification:"]).
Proof.
  split; [reflexivity|].
  apply (ContactForm.notification_failure_is_not_surfaced isEmail
           empty_store hello); reflexivity.
Defined.

(** The transport delivers or bounces: same answer, same store. *)
Lemma dana_with_and_without_mail :
  Contact.submit isEmail delivers empty_store hello
  = (json 201 (Submitted "Contact form submitted successfully" 1),
     mkStore [] [] []
       [ContactMessage.mk 1 "Dana" "dana@myseneca.ca" "Joining the club"
          "How do I join the science club?"] 1 1 2,
     [])
  /\ Contact.submit isEmail bounces empty_store hello
     = (json 201 (Submitted "Contact form submitted successfully" 1),
        mkStore [] [] []
          [ContactMessage.mk 1 "Dana" "dana@myseneca.ca" "Joining the club"
             "How do I join the science club?"] 1 1 2,
        ["Failed to send email notification:"]).
Proof. split; reflexivity. Qed.

(** A member asks for the listing; an administrator gets it. *)
Lemma member_is_refused_admin_is_served :
  listRegistrations sold_out member 1 = AuthorizationError
  /\ listRegistrations sold_out admin 1
     = json 200
         (RegistrationList
            [mkRegistrationWithUser (EventRegistration.mk 1 1 1 1200)
               (Some (mkUserSelect "Alice" "Van Dam" "alice@myseneca.ca"
                        "CPA" 1))]).
Proof. split; reflexivity. Qed.

(** An administrator lists an event that does not exist. *)
Lemma listing_of_no_event :
  event_findUnique sold_out 7 = None
  /\ req_user_role admin = ADMIN
  /\ exists entries,
      listRegistrations sold_out admin 7
      = json 200 (RegistrationList entries)
      /\ (Invariant.well_formed sold_out = true -> entries = []).
Proof.
  split; [reflexivity|]. split; [reflexivity|].
  apply (Listing.listRegistrations_of_missing_event sold_out admin 7);
    reflexivity.
Defined.

End Scenario.

(** ** Integrity of the tables under sequential requests *)

Module StoreIntegrity.

Import Prisma Events.

Lemma keys_distinct_app us n :
  Integrity.keys_distinct (us ++ [n])
  = (Integrity.keys_distinct us
     && negb (existsb (fun u => email_or_senecaId (User.email u)
                                  (User.senecaId u) n) us))%bool.
Proof.
  induction us as [|u us IH]; simpl; [reflexivity|].
  rewrite IH, existsb_app. simpl.
  destruct (existsb _ us), (email_or_senecaId _ _ n),
    (Integrity.keys_distinct us), (existsb _ us); reflexivity.
Qed.

Lemma pairs_distinct_app rs n :
  Integrity.pairs_distinct (rs ++ [n])
  = (Integrity.pairs_distinct rs
     && negb (existsb (fun r => user_and_event (EventRegistration.userId r)
                                  (EventRegistration.eventId r) n) rs))%bool.
Proof.
  induction rs as [|r rs IH]; simpl; [reflexivity|].
  rewrite IH, existsb_app. simpl.
  destruct (existsb _ rs), (user_and_event _ _ n),
    (Integrity.pairs_distinct rs), (existsb _ rs); reflexivity.
Qed.

(** Nobody holds the email or the senecaId of a user that [findFirst] did
    not find. *)
Lemma unmatched_keys_are_new us n :
  find (email_or_senecaId (User.email n) (User.senecaId n)) us = None ->
  existsb (fun u => email_or_senecaId (User.email u) (User.senecaId u) n) us
  = false.
Proof.
  intros Hnone. apply not_true_is_false.
  intros (u & Hin & Hu)%existsb_exists.
  apply find_none with (x := u) in Hnone; [|exact Hin].
  unfold email_or_senecaId in *.
  rewrite (String.eqb_sym (User.email n)),
    (String.eqb_sym (User.senecaId n)) in Hu. congruence.
Qed.

Lemma unmatched_pair_is_new rs n :
  filter (user_and_event (EventRegistration.userId n)
            (EventRegistration.eventId n)) rs = [] ->
  existsb (fun r => user_and_event (EventRegistration.userId r)
                      (EventRegistration.eventId r) n) rs
  = false.
Proof.
  intros Hnone. apply not_true_is_false.
  intros (r & Hin & Hr)%existsb_exists.
  assert (Hf : In r (filter (user_and_event (EventRegistration.userId n)
                               (EventRegistration.eventId n)) rs)).
  { apply filter_In. split; [exact Hin|].
    unfold user_and_event in *.
    now rewrite (N.eqb_sym (EventRegistration.userId r)),
      (N.eqb_sym (EventRegistration.eventId r)). }
  rewrite Hnone in Hf. destruct Hf.
Qed.

Section Requests.

Variable isEmail : string -> bool.
Variable isISO8601 : string -> bool.

Local Abbreviation register := (Events.register isEmail).
Local Abbreviation exec := (Service.exec isEmail isISO8601).
Local Abbreviation exec_all := (Service.exec_all isEmail isISO8601).

Lemma register_keeps_keys_distinct st env id raw :
  Integrity.keys_distinct (users st) = true ->
  Integrity.keys_distinct (users (snd (register st env id raw))) = true.
Proof.
  intros Hk.
  destruct (register st env id raw) as [resp st'] eqn:Hr. simpl.
  destruct (Z.eq_dec (status resp) 201) as [H201|Hn].
  2:{ now destruct (RegisterFacts.register_refused _ _ _ _ _ _ _ Hr Hn)
        as [-> _]. }
  destruct (RegisterFacts.register_201 _ _ _ _ _ _ _ Hr H201)
    as (_ & e & evs & _ & _ & _ & [(u & _ & _ & _ & ->)|(Hu & _ & ->)]);
    simpl; [exact Hk|].
  rewrite keys_distinct_app, Hk. simpl.
  now rewrite unmatched_keys_are_new.
Qed.

Lemma register_keeps_pairs_distinct st env id raw :
  Invariant.well_formed st = true ->
  Integrity.pairs_distinct (eventRegistrations st) = true ->
  Integrity.pairs_distinct
    (eventRegistrations (snd (register st env id raw))) = true.
Proof.
  intros Hwf Hp.
  destruct (register st env id raw) as [resp st'] eqn:Hr. simpl.
  destruct (Z.eq_dec (status resp) 201) as [H201|Hn].
  2:{ now destruct (RegisterFacts.register_refused _ _ _ _ _ _ _ Hr Hn)
        as [-> _]. }
  destruct (RegisterFacts.register_201 _ _ _ _ _ _ _ Hr H201)
    as (_ & e & evs & _ & _ & _
        & [(u & _ & Hreg & _ & ->)|(_ & _ & ->)]);
    simpl; rewrite pairs_distinct_app, Hp; simpl;
    rewrite unmatched_pair_is_new; trivial; simpl.
  - now apply PrismaFacts.find_none_filter.
  - now apply Registration.next_user_has_no_rows.
Qed.

(** Registrations and listings run one at a time keep what one
    registration keeps. *)
Lemma registrations_keep (P : Store -> Prop) :
  (forall st env id raw, P st -> P (snd (register st env id raw))) ->
  forall ops st,
    forallb Integrity.no_update ops = true ->
    P st -> P (snd (exec_all st ops)).
Proof.
  intros Hstep. induction ops as [|op ops IH]; intros st Hops HP; simpl;
    [exact HP|].
  simpl in Hops. apply andb_prop in Hops as [Hop Hops].
  assert (H1 : P (snd (exec st op))).
  { destruct op as [env id raw|user id|user id raw]; simpl;
      [now apply Hstep|exact HP|discriminate]. }
  destruct (exec st op) as [r st1]. simpl in H1.
  specialize (IH st1 Hops H1). now destruct (exec_all st1 ops).
Qed.

(** X1.  The natural keys of the users stay distinct: when no two users
    share an email or a senecaId, no sequence of registrations and
    listings run one at a time makes two users share one.  (The
    registration creates a user only after [findFirst] found nobody with
    the email or the senecaId.) *)
Theorem users_keep_distinct_keys st ops :
  forallb Integrity.no_update ops = true ->
  Integrity.keys_distinct (users st) = true ->
  Integrity.keys_distinct (users (snd (exec_all st ops))) = true.
Proof.
  intros Hops.
  apply (registrations_keep
           (fun st => Integrity.keys_distinct (users st) = true));
    [|exact Hops].
  intros st0 env id raw. apply register_keeps_keys_distinct.
Qed.

(** X3.  The registration handler keeps the references of the
    registrations: from a store in which every registration refers to a
    stored user and a stored event (and the key the store issues next is
    the key of no user), after any sequence of registrations and listings
    run one at a time every registration row still carries the key of a
    stored user and the key of a stored event. *)
Theorem requests_keep_store_well_formed st ops :
  forallb Integrity.no_update ops = true ->
  Invariant.well_formed st = true ->
  forall r,
    In r (eventRegistrations (snd (exec_all st ops))) ->
    (exists u, In u (users (snd (exec_all st ops)))
               /\ User.id u = EventRegistration.userId r)
    /\ (exists e, In e (events (snd (exec_all st ops)))
                  /\ Event.id e = EventRegistration.eventId r).
Proof.
  intros Hops Hwf.
  assert (Hwf' : Invariant.well_formed (snd (exec_all st ops)) = true).
  { apply (registrations_keep (fun st => Invariant.well_formed st = true));
      trivial.
    intros st0 env id raw. apply Registration.register_keeps_well_formed. }
  intros r Hr.
  destruct (Registration.well_formed_elim _ Hwf') as [_ Hrefs].
  destruct (Hrefs r Hr) as [Hu He].
  apply existsb_exists in Hu as (u & Hu & Hid).
  apply existsb_exists in He as (e & He & Heid).
  apply N.eqb_eq in Hid, Heid.
  split; [exists u|exists e]; split; assumption.
Qed.

(** X2.  A participant is registered at most once per event: from a
    well-formed store in which no two registrations link the same user to
    the same event, no sequence of registrations and listings run one at a
    time produces two such registrations. *)
Theorem registrations_keep_distinct_pairs st ops :
  forallb Integrity.no_update ops = true ->
  Invariant.well_formed st = true ->
  Integrity.pairs_distinct (eventRegistrations st) = true ->
  Integrity.pairs_distinct (eventRegistrations (snd (exec_all st ops)))
  = true.
Proof.
  intros Hops Hwf Hp.
  apply (registrations_keep
           (fun st => Invariant.well_formed st = true
                      /\ Integrity.pairs_distinct (eventRegistrations st)
                         = true)); auto.
  intros st0 env id raw [Hwf0 Hp0]. split.
  - now apply Registration.register_keeps_well_formed.
  - now apply register_keeps_pairs_distinct.
Qed.

End Requests.

End StoreIntegrity.

(** ** The counter of an event under interleaved registrations *)

Module Ledger.

Import Prisma Events Concurrent.

(** What one step of one request does to the ledger of event [id]: the
    event stays, its ceiling stays, the counter moves with the 201 answers
    and the rows with the inserted registrations. *)
Lemma step_ledger env st t id e :
  Integrity.coherent t = true ->
  event_findUnique st id = Some e ->
  exists e',
    event_findUnique (snd (step env st t)) id = Some e'
    /\ Integrity.coherent (fst (step env st t)) = true
    /\ Event.maxCapacity e' = Event.maxCapacity e
    /\ Event.currentCapacity e' - Integrity.answered_201 id (fst (step env st t))
       = Event.currentCapacity e - Integrity.answered_201 id t
    /\ Integrity.rows (snd (step env st t)) id - Event.currentCapacity e'
       - Integrity.awaiting_increment id (fst (step env st t))
       = Integrity.rows st id - Event.currentCapacity e
         - Integrity.awaiting_increment id t.
Proof.
  intros Hco He.
  destruct t as [id' b|id' b|id' uid|id' b|id' uid|id' r|r]; simpl.
  - destruct (event_findUnique st id') as [e0|]; simpl;
      [destruct (at_full_capacity e0); simpl|]; exists e; auto.
  - destruct (user_findFirst st _ _); simpl; exists e; auto.
  - destruct (eventRegistration_findFirst st _ _); simpl; exists e; auto.
  - exists e. auto.
  - exists e. unfold Integrity.rows. simpl.
    rewrite filter_app, length_app. simpl. unfold of_event at 2. simpl.
    rewrite N.eqb_refl.
    repeat split; trivial.
    destruct (N.eqb id' id); simpl; lia.
  - simpl in Hco. apply N.eqb_eq in Hco.
    unfold event_increment.
    destruct (update_first (has_event_id id') increment_currentCapacity
                (events st)) as [evs|] eqn:Hevs; simpl.
    + destruct (N.eqb_spec id' id) as [->|Hne].
      * exists (increment_currentCapacity e).
        unfold event_findUnique in *. simpl.
        rewrite (PrismaFacts.update_first_find _ _ _ _
                   (PrismaFacts.has_event_id_increment id) Hevs), He.
        rewrite Hco, N.eqb_refl. simpl.
        unfold Integrity.rows. simpl. repeat split; trivial; lia.
      * exists e. unfold event_findUnique in *. simpl.
        rewrite (PrismaFacts.update_first_find_other (has_event_id id')
                   (has_event_id id) increment_currentCapacity (events st)
                   evs (fun x => eq_refl)); trivial.
        -- rewrite Hco. apply N.eqb_neq in Hne. rewrite Hne.
           unfold Integrity.rows. simpl. repeat split; trivial; lia.
        -- unfold has_event_id. intros x Hx%N.eqb_eq.
           apply N.eqb_neq. congruence.
    + exists e. repeat split; trivial.
      destruct (N.eqb_spec id' id) as [->|Hne]; [|lia].
      apply PrismaFacts.update_first_none in Hevs.
      unfold event_findUnique in He. congruence.
  - exists e. auto.
Qed.

Lemma resume_ledger i st ts id e :
  forallb (fun et => Integrity.coherent (snd et)) ts = true ->
  event_findUnique st id = Some e ->
  exists e',
    event_findUnique (fst (resume i st ts)) id = Some e'
    /\ forallb (fun et => Integrity.coherent (snd et)) (snd (resume i st ts))
       = true
    /\ Event.maxCapacity e' = Event.maxCapacity e
    /\ Event.currentCapacity e'
       - Integrity.total (Integrity.answered_201 id) (snd (resume i st ts))
       = Event.currentCapacity e
         - Integrity.total (Integrity.answered_201 id) ts
    /\ Integrity.rows (fst (resume i st ts)) id - Event.currentCapacity e'
       - Integrity.total (Integrity.awaiting_increment id)
           (snd (resume i st ts))
       = Integrity.rows st id - Event.currentCapacity e
         - Integrity.total (Integrity.awaiting_increment id) ts.
Proof.
  revert i. induction ts as [|[env t] ts IH]; intros i Hco He.
  - destruct i; simpl; exists e; auto.
  - simpl in Hco. apply andb_prop in Hco as [Ht Hts].
    destruct i as [|j]; simpl.
    + destruct (step_ledger env st t id e Ht He)
        as (e' & He' & Hco' & Hmax & Hans & Hrows).
      destruct (step env st t) as [t1 st1]. simpl in *.
      exists e'. rewrite Hco', Hts. repeat split; trivial; lia.
    + destruct (IH j Hts He) as (e' & He' & Hco' & Hmax & Hans & Hrows).
      destruct (resume j st ts) as [st1 ts1]. simpl in *.
      exists e'. rewrite Ht, Hco'. repeat split; trivial; lia.
Qed.

Lemma run_ledger schedule st ts id e :
  forallb (fun et => Integrity.coherent (snd et)) ts = true ->
  event_findUnique st id = Some e ->
  exists e',
    event_findUnique (fst (run schedule st ts)) id = Some e'
    /\ Event.maxCapacity e' = Event.maxCapacity e
    /\ Event.currentCapacity e'
       - Integrity.total (Integrity.answered_201 id) (snd (run schedule st ts))
       = Event.currentCapacity e
         - Integrity.total (Integrity.answered_201 id) ts
    /\ Integrity.rows (fst (run schedule st ts)) id - Event.currentCapacity e'
       - Integrity.total (Integrity.awaiting_increment id)
           (snd (run schedule st ts))
       = Integrity.rows st id - Event.currentCapacity e
         - Integrity.total (Integrity.awaiting_increment id) ts.
Proof.
  revert st ts e. induction schedule as [|i schedule IH];
    intros st ts e Hco He; simpl.
  - exists e. auto.
  - destruct (resume_ledger i st ts id e Hco He)
      as (e1 & He1 & Hco1 & Hmax1 & Hans1 & Hrows1).
    destruct (resume i st ts) as [st1 ts1]. simpl in *.
    destruct (IH st1 ts1 e1 Hco1 He1) as (e' & He' & Hmax & Hans & Hrows).
    exists e'. repeat split; trivial; try congruence; lia.
Qed.

Lemma arrivals_are_fresh isEmail id reqs :
  forallb (fun et => Integrity.coherent (snd et))
    (Integrity.arrive isEmail reqs) = true
  /\ Integrity.total (Integrity.answered_201 id)
       (Integrity.arrive isEmail reqs) = 0
  /\ Integrity.total (Integrity.awaiting_increment id)
       (Integrity.arrive isEmail reqs) = 0.
Proof.
  induction reqs as [|[env [id' raw]] reqs (IH1 & IH2 & IH3)]; simpl;
    [auto|].
  rewrite IH1, IH2, IH3. unfold start.
  destruct (validate isEmail (sanitize raw)); simpl; auto.
Qed.

Lemma nobody_awaits id ts :
  Integrity.all_answered ts = true ->
  Integrity.total (Integrity.awaiting_increment id) ts = 0.
Proof.
  induction ts as [|[env t] ts IH]; simpl; [reflexivity|].
  intros [Ht Hts]%andb_prop. rewrite (IH Hts).
  now destruct t.
Qed.

(** X4.  However the store calls of concurrent registrations interleave,
    the counter of an event moves with its registrations: at every point of
    every schedule the counter has gone up by the number of requests
    answered with 201 for the event, and the rows of the event by that
    number plus the requests that have inserted their row and not yet
    incremented.  Once every request has answered, the counter and the
    rows have grown by the same number, the number of 201 answers; no
    increment is lost and the ceiling is never rewritten. *)
Theorem counter_follows_registrations isEmail st id e reqs schedule :
  event_findUnique st id = Some e ->
  let st' := fst (run schedule st (Integrity.arrive isEmail reqs)) in
  let ts' := snd (run schedule st (Integrity.arrive isEmail reqs)) in
  exists e',
    event_findUnique st' id = Some e'
    /\ Event.maxCapacity e' = Event.maxCapacity e
    /\ Event.currentCapacity e'
       = Event.currentCapacity e
         + Integrity.total (Integrity.answered_201 id) ts'
    /\ Integrity.rows st' id
       = Integrity.rows st id
         + Integrity.total (Integrity.answered_201 id) ts'
         + Integrity.total (Integrity.awaiting_increment id) ts'
    /\ (Integrity.all_answered ts' = true ->
        Integrity.rows st' id - Integrity.rows st id
        = Event.currentCapacity e' - Event.currentCapacity e).
Proof.
  intros He st' ts'.
  destruct (arrivals_are_fresh isEmail id reqs) as (Hco & Hans0 & Haw0).
  destruct (run_ledger schedule st (Integrity.arrive isEmail reqs) id e
              Hco He) as (e' & He' & Hmax & Hans & Hrows).
  fold st' in He', Hrows. fold ts' in Hans, Hrows.
  rewrite Hans0 in Hans. rewrite Haw0 in Hrows.
  exists e'. repeat split; trivial; try lia.
  intros Hall. rewrite (nobody_awaits id ts' Hall) in Hrows. lia.
Qed.

End Ledger.

(** ** Facts about the string helpers *)

Module JsFacts.

Import Js.

Lemma append_empty_r s : (s ++ "")%string = s.
Proof. induction s as [|c r IH]; simpl; [reflexivity|now rewrite IH]. Qed.

Lemma split_not_empty sep s : split sep s <> [].
Proof.
  destruct s as [|c r]; simpl; [discriminate|].
  destruct (Ascii.eqb c sep); [discriminate|].
  destruct (split sep r); discriminate.
Qed.

Lemma concat_cons_char sep c w ws :
  String.concat sep (String c w :: ws) = String c (String.concat sep (w :: ws)).
Proof. destruct ws; reflexivity. Qed.

(** Joining the pieces with the separator gives the string back. *)
Lemma join_split sep s :
  join (String sep EmptyString) (split sep s) = s.
Proof.
  unfold join. induction s as [|c r IH]; simpl; [reflexivity|].
  destruct (Ascii.eqb_spec c sep) as [->|Hne].
  - pose proof (split_not_empty sep r) as Hr.
    destruct (split sep r) as [|w ws]; [congruence|].
    simpl in *. now rewrite IH.
  - pose proof (split_not_empty sep r) as Hr.
    destruct (split sep r) as [|w ws]; [congruence|].
    rewrite concat_cons_char. now rewrite IH.
Qed.

(** The first piece holds no separator. *)
Lemma first_split_no_sep sep s :
  existsb (Ascii.eqb sep) (list_ascii_of_string (first (split sep s))) = false.
Proof.
  induction s as [|c r IH]; simpl; [reflexivity|].
  destruct (Ascii.eqb_spec c sep) as [->|Hne]; [reflexivity|].
  pose proof (split_not_empty sep r) as Hr.
  destruct (split sep r) as [|w ws]; [congruence|].
  simpl in *. rewrite IH.
  destruct (Ascii.eqb_spec sep c); [congruence|reflexivity].
Qed.

(** The string is its first piece, followed by the separator and the
    joined rest when there is a rest. *)
Lemma first_and_rest sep s :
  s = (first (split sep s)
       ++ match slice1 (split sep s) with
          | [] => ""
          | rest => String sep (join (String sep EmptyString) rest)
          end)%string.
Proof.
  pose proof (join_split sep s) as H.
  pose proof (split_not_empty sep s) as Hne.
  unfold join, first, slice1 in *.
  destruct (split sep s) as [|w [|w' ws]]; [congruence| |]; simpl in *.
  - now rewrite append_empty_r.
  - exact (eq_sym H).
Qed.

(** *** Trimming *)

Lemma ltrim_head s :
  ltrim s = "" \/ exists c r, ltrim s = String c r /\ is_space c = false.
Proof.
  induction s as [|c r IH]; simpl; [now left|].
  destruct (is_space c) eqn:Hc; [exact IH|].
  right. eauto.
Qed.

Lemma rtrim_head c r :
  is_space c = false -> rtrim (String c r) = String c (rtrim r).
Proof. intros Hc. simpl. now rewrite Hc. Qed.

Lemma rtrim_idempotent s : rtrim (rtrim s) = rtrim s.
Proof.
  induction s as [|c r IH]; simpl; [reflexivity|].
  destruct (is_space c && String.eqb (rtrim r) "")%bool eqn:Hcond;
    [reflexivity|].
  simpl. now rewrite IH, Hcond.
Qed.

(** The last character of a right-trimmed string is not white space. *)
Lemma rtrim_last s a c :
  rtrim s = (a ++ String c "")%string -> is_space c = false.
Proof.
  revert a. induction s as [|x r IH]; intros a; simpl.
  - destruct a; discriminate.
  - destruct (is_space x && String.eqb (rtrim r) "")%bool eqn:Hcond.
    + destruct a; discriminate.
    + destruct a as [|y a]; simpl; intros [= -> Hr].
      * rewrite Hr in Hcond. simpl in Hcond.
        now rewrite andb_true_r in Hcond.
      * now apply IH with (a := a).
Qed.

(** A trimmed string is empty or starts with a character that is not
    white space. *)
Lemma trim_head s :
  trim s = "" \/ exists c r, trim s = String c r /\ is_space c = false.
Proof.
  unfold trim. destruct (ltrim_head s) as [->|(c & r & -> & Hc)].
  - now left.
  - right. exists c, (rtrim r). now rewrite rtrim_head.
Qed.

Lemma trim_last s a c :
  trim s = (a ++ String c "")%string -> is_space c = false.
Proof. apply rtrim_last. Qed.

(** Trimming twice is trimming once. *)
Lemma trim_idempotent s : trim (trim s) = trim s.
Proof.
  destruct (trim_head s) as [->|(c & r & Heq & Hc)]; [reflexivity|].
  unfold trim at 1. rewrite Heq. simpl ltrim. rewrite Hc.
  rewrite <- Heq. unfold trim. apply rtrim_idempotent.
Qed.

End JsFacts.

(** ** What a registration does and does not do *)

Module RegistrationEffects.

Import Prisma Events.

Lemma steps_done n env st r :
  Concurrent.steps n env st (Concurrent.Done r) = (Concurrent.Done r, st).
Proof. induction n as [|n IH]; simpl; [reflexivity|exact IH]. Qed.

Lemma steps_add n m env st t :
  Concurrent.steps (n + m) env st t
  = Concurrent.steps m env (snd (Concurrent.steps n env st t))
      (fst (Concurrent.steps n env st t)).
Proof.
  revert st t. induction n as [|n IH]; intros st t; simpl; [reflexivity|].
  destruct (Concurrent.step env st t) as [t1 st1]. apply IH.
Qed.

(** A request that has answered after [n] store calls answered as the
    handler run in one piece does. *)
Lemma steps_answered isEmail n env st id raw r st' :
  Concurrent.steps n env st (Concurrent.start isEmail id raw)
  = (Concurrent.Done r, st') ->
  register isEmail st env id raw = (r, st').
Proof.
  intros Hn.
  pose proof (Interleaving.steps_alone isEmail env st id raw) as H5.
  destruct (Nat.le_ge_cases n 5) as [Hle|Hge].
  - replace 5%nat with (n + (5 - n))%nat in H5 by lia.
    rewrite steps_add, Hn in H5. simpl in H5.
    rewrite steps_done in H5. injection H5 as -> ->.
    now destruct (register isEmail st env id raw).
  - replace n with (5 + (n - 5))%nat in Hn by lia.
    rewrite steps_add, H5 in Hn. simpl in Hn.
    rewrite steps_done in Hn. injection Hn as <- <-.
    now destruct (register isEmail st env id raw).
Qed.

(** What the store calls of a request add to the tables, however far the
    request got: at most one user and one registration, at the end of
    their tables; the contact messages stay as they are, and the events
    too as long as the request has not answered. *)
Lemma steps_grow isEmail n env st id raw :
  let t := fst (Concurrent.steps n env st (Concurrent.start isEmail id raw)) in
  let st' :=
    snd (Concurrent.steps n env st (Concurrent.start isEmail id raw)) in
  contactMessages st' = contactMessages st
  /\ (exists us rs,
        users st' = (users st ++ us)%list
        /\ eventRegistrations st' = (eventRegistrations st ++ rs)%list
        /\ (List.length us <= 1)%nat
        /\ (List.length rs <= 1)%nat)
  /\ ((forall r, t <> Concurrent.Done r) -> events st' = events st).
Proof.
  assert (Hnone : forall st0 : Store,
             contactMessages st0 = contactMessages st0
             /\ (exists us rs,
                   users st0 = (users st0 ++ us)%list
                   /\ eventRegistrations st0
                      = (eventRegistrations st0 ++ rs)%list
                   /\ (List.length us <= 1)%nat
                   /\ (List.length rs <= 1)%nat)).
  { intros st0. split; [reflexivity|]. exists [], [].
    rewrite !app_nil_r. simpl. auto. }
  unfold Concurrent.start.
  destruct (validate isEmail (sanitize raw)) as [|m ms].
  2:{ rewrite steps_done. simpl. split; [apply Hnone|].
      split; [apply Hnone|]. intros H. exfalso. eapply H. reflexivity. }
  destruct n as [|n]; simpl.
  { split; [apply Hnone|]. split; [apply Hnone|reflexivity]. }
  destruct (event_findUnique st id) as [e|].
  2:{ rewrite steps_done. simpl. split; [apply Hnone|].
      split; [apply Hnone|]. intros H. exfalso. eapply H. reflexivity. }
  destruct (at_full_capacity e).
  1:{ rewrite steps_done. simpl. split; [apply Hnone|].
      split; [apply Hnone|]. intros H. exfalso. eapply H. reflexivity. }
  destruct n as [|n]; simpl.
  { split; [apply Hnone|]. split; [apply Hnone|reflexivity]. }
  destruct (user_findFirst st _ _) as [u|].
  - destruct n as [|n]; simpl.
    { split; [apply Hnone|]. split; [apply Hnone|reflexivity]. }
    destruct (eventRegistration_findFirst st (User.id u) id).
    1:{ rewrite steps_done. simpl. split; [apply Hnone|].
        split; [apply Hnone|]. intros H. exfalso. eapply H. reflexivity. }
    destruct n as [|n]; simpl.
    { split; [apply Hnone|]. split; [apply Hnone|reflexivity]. }
    destruct n as [|n]; simpl.
    { split; [reflexivity|]. split; [|reflexivity].
      exists [], [EventRegistration.mk (nextRegistrationId st) (User.id u) id
                    (now env)].
      rewrite app_nil_r. simpl. auto. }
    unfold event_increment. simpl.
    destruct (update_first _ _ (events st)); rewrite steps_done; simpl.
    + split; [reflexivity|]. split; [|intros H; exfalso; eapply H; reflexivity].
      exists [], [EventRegistration.mk (nextRegistrationId st) (User.id u) id
                    (now env)].
      rewrite app_nil_r. simpl. auto.
    + split; [reflexivity|]. split; [|intros H; exfalso; eapply H; reflexivity].
      exists [], [EventRegistration.mk (nextRegistrationId st) (User.id u) id
                    (now env)].
      rewrite app_nil_r. simpl. auto.
  - destruct n as [|n]; simpl.
    { split; [apply Hnone|]. split; [apply Hnone|reflexivity]. }
    destruct n as [|n]; simpl.
    { split; [reflexivity|]. split; [|reflexivity].
      eexists [_], []. rewrite app_nil_r. simpl. auto. }
    destruct n as [|n]; simpl.
    { split; [reflexivity|]. split; [|reflexivity].
      eexists [_], [_]. simpl. auto. }
    unfold event_increment. simpl.
    destruct (update_first _ _ (events st)); rewrite steps_done; simpl.
    + split; [reflexivity|]. split; [|intros H; exfalso; eapply H; reflexivity].
      eexists [_], [_]. simpl. auto.
    + split; [reflexivity|]. split; [|intros H; exfalso; eapply H; reflexivity].
      eexists [_], [_]. simpl. auto.
Qed.

(** X5.  The registration is not all or nothing when a store call fails.
    With the store call number [n] rejecting, the handler answers 201,
    400, 404 or 500.  The answers 201, 400 and 404 are those of a request
    that met no failure, with the same store; a 400 or a 404 has written
    nothing.  A 500 increments no counter and removes nothing, but it
    keeps what the calls before the failure wrote: at most one user and one
    registration more.  Both happen: for a newcomer to an event with room,
    a failure of the creation of the registration leaves the new user
    without a registration, and a failure of the increment leaves the user
    and the registration with a counter that does not count it.  When the
    first five calls succeed the request is the handler run in one
    piece. *)
Theorem register_interrupted isEmail n st env id raw :
  let resp := fst (Faults.interrupted isEmail n st env id raw) in
  let st' := snd (Faults.interrupted isEmail n st env id raw) in
  In (status resp) [201; 400; 404; 500]
  /\ (status resp <> 500 ->
      Faults.interrupted isEmail n st env id raw
      = register isEmail st env id raw)
  /\ (status resp = 400 \/ status resp = 404 -> st' = st)
  /\ (status resp = 500 ->
      events st' = events st
      /\ contactMessages st' = contactMessages st
      /\ exists us rs,
           users st' = (users st ++ us)%list
           /\ eventRegistrations st' = (eventRegistrations st ++ rs)%list
           /\ (List.length us <= 1)%nat
           /\ (List.length rs <= 1)%nat)
  /\ (forall e,
        validate isEmail (sanitize raw) = [] ->
        event_findUnique st id = Some e ->
        at_full_capacity e = false ->
        Invariant.resolve st raw = None ->
        let u := fst (user_create st (new_user env (sanitize raw))) in
        let r := EventRegistration.mk (nextRegistrationId st) (User.id u) id
                   (now env) in
        (status (fst (Faults.interrupted isEmail 3 st env id raw)) = 500
         /\ users (snd (Faults.interrupted isEmail 3 st env id raw))
            = (users st ++ [u])%list
         /\ eventRegistrations (snd (Faults.interrupted isEmail 3 st env id raw))
            = eventRegistrations st)
        /\ (status (fst (Faults.interrupted isEmail 4 st env id raw)) = 500
            /\ users (snd (Faults.interrupted isEmail 4 st env id raw))
               = (users st ++ [u])%list
            /\ eventRegistrations
                 (snd (Faults.interrupted isEmail 4 st env id raw))
               = (eventRegistrations st ++ [r])%list
            /\ events (snd (Faults.interrupted isEmail 4 st env id raw))
               = events st))
  /\ ((5 <= n)%nat ->
      Faults.interrupted isEmail n st env id raw
      = register isEmail st env id raw).
Proof.
  intros resp st'. subst resp st'.
  split; [|split; [|split; [|split; [|split]]]].
  - unfold Faults.interrupted.
    destruct (Concurrent.steps n env st (Concurrent.start isEmail id raw))
      as [t st1] eqn:Hn.
    destruct t; simpl; auto 6.
    apply steps_answered in Hn.
    destruct (Z.eq_dec (status r) 201) as [->|Hne]; [auto|].
    destruct (RegisterFacts.register_refused _ _ _ _ _ _ _ Hn Hne)
      as [_ [-> | [-> | [-> | ->]]]]; simpl; auto 6.
  - unfold Faults.interrupted.
    destruct (Concurrent.steps n env st (Concurrent.start isEmail id raw))
      as [t st1] eqn:Hn.
    destruct t; simpl; try congruence.
    intros _. symmetry. now apply steps_answered in Hn.
  - unfold Faults.interrupted.
    destruct (Concurrent.steps n env st (Concurrent.start isEmail id raw))
      as [t st1] eqn:Hn.
    destruct t; simpl; try (intros [H|H]; discriminate H).
    apply steps_answered in Hn. intros H.
    apply (RegisterFacts.register_refused _ _ _ _ _ _ _ Hn).
    destruct H as [H|H]; rewrite H; discriminate.
  - pose proof (steps_grow isEmail n env st id raw) as Hgrow.
    unfold Faults.interrupted.
    destruct (Concurrent.steps n env st (Concurrent.start isEmail id raw))
      as [t st1] eqn:Hn.
    simpl in Hgrow. destruct Hgrow as (Hmsgs & Hrows & Hevents).
    destruct t; simpl; intros H500;
      try (split; [apply Hevents; discriminate|]; split; assumption).
    apply steps_answered in Hn.
    destruct (RegisterFacts.register_refused _ _ _ _ _ _ _ Hn
                ltac:(rewrite H500; discriminate))
      as [_ [-> | [-> | [-> | ->]]]]; discriminate H500.
  - intros e Hv He Hfull Hu. unfold Invariant.resolve in Hu. simpl in Hu.
    unfold Faults.interrupted, Concurrent.start. rewrite Hv. simpl.
    rewrite He, Hfull. simpl. rewrite Hu. simpl. repeat split.
  - intros Hge. unfold Faults.interrupted.
    replace n with (5 + (n - 5))%nat by lia.
    rewrite steps_add, Interleaving.steps_alone. simpl.
    rewrite steps_done. now destruct (register isEmail st env id raw).
Qed.

Lemma last_char_append s c :
  Text.last_char (s ++ String c "") = Some c.
Proof.
  induction s as [|x r IH]; simpl; [reflexivity|].
  rewrite IH. now destruct r.
Qed.

(** A trimmed name is not padded. *)
Lemma trim_not_padded s : Text.padded (Js.trim s) = false.
Proof.
  unfold Text.padded. apply orb_false_intro.
  - destruct (JsFacts.trim_head s) as [->|(c & r & -> & Hc)];
      [reflexivity|].
    simpl. destruct (Ascii.eqb_spec c " ") as [->|_];
      [discriminate|reflexivity].
  - destruct (Text.last_char (Js.trim s)) as [c|] eqn:Hlast;
      [|reflexivity].
    simpl. destruct (Ascii.eqb_spec c " ") as [->|_]; [|reflexivity].
    assert (Hend : exists a, Js.trim s = (a ++ " ")%string).
    { clear - Hlast. induction (Js.trim s) as [|x r IH]; [discriminate|].
      destruct r as [|y r].
      - injection Hlast as ->. now exists "".
      - destruct (IH Hlast) as [a Ha]. exists (String x a).
        simpl. now rewrite <- Ha. }
    destruct Hend as [a Ha].
    now pose proof (JsFacts.trim_last s a " " Ha).
Qed.

(** X6.  The user a registration creates gets the name of the body split
    at its first space.  The chain has trimmed the name, so it neither
    begins nor ends with a space; for every such name the first name holds
    no space and is not empty when the name is not, and the first name, a
    space and the last name give the name back (the first name alone when
    there is no last name). *)
Theorem created_user_names env b :
  Text.padded (name b) = false ->
  let d := new_user env b in
  name b
  = (d_firstName d
     ++ (if String.eqb (d_lastName d) "" then "" else " " ++ d_lastName d))%string
  /\ existsb (Ascii.eqb " ") (list_ascii_of_string (d_firstName d)) = false
  /\ (name b <> "" -> d_firstName d <> "").
Proof.
  intros Hpad d. set (n := name b) in *.
  change (d_firstName d) with (Js.first (Js.split " " n)).
  change (d_lastName d)
    with (Js.or_empty (Js.join " " (Js.slice1 (Js.split " " n)))).
  clearbody n. clear d b.
  apply orb_false_elim in Hpad as [Hfirst Hlast].
  split; [|split].
  - pose proof (JsFacts.first_and_rest " " n) as H.
    destruct (Js.slice1 (Js.split " " n)) as [|w ws] eqn:Hrest.
    + simpl. exact H.
    + unfold Js.or_empty.
      destruct (String.eqb_spec (Js.join " " (w :: ws)) "") as [He|Hne].
      * rewrite He in H. rewrite H, last_char_append in Hlast.
        discriminate.
      * apply String.eqb_neq in Hne. rewrite Hne. exact H.
  - apply JsFacts.first_split_no_sep.
  - intros Hne. destruct n as [|c r]; [congruence|]. simpl in Hfirst |- *.
    rewrite Hfirst.
    pose proof (JsFacts.split_not_empty " " r) as Hr.
    destruct (Js.split " " r); [congruence|discriminate].
Qed.

End RegistrationEffects.

(** ** Listings and registrations *)

Module ListingFrame.

Import Prisma Events.




End ListingFrame.

(** ** The contact messages *)

Module ContactMessages.

Import Prisma Contact.

Lemma issued_key_is_new st :
  ContactAdmin.keys_issued st = true ->
  forall m, In m (contactMessages st) ->
       ContactAdmin.has_message_id (nextMessageId st) m = false.
Proof.
  unfold ContactAdmin.keys_issued. rewrite forallb_forall. intros H m Hm.
  apply H in Hm. apply N.ltb_lt in Hm.
  unfold ContactAdmin.has_message_id. apply N.eqb_neq. lia.
Qed.

Section Form.

Variable isEmail : string -> bool.

Lemma is_ascii_ltrim s :
  Text.is_ascii s = true -> Text.is_ascii (Js.ltrim s) = true.
Proof.
  induction s as [|c r IH]; simpl; [trivial|].
  destruct (Js.is_space c); [|trivial].
  intros [_ Hr]%andb_prop. now apply IH.
Qed.

Lemma is_ascii_rtrim s :
  Text.is_ascii s = true -> Text.is_ascii (Js.rtrim s) = true.
Proof.
  induction s as [|c r IH]; simpl; [trivial|].
  intros [Hc Hr]%andb_prop.
  destruct (Js.is_space c && String.eqb (Js.rtrim r) "")%bool;
    [reflexivity|].
  unfold Text.is_ascii in *. simpl. now rewrite Hc, IH.
Qed.

Lemma is_ascii_trim s :
  Text.is_ascii s = true -> Text.is_ascii (Js.trim s) = true.
Proof. intros H. now apply is_ascii_rtrim, is_ascii_ltrim. Qed.

(** X11.  What the form stores is what the chains accepted, trimmed, for
    text within ASCII: when every stored message has a name, a subject and
    a text within ASCII, without surrounding white space and within the
    lengths of the chains (2-50, 5-100, 10-1000), and an address the email
    chain accepts, then so has every message after any sequence of
    submissions whose name, subject and text are within ASCII. *)
Theorem stored_messages_are_clean st calls :
  forallb (fun c => Text.plain_body (snd c)) calls = true ->
  forallb (fun m => (Text.plain_message m && ContactAdmin.clean isEmail m)%bool)
    (contactMessages st) = true ->
  forallb (fun m => (Text.plain_message m && ContactAdmin.clean isEmail m)%bool)
    (contactMessages (ContactAdmin.submit_all isEmail st calls))
  = true.
Proof.
  revert st. induction calls as [|[sendMail raw] calls IH];
    intros st Hplain Hc; simpl; [exact Hc|].
  simpl in Hplain. apply andb_prop in Hplain as [Hraw Hplain].
  apply IH; [exact Hplain|]. unfold submit.
  destruct (validate isEmail (sanitize raw)) eqn:Hv; simpl; [|exact Hc].
  rewrite forallb_app, Hc. simpl. rewrite andb_true_r.
  unfold Text.plain_body in Hraw.
  apply andb_prop in Hraw as [Hraw Hmessage].
  apply andb_prop in Hraw as [Hname Hsubject].
  unfold Text.plain_message. simpl.
  rewrite !is_ascii_trim by assumption. simpl.
  unfold validate, Validator.check in Hv. simpl in Hv.
  unfold ContactAdmin.clean. simpl.
  rewrite !JsFacts.trim_idempotent, !String.eqb_refl.
  destruct (Validator.isLength 2 (Some 50%nat) (Js.trim (name raw)));
    [|discriminate].
  destruct (isEmail (email raw)); [|discriminate].
  destruct (Validator.isLength 5 (Some 100%nat) (Js.trim (subject raw)));
    [|discriminate].
  destruct (Validator.isLength 10 (Some 1000%nat) (Js.trim (message raw)));
    [|discriminate].
  reflexivity.
Qed.

End Form.

Lemma delete_first_appended {A : Type} (p : A -> bool) l n :
  (forall x, In x l -> p x = false) ->
  p n = true ->
  ContactAdmin.delete_first p (l ++ [n]) = Some l.
Proof.
  intros Hl Hn. induction l as [|x l IH]; simpl.
  - now rewrite Hn.
  - rewrite (Hl x) by now left.
    rewrite IH; [reflexivity|]. intros y Hy. apply Hl. now right.
Qed.

Lemma delete_first_none {A : Type} (p : A -> bool) l :
  ContactAdmin.delete_first p l = None <-> existsb p l = false.
Proof.
  induction l as [|x l IH]; simpl; [tauto|].
  destruct (p x); simpl; [split; discriminate|].
  destruct (ContactAdmin.delete_first p l); split; intros H;
    try discriminate; try reflexivity.
  - apply IH in H. discriminate.
  - now apply IH.
Qed.

Lemma filter_keeps_all {A : Type} (p : A -> bool) l :
  existsb p l = false -> filter (fun x => negb (p x)) l = l.
Proof.
  induction l as [|x l IH]; simpl; [reflexivity|].
  intros [Hx Hl]%orb_false_elim. rewrite Hx. simpl. now rewrite IH.
Qed.

Lemma existsb_filter {A : Type} (p q : A -> bool) l :
  existsb p l = false -> existsb p (filter q l) = false.
Proof.
  induction l as [|x l IH]; simpl; [reflexivity|].
  intros [Hx Hl]%orb_false_elim.
  destruct (q x); simpl; [rewrite Hx|]; auto.
Qed.

(** Deleting by key from a table with distinct keys drops every row with
    the key and keeps the others in their order. *)
Lemma delete_first_distinct l id ms :
  ContactAdmin.keys_distinct l = true ->
  ContactAdmin.delete_first (ContactAdmin.has_message_id id) l = Some ms ->
  existsb (ContactAdmin.has_message_id id) ms = false
  /\ ms = filter (fun m => negb (ContactAdmin.has_message_id id m)) l
  /\ ContactAdmin.keys_distinct ms = true.
Proof.
  revert ms. induction l as [|x l IH]; simpl; intros ms Hd H;
    [discriminate|].
  apply andb_prop in Hd as [Hx Hl]. apply negb_true_iff in Hx.
  destruct (ContactAdmin.has_message_id id x) eqn:Hid.
  - injection H as <-. simpl.
    unfold ContactAdmin.has_message_id in Hid. apply N.eqb_eq in Hid. subst id.
    repeat split; trivial.
    symmetry. now apply filter_keeps_all.
  - destruct (ContactAdmin.delete_first (ContactAdmin.has_message_id id) l) as [r|]; [|discriminate].
    injection H as <-. destruct (IH r Hl eq_refl) as (Hnone & Hr & Hdr).
    simpl. rewrite Hid, Hnone, Hdr. simpl.
    repeat split; [now rewrite <- Hr|].
    rewrite Hr. rewrite existsb_filter by exact Hx. reflexivity.
Qed.

(** X12.  [DELETE /:id] of a contact message: when no stored message has
    the key the answer is 500 and the store is as before; when one has it,
    in a table with distinct keys, the answer is 200, afterwards no stored
    message has the key, every other message is kept in its place, nothing
    else in the store changes, and deleting the same key again is answered
    with 500. *)
Theorem remove_outcomes st id :
  ContactAdmin.keys_distinct (contactMessages st) = true ->
  (existsb (ContactAdmin.has_message_id id) (contactMessages st) = false ->
   ContactAdmin.remove st id = (ContactAdmin.json 500 (ContactAdmin.Error "Failed to delete message"), st))
  /\ (existsb (ContactAdmin.has_message_id id) (contactMessages st) = true ->
      fst (ContactAdmin.remove st id) = ContactAdmin.json 200 (ContactAdmin.Message "Message deleted successfully")
      /\ contactMessages (snd (ContactAdmin.remove st id))
         = filter (fun m => negb (ContactAdmin.has_message_id id m)) (contactMessages st)
      /\ existsb (ContactAdmin.has_message_id id) (contactMessages (snd (ContactAdmin.remove st id)))
         = false
      /\ events (snd (ContactAdmin.remove st id)) = events st
      /\ users (snd (ContactAdmin.remove st id)) = users st
      /\ eventRegistrations (snd (ContactAdmin.remove st id)) = eventRegistrations st
      /\ ContactAdmin.remove (snd (ContactAdmin.remove st id)) id
         = (ContactAdmin.json 500 (ContactAdmin.Error "Failed to delete message"), snd (ContactAdmin.remove st id))).
Proof.
  intros Hd. unfold ContactAdmin.remove, ContactAdmin.contactMessage_delete. split; intros Hex.
  - apply delete_first_none in Hex. now rewrite Hex.
  - destruct (ContactAdmin.delete_first (ContactAdmin.has_message_id id) (contactMessages st))
      as [ms|] eqn:Hdel.
    2:{ apply delete_first_none in Hdel. congruence. }
    destruct (delete_first_distinct _ _ _ Hd Hdel) as (Hnone & Hms & _).
    simpl. repeat split; trivial.
    apply delete_first_none in Hnone. now rewrite Hnone.
Qed.

(** X13.  Submitting and deleting round-trip: the key a 201 carries is the
    key of the stored message, and deleting that key right after the
    submission restores the messages that were stored before (only the
    counter of the keys has moved). *)
Theorem submit_then_remove isEmail sendMail st raw :
  ContactAdmin.keys_issued st = true ->
  validate isEmail (sanitize raw) = [] ->
  let st1 := snd (fst (submit isEmail sendMail st raw)) in
  fst (fst (submit isEmail sendMail st raw))
  = json 201
      (Submitted "Contact form submitted successfully" (nextMessageId st))
  /\ ContactAdmin.remove st1 (nextMessageId st)
     = (ContactAdmin.json 200 (ContactAdmin.Message "Message deleted successfully"),
        mkStore (events st) (users st) (eventRegistrations st)
          (contactMessages st) (nextUserId st) (nextRegistrationId st)
          (N.succ (nextMessageId st))).
Proof.
  intros Hi Hv st1. subst st1. unfold submit. rewrite Hv. simpl.
  split; [reflexivity|].
  unfold ContactAdmin.remove, ContactAdmin.contactMessage_delete. simpl.
  rewrite delete_first_appended; trivial.
  - now apply issued_key_is_new.
  - unfold ContactAdmin.has_message_id. simpl. apply N.eqb_refl.
Qed.

End ContactMessages.

(** ** The further properties on concrete stores *)

Module Scenario2.

Import Prisma Events Example Sample.

(** Ann registers under another senecaId, the listing is read and Alice
    registers: Ann and Alice are the two users, and they share neither an
    email nor a senecaId. *)
Lemma ann_and_alice_stay_distinct :
  forallb Integrity.no_update two_registrations = true
  /\ Integrity.keys_distinct (users ann_known) = true
  /\ Integrity.keys_distinct
       (users (snd (Service.exec_all isEmail isISO8601 ann_known
                      two_registrations))) = true.
Proof.
  split; [reflexivity|]. split; [reflexivity|].
  apply (StoreIntegrity.users_keep_distinct_keys isEmail isISO8601 ann_known
           two_registrations); reflexivity.
Defined.

(** After the same requests every registration still refers to a stored
    user and to the workshop. *)
Lemma ann_registered_stays_well_formed :
  forallb Integrity.no_update two_registrations = true
  /\ Invariant.well_formed ann_registered = true
  /\ forall r,
       In r (eventRegistrations
               (snd (Service.exec_all isEmail isISO8601 ann_registered
                       two_registrations))) ->
       (exists u,
          In u (users (snd (Service.exec_all isEmail isISO8601 ann_registered
                              two_registrations)))
          /\ User.id u = EventRegistration.userId r)
       /\ (exists e,
             In e (events (snd (Service.exec_all isEmail isISO8601
                                  ann_registered two_registrations)))
             /\ Event.id e = EventRegistration.eventId r).
Proof.
  split; [reflexivity|]. split; [reflexivity|].
  apply (StoreIntegrity.requests_keep_store_well_formed isEmail isISO8601
           ann_registered two_registrations); reflexivity.
Defined.

(** Ann, who is registered, asks again under another senecaId: she is not
    registered twice. *)
Lemma ann_registered_once :
  forallb Integrity.no_update two_registrations = true
  /\ Invariant.well_formed ann_registered = true
  /\ Integrity.pairs_distinct (eventRegistrations ann_registered) = true
  /\ Integrity.pairs_distinct
       (eventRegistrations
          (snd (Service.exec_all isEmail isISO8601 ann_registered
                  two_registrations)))
     = true.
Proof.
  split; [reflexivity|]. split; [reflexivity|]. split; [reflexivity|].
  apply (StoreIntegrity.registrations_keep_distinct_pairs isEmail isISO8601
           ann_registered two_registrations); reflexivity.
Defined.

(** Alice is new to the workshop with one seat.  When the creation of her
    registration fails she is left as a user without a registration; when
    the increment fails she is registered and the counter still shows 0. *)
Lemma alice_is_left_behind :
  validate isEmail (sanitize alice) = []
  /\ event_findUnique one_seat 1 = Some (workshop (Some 1) 0)
  /\ Invariant.resolve one_seat alice = None
  /\ (status (fst (Faults.interrupted isEmail 3 one_seat at_noon 1 alice))
      = 500
      /\ List.length
           (users (snd (Faults.interrupted isEmail 3 one_seat at_noon 1 alice)))
         = 1%nat
      /\ eventRegistrations
           (snd (Faults.interrupted isEmail 3 one_seat at_noon 1 alice))
         = [])
  /\ (status (fst (Faults.interrupted isEmail 4 one_seat at_noon 1 alice))
      = 500
      /\ eventRegistrations
           (snd (Faults.interrupted isEmail 4 one_seat at_noon 1 alice))
         = [EventRegistration.mk 1 1 1 1200]
      /\ events (snd (Faults.interrupted isEmail 4 one_seat at_noon 1 alice))
         = [workshop (Some 1) 0]).
Proof.
  split; [reflexivity|]. split; [reflexivity|]. split; [reflexivity|].
  destruct (RegistrationEffects.register_interrupted isEmail 0 one_seat
              at_noon 1 alice) as (_ & _ & _ & _ & Hleft & _).
  destruct (Hleft (workshop (Some 1) 0) eq_refl eq_refl eq_refl eq_refl)
    as ((H3 & Hu3 & Hr3) & (H4 & _ & Hr4 & He4)).
  split; [split; [exact H3|split; [now rewrite Hu3|exact Hr3]]|].
  split; [exact H4|split; [exact Hr4|exact He4]].
Defined.

(** The name of Alice, as the chain leaves it *)
Lemma alice_van_dam :
  Text.padded (name (sanitize alice)) = false
  /\ name (sanitize alice) = "Alice Van Dam"
  /\ d_firstName (new_user at_noon (sanitize alice)) = "Alice"
  /\ d_lastName (new_user at_noon (sanitize alice)) = "Van Dam"
  /\ name (sanitize alice)
     = (d_firstName (new_user at_noon (sanitize alice))
        ++ (if String.eqb (d_lastName (new_user at_noon (sanitize alice))) ""
            then ""
            else " " ++ d_lastName (new_user at_noon (sanitize alice))))%string.
Proof.
  split; [reflexivity|]. split; [reflexivity|]. split; [reflexivity|].
  split; [reflexivity|].
  exact (proj1 (RegistrationEffects.created_user_names at_noon
                  (sanitize alice) eq_refl)).
Defined.

(** The two requests for the single seat, resumed in turn: the counter and
    the rows both end two above where they started. *)
Lemma overbooked_but_counted :
  event_findUnique one_seat 1 = Some (workshop (Some 1) 0)
  /\ exists e',
      event_findUnique
        (fst (Concurrent.run alternate one_seat
                (Integrity.arrive isEmail two_arrivals))) 1 = Some e'
      /\ Event.maxCapacity e' = Event.maxCapacity (workshop (Some 1) 0)
      /\ Event.currentCapacity e'
         = Event.currentCapacity (workshop (Some 1) 0)
           + Integrity.total (Integrity.answered_201 1)
               (snd (Concurrent.run alternate one_seat
                       (Integrity.arrive isEmail two_arrivals)))
      /\ Integrity.rows
           (fst (Concurrent.run alternate one_seat
                   (Integrity.arrive isEmail two_arrivals))) 1
         = Integrity.rows one_seat 1
           + Integrity.total (Integrity.answered_201 1)
               (snd (Concurrent.run alternate one_seat
                       (Integrity.arrive isEmail two_arrivals)))
           + Integrity.total (Integrity.awaiting_increment 1)
               (snd (Concurrent.run alternate one_seat
                       (Integrity.arrive isEmail two_arrivals)))
      /\ (Integrity.all_answered
            (snd (Concurrent.run alternate one_seat
                    (Integrity.arrive isEmail two_arrivals))) = true ->
          Integrity.rows
            (fst (Concurrent.run alternate one_seat
                    (Integrity.arrive isEmail two_arrivals))) 1
          - Integrity.rows one_seat 1
          = Event.currentCapacity e'
            - Event.currentCapacity (workshop (Some 1) 0)).
Proof.
  split; [reflexivity|].
  apply (Ledger.counter_follows_registrations isEmail one_seat 1
           (workshop (Some 1) 0) two_arrivals alternate); reflexivity.
Defined.


(** The two messages of the inbox are within ASCII and as the form accepts
    them, and so is the one the submissions add. *)
Lemma inbox_stays_clean :
  forallb (fun c => Text.plain_body (snd c)) two_submissions = true
  /\ forallb
       (fun m => (Text.plain_message m && ContactAdmin.clean isEmail m)%bool)
       (contactMessages inbox) = true
  /\ forallb
       (fun m => (Text.plain_message m && ContactAdmin.clean isEmail m)%bool)
       (contactMessages (ContactAdmin.submit_all isEmail inbox two_submissions))
     = true.
Proof.
  split; [reflexivity|]. split; [reflexivity|].
  apply (ContactMessages.stored_messages_are_clean isEmail inbox
           two_submissions); reflexivity.
Defined.

(** Deleting the first of the two messages, and deleting it again *)
Lemma dana_is_deleted_once :
  ContactAdmin.keys_distinct (contactMessages inbox) = true
  /\ existsb (ContactAdmin.has_message_id 1) (contactMessages inbox) = true
  /\ fst (ContactAdmin.remove inbox 1)
     = ContactAdmin.json 200
         (ContactAdmin.Message "Message deleted successfully")
  /\ contactMessages (snd (ContactAdmin.remove inbox 1))
     = [ContactMessage.mk 2 "Evan" "evan@myseneca.ca" "Lab tour"
          "Is the lab tour open to first years?"]
  /\ ContactAdmin.remove (snd (ContactAdmin.remove inbox 1)) 1
     = (ContactAdmin.json 500
          (ContactAdmin.Error "Failed to delete message"),
        snd (ContactAdmin.remove inbox 1)).
Proof.
  split; [reflexivity|]. split; [reflexivity|].
  destruct (proj2 (ContactMessages.remove_outcomes inbox 1 eq_refl) eq_refl)
    as (H1 & H2 & _ & _ & _ & _ & H7).
  split; [exact H1|]. split; [exact H2|exact H7].
Defined.

Lemma dana_writes_and_is_deleted :
  ContactAdmin.keys_issued inbox = true
  /\ Contact.validate isEmail (Contact.sanitize hello) = []
  /\ fst (fst (Contact.submit isEmail bounces inbox hello))
     = json 201 (Submitted "Contact form submitted successfully" 3)
  /\ ContactAdmin.remove
       (snd (fst (Contact.submit isEmail bounces inbox hello))) 3
     = (ContactAdmin.json 200
          (ContactAdmin.Message "Message deleted successfully"),
        mkStore [] [] [] (contactMessages inbox) 1 1 4).
Proof.
  split; [reflexivity|]. split; [reflexivity|].
  apply (ContactMessages.submit_then_remove isEmail bounces inbox hello);
    reflexivity.
Defined.

End Scenario2.

(** ** Facts about the array helpers *)

Module JsArrayFacts.

Import JsArray.

Section Arrays.

Context {A : Type}.
Implicit Types (p q : A -> bool) (a : list A).

Lemma findIndex_none p a :
  findIndex p a = None <-> existsb p a = false.
Proof.
  induction a as [|x a IH]; simpl; [tauto|].
  destruct (p x); simpl; [split; discriminate|].
  destruct (findIndex p a); simpl; split; intros H;
    try discriminate; try reflexivity.
  - apply IH in H. discriminate.
  - now apply IH.
Qed.

(** The index [findIndex] returns is the place of the element [find]
    returns. *)
Lemma findIndex_some p a i :
  findIndex p a = Some i ->
  exists x, nth_error a i = Some x /\ find p a = Some x /\ p x = true.
Proof.
  revert i. induction a as [|x a IH]; simpl; intros i H; [discriminate|].
  destruct (p x) eqn:Hx.
  - injection H as <-. exists x. auto.
  - destruct (findIndex p a) as [j|]; [|discriminate].
    injection H as <-. simpl. now apply IH.
Qed.

Lemma find_some_findIndex p a x :
  find p a = Some x -> exists i, findIndex p a = Some i.
Proof.
  intros H. destruct (findIndex p a) as [i|] eqn:Hi; [eauto|].
  apply findIndex_none in Hi.
  apply find_some in H as [Hin Hp].
  assert (existsb p a = true) by (apply existsb_exists; eauto).
  congruence.
Qed.

Lemma assign_length i v a : List.length (assign i v a) = List.length a.
Proof.
  revert i. induction a as [|x a IH]; intros [|i]; simpl; auto.
Qed.

(** Replacing the first match by an element that still matches: [find]
    returns the replacement. *)
Lemma find_assign_same p a i v :
  findIndex p a = Some i -> p v = true ->
  find p (assign i v a) = Some v.
Proof.
  revert i. induction a as [|x a IH]; simpl; intros i H Hv; [discriminate|].
  destruct (p x) eqn:Hx.
  - injection H as <-. simpl. now rewrite Hv.
  - destruct (findIndex p a) as [j|]; [|discriminate].
    injection H as <-. simpl. rewrite Hx. now apply IH.
Qed.

(** Another lookup does not see the replacement when neither the old nor
    the new element answers it. *)
Lemma find_assign_other p q a i v :
  findIndex p a = Some i ->
  (forall x, p x = true -> q x = false) ->
  q v = false ->
  find q (assign i v a) = find q a.
Proof.
  revert i. induction a as [|x a IH]; simpl; intros i H Hpq Hv;
    [discriminate|].
  destruct (p x) eqn:Hx.
  - injection H as <-. simpl. now rewrite Hv, (Hpq x Hx).
  - destruct (findIndex p a) as [j|]; [|discriminate].
    injection H as <-. simpl. now rewrite (IH j).
Qed.

(** Removing the first match: what is left is what does not match, when at
    most one element matches. *)
Lemma splice1_findIndex p a i :
  findIndex p a = Some i ->
  (forall x, p x = true -> existsb p (splice1 i a) = false) ->
  splice1 i a = filter (fun x => negb (p x)) a.
Proof.
  revert i. induction a as [|x a IH]; simpl; intros i H Hone;
    [discriminate|].
  destruct (p x) eqn:Hx.
  - injection H as <-. simpl in *. specialize (Hone x Hx).
    clear - Hone. induction a as [|y a IH]; simpl in *; [reflexivity|].
    apply orb_false_elim in Hone as [Hy Ha]. rewrite Hy. simpl.
    now rewrite <- IH.
  - destruct (findIndex p a) as [j|] eqn:Hj; [|discriminate].
    injection H as <-. simpl in *. f_equal. apply IH; [reflexivity|].
    intros y Hy. specialize (Hone y Hy).
    now apply orb_false_elim in Hone.
Qed.

Lemma splice1_other p q a i :
  findIndex p a = Some i ->
  (forall x, p x = true -> q x = false) ->
  find q (splice1 i a) = find q a.
Proof.
  revert i. induction a as [|x a IH]; simpl; intros i H Hpq; [discriminate|].
  destruct (p x) eqn:Hx.
  - injection H as <-. simpl. now rewrite (Hpq x Hx).
  - destruct (findIndex p a) as [j|]; [|discriminate].
    injection H as <-. simpl. now rewrite (IH j).
Qed.

End Arrays.

(** *** The values of a set, in the order of their first occurrence *)

Lemma uniq_from_spec seen a x :
  In x (uniq_from seen a) <-> In x a /\ ~ In x seen.
Proof.
  revert seen. induction a as [|y a IH]; intros seen; simpl; [tauto|].
  destruct (existsb (String.eqb y) seen) eqn:Hy.
  - apply existsb_exists in Hy as (z & Hz & Heq%String.eqb_eq). subst z.
    rewrite IH. split.
    + intros [H1 H2]. auto.
    + intros [[->|H1] H2]; [contradiction|auto].
  - assert (Hny : ~ In y seen).
    { intros Hin. apply not_true_iff_false in Hy. apply Hy.
      apply existsb_exists. exists y. split; [exact Hin|].
      apply String.eqb_refl. }
    simpl. rewrite IH. simpl. split.
    + intros [->|[H1 H2]]; [auto|]. split; [auto|]. intros H; apply H2; auto.
    + intros [[->|H1] H2]; [auto|].
      destruct (string_dec y x) as [->|Hne]; [auto|].
      right. split; [exact H1|]. intros [H|H]; auto.
Qed.

Lemma uniq_from_NoDup seen a : NoDup (uniq_from seen a).
Proof.
  revert seen. induction a as [|y a IH]; intros seen; simpl; [constructor|].
  destruct (existsb (String.eqb y) seen); [apply IH|].
  constructor; [|apply IH].
  intros [_ H]%uniq_from_spec. apply H. now left.
Qed.

Lemma uniq_In a x : In x (uniq a) <-> In x a.
Proof. unfold uniq. rewrite uniq_from_spec. simpl. tauto. Qed.

Lemma uniq_NoDup a : NoDup (uniq a).
Proof. apply uniq_from_NoDup. Qed.

(** *** Slices *)

Lemma firstn_skipn_short {B : Type} (n m : nat) (l : list B) :
  (List.length l - m <= n)%nat ->
  firstn n (skipn m l) = skipn m l.
Proof.
  intros H. apply firstn_all2. rewrite length_skipn. exact H.
Qed.

(** A slice from a start within or beyond the array, of a positive
    length: so many elements after skipping the start. *)
Lemma slice_window {B : Type} (start size : Z) (l : list B) :
  0 <= start -> 0 <= size ->
  slice (Some start) (Some (start + size)) l
  = firstn (Z.to_nat size) (skipn (Z.to_nat start) l).
Proof.
  intros Hs Hz. unfold slice, relative.
  destruct (Z.ltb_spec start 0) as [|_]; [lia|].
  destruct (Z.ltb_spec (start + size) 0) as [|_]; [lia|].
  set (len := Z.of_nat (List.length l)).
  destruct (Z.le_gt_cases len start) as [Hbeyond|Hwithin].
  - rewrite (Z.min_r start len) by lia.
    rewrite (Z.min_r (start + size) len) by lia.
    rewrite Z.sub_diag. simpl.
    rewrite (skipn_all2 l (n := Z.to_nat start)) by (subst len; lia).
    now rewrite firstn_nil.
  - rewrite (Z.min_l start len) by lia.
    destruct (Z.le_gt_cases (start + size) len) as [Hfits|Hcut].
    + rewrite (Z.min_l (start + size) len) by lia.
      f_equal. lia.
    + rewrite (Z.min_r (start + size) len) by lia.
      rewrite !firstn_skipn_short; trivial; subst len; lia.
Qed.

(** Consecutive runs of the same positive length, enough of them, give the
    list back. *)
Lemma runs_concat {B : Type} (size n : nat) (l : list B) :
  (0 < size)%nat ->
  (List.length l <= n * size)%nat ->
  List.concat (map (fun k => firstn size (skipn (k * size) l)) (seq 0 n)) = l.
Proof.
  intros Hsize. revert l. induction n as [|n IH]; intros l Hlen; simpl.
  - destruct l; [reflexivity|simpl in Hlen; lia].
  - rewrite <- seq_shift, map_map.
    transitivity (firstn size l ++ skipn size l)%list;
      [|apply firstn_skipn].
    f_equal.
    etransitivity;
      [|apply (IH (skipn size l)); rewrite length_skipn; simpl in Hlen; lia].
    apply (f_equal (@List.concat B)). apply map_ext. intros k.
    simpl. now rewrite skipn_skipn, Nat.add_comm.
Qed.

End JsArrayFacts.

(** ** The blog posts in their file *)

Module BlogPosts.

Import Blog.

Local Abbreviation not_found := (json 404 (Error "Blog post not found")).

(** The first element that [p] accepts, with what precedes and follows
    it *)
Lemma first_match {A : Type} (p : A -> bool) (a : list A) i :
  JsArray.findIndex p a = Some i ->
  exists before x after,
    a = (before ++ x :: after)%list
    /\ existsb p before = false
    /\ p x = true
    /\ nth_error a i = Some x
    /\ (forall v, JsArray.assign i v a = (before ++ v :: after)%list)
    /\ JsArray.splice1 i a = (before ++ after)%list.
Proof.
  revert i. induction a as [|y a IH]; simpl; intros i H; [discriminate|].
  destruct (p y) eqn:Hy.
  - injection H as <-. exists [], y, a. simpl. repeat split; trivial.
  - destruct (JsArray.findIndex p a) as [j|]; [|discriminate].
    injection H as <-.
    destruct (IH j eq_refl) as (before & x & after & -> & Hb & Hx & Hn & Ha & Hs).
    exists (y :: before), x, after. simpl. rewrite Hy, Hb, Hs.
    repeat split; trivial. intros v. now rewrite Ha.
Qed.

Lemma existsb_has_id_find id posts :
  existsb (has_id id) posts = false -> find (has_id id) posts = None.
Proof. apply PrismaFacts.find_none_existsb. Qed.

(** X14.  A request for an id that no stored post has is answered with 404
    by [GET /:id], [PUT /:id] (on a body the chains accept), [DELETE /:id]
    and [PATCH /:id/publish], and none of them writes the file: a missing or
    unparseable file is left as it is. *)
Theorem unknown_post_is_not_found f id :
  existsb (has_id id) (readBlogPosts f) = false ->
  getPost f id = not_found
  /\ (forall now raw,
        snd (updatePost f now id raw) = f
        /\ (validate_update (sanitize_update raw) = [] ->
            fst (updatePost f now id raw) = not_found))
  /\ deletePost f id = (not_found, f)
  /\ (forall now now' isPublished,
        publishPost f now now' id isPublished = (not_found, f)).
Proof.
  intros Hnone.
  pose proof (proj2 (JsArrayFacts.findIndex_none _ _) Hnone) as Hidx.
  repeat split.
  - unfold getPost. now rewrite (existsb_has_id_find _ _ Hnone).
  - unfold updatePost.
    destruct (validate_update (sanitize_update raw)); [|reflexivity].
    now rewrite Hidx.
  - intros Hv. unfold updatePost. now rewrite Hv, Hidx.
  - unfold deletePost. now rewrite Hidx.
  - unfold publishPost. now rewrite Hidx.
Qed.

(** X15.  Creating and reading round-trip: a body the chains of [POST /]
    accept, with an id no stored post has, is answered with 201 and the
    post; the file then holds the posts it held followed by the new one
    (a missing or unparseable file becomes the file of that one post),
    [GET /:id] of the new id returns the post, and every other id is
    answered as before. *)
Theorem create_then_get f env raw :
  validate_create (sanitize_create raw) = [] ->
  existsb (has_id (uuid env)) (readBlogPosts f) = false ->
  exists post,
    fst (createPost f env raw) = json 201 (PostJson post)
    /\ Post.id post = uuid env
    /\ snd (createPost f env raw) = Stored (readBlogPosts f ++ [post])
    /\ getPost (snd (createPost f env raw)) (uuid env) = json 200 (PostJson post)
    /\ (forall id, id <> uuid env ->
        getPost (snd (createPost f env raw)) id = getPost f id).
Proof.
  intros Hv Hfresh. unfold createPost. rewrite Hv. simpl.
  eexists. split; [reflexivity|]. split; [reflexivity|].
  split; [reflexivity|]. split.
  - unfold getPost. simpl.
    rewrite (PrismaFacts.find_app_none _ _ _ (existsb_has_id_find _ _ Hfresh)).
    simpl. unfold has_id at 1. simpl. now rewrite String.eqb_refl.
  - intros id Hne. unfold getPost. simpl.
    destruct (find (has_id id) (readBlogPosts f)) as [p|] eqn:Hf.
    + now rewrite (PrismaFacts.find_app_some _ _ _ _ Hf).
    + rewrite (PrismaFacts.find_app_none _ _ _ Hf). simpl.
      unfold has_id at 1. simpl.
      apply not_eq_sym, String.eqb_neq in Hne. now rewrite Hne.
Qed.

(** X16.  [PUT /:id], [PATCH /:id/publish] and [DELETE /:id] act on the
    first stored post with the id, in place: the posts before it and after
    it are written back as they were, in their order; the update and the
    publication replace it by the post they answer with (stamped with the
    clock as [updatedAt]), the deletion drops it. *)
Theorem first_post_with_id_in_place f id old :
  find (has_id id) (readBlogPosts f) = Some old ->
  exists before after,
    readBlogPosts f = (before ++ old :: after)%list
    /\ existsb (has_id id) before = false
    /\ (forall now raw,
          validate_update (sanitize_update raw) = [] ->
          updatePost f now id raw
          = (json 200 (PostJson (spread old (sanitize_update raw) now)),
             Stored (before ++ spread old (sanitize_update raw) now :: after))
          /\ Post.updatedAt (spread old (sanitize_update raw) now) = now)
    /\ (forall now now' isPublished,
          publishPost f now now' id isPublished
          = (json 200 (PostJson (republish old isPublished now now')),
             Stored (before ++ republish old isPublished now now' :: after)))
    /\ deletePost f id
       = (json 200 (Message "Blog post deleted successfully"),
          Stored (before ++ after)).
Proof.
  intros Hold.
  destruct (JsArrayFacts.find_some_findIndex _ _ _ Hold) as [i Hi].
  destruct (first_match _ _ _ Hi)
    as (before & x & after & Hposts & Hb & Hx & Hn & Ha & Hs).
  assert (x = old) as ->.
  { rewrite Hposts in Hold.
    rewrite (PrismaFacts.find_app_none _ _ _ (existsb_has_id_find _ _ Hb))
      in Hold.
    simpl in Hold. rewrite Hx in Hold. congruence. }
  exists before, after.
  split; [exact Hposts|]. split; [exact Hb|]. split; [|split].
  - intros now raw Hv. split; [|reflexivity].
    unfold updatePost. rewrite Hv. simpl. rewrite Hi, Hn.
    unfold writeBlogPosts. now rewrite Ha.
  - intros now now' isPublished.
    unfold publishPost. simpl. rewrite Hi, Hn.
    unfold writeBlogPosts. now rewrite Ha.
  - unfold deletePost. simpl. rewrite Hi.
    unfold writeBlogPosts. now rewrite Hs.
Qed.

(** X17.  Publication decides what [GET /:id] serves.  After
    [PATCH /:id/publish] of a stored post, [GET /:id] answers 404 when the
    flag was false or absent, and the post with the flag set and
    [publishedAt] at the clock reading of the request when the flag was
    true; the former publication date is not kept.  The ids of the stored
    posts and the answers for every other id are unchanged. *)
Theorem publication_decides_visibility f now now' id isPublished old :
  find (has_id id) (readBlogPosts f) = Some old ->
  let f' := snd (publishPost f now now' id isPublished) in
  let post := republish old isPublished now now' in
  getPost f' id
  = (if published post then json 200 (PostJson post) else not_found)
  /\ published post = match isPublished with Some true => true | _ => false end
  /\ Post.publishedAt post
     = match isPublished with Some true => Some now | _ => None end
  /\ map Post.id (readBlogPosts f') = map Post.id (readBlogPosts f)
  /\ (forall id', id' <> id -> getPost f' id' = getPost f id').
Proof.
  intros Hold f' post. subst f'.
  destruct (JsArrayFacts.find_some_findIndex _ _ _ Hold) as [i Hi].
  destruct (first_match _ _ _ Hi)
    as (before & x & after & Hposts & Hb & Hx & Hn & Ha & Hs).
  assert (x = old) as ->.
  { destruct (JsArrayFacts.findIndex_some _ _ _ Hi) as (y & Hy & Hf & _).
    congruence. }
  assert (Hid : has_id id post = true) by exact Hx.
  unfold publishPost. rewrite Hi, Hn. simpl. fold post.
  split; [|split; [|split; [|split]]].
  - unfold getPost. simpl.
    now rewrite (JsArrayFacts.find_assign_same _ _ _ _ Hi Hid).
  - unfold published, post. simpl. now destruct isPublished as [[|]|].
  - reflexivity.
  - rewrite Ha, Hposts, !map_app. reflexivity.
  - intros id' Hne. unfold getPost. simpl.
    rewrite (JsArrayFacts.find_assign_other (has_id id) (has_id id'));
      trivial.
    + unfold has_id. intros y Hy%String.eqb_eq.
      apply String.eqb_neq. congruence.
    + unfold has_id in *. apply String.eqb_eq in Hid.
      apply String.eqb_neq. congruence.
Qed.

Lemma existsb_splice1 {A : Type} (q : A -> bool) i a :
  existsb q a = false -> existsb q (JsArray.splice1 i a) = false.
Proof.
  revert i. induction a as [|x a IH]; intros [|i]; simpl; trivial.
  - now intros [_ H]%orb_false_elim.
  - intros [Hx H]%orb_false_elim. rewrite Hx. simpl. auto.
Qed.

Lemma splice1_distinct posts id i :
  ids_distinct posts = true ->
  JsArray.findIndex (has_id id) posts = Some i ->
  existsb (has_id id) (JsArray.splice1 i posts) = false
  /\ ids_distinct (JsArray.splice1 i posts) = true.
Proof.
  revert i. induction posts as [|x a IH]; simpl; intros i Hd H;
    [discriminate|].
  apply andb_prop in Hd as [Hx Ha]. apply negb_true_iff in Hx.
  destruct (has_id id x) eqn:Hid.
  - injection H as <-. simpl. split; [|exact Ha].
    unfold has_id in Hid. apply String.eqb_eq in Hid. now subst id.
  - destruct (JsArray.findIndex (has_id id) a) as [j|]; [|discriminate].
    injection H as <-. destruct (IH j Ha eq_refl) as [H1 H2].
    simpl. rewrite Hid, H1, H2, (existsb_splice1 _ j a Hx). auto.
Qed.

(** X18.  Deleting a stored post from a file in which the ids are distinct:
    the answer is 200, the file then holds exactly the posts with another
    id, in their order and with distinct ids; [GET /:id] and a second
    [DELETE /:id] of the id are answered with 404, and every other id is
    served as before. *)
Theorem deleted_post_is_gone f id :
  ids_distinct (readBlogPosts f) = true ->
  existsb (has_id id) (readBlogPosts f) = true ->
  let f' := snd (deletePost f id) in
  fst (deletePost f id) = json 200 (Message "Blog post deleted successfully")
  /\ readBlogPosts f'
     = filter (fun p => negb (has_id id p)) (readBlogPosts f)
  /\ ids_distinct (readBlogPosts f') = true
  /\ getPost f' id = not_found
  /\ deletePost f' id = (not_found, f')
  /\ (forall id', id' <> id -> getPost f' id' = getPost f id').
Proof.
  intros Hd Hex f'. subst f'. unfold deletePost.
  destruct (JsArray.findIndex (has_id id) (readBlogPosts f)) as [i|] eqn:Hi.
  2:{ apply JsArrayFacts.findIndex_none in Hi. congruence. }
  destruct (splice1_distinct _ _ _ Hd Hi) as [Hgone Hd'].
  simpl. repeat split; trivial.
  - apply JsArrayFacts.splice1_findIndex; [exact Hi|]. intros _ _. exact Hgone.
  - unfold getPost. simpl.
    now rewrite (existsb_has_id_find _ _ Hgone).
  - apply JsArrayFacts.findIndex_none in Hgone. now rewrite Hgone.
  - intros id' Hne. unfold getPost. simpl.
    rewrite (JsArrayFacts.splice1_other (has_id id) (has_id id')); trivial.
    unfold has_id. intros y Hy%String.eqb_eq.
    apply String.eqb_neq. congruence.
Qed.

End BlogPosts.

(** ** The listing, the tags and the simplified creation of the blog *)

Module BlogListing.

Import Blog.

(** X19.  [GET /tags/all] answers with exactly the tags of the published
    posts, each once and none empty: a name is listed if and only if it is
    not the empty string and is a tag of some published post (an element
    of its array, or a trimmed piece of its comma-separated string). *)
Theorem tagsAll_distinct_tags_of_published f :
  exists names,
    tagsAll f = json 200 (TagNames names)
    /\ NoDup names
    /\ (forall t,
          In t names
          <-> t <> ""
              /\ exists p, In p (readBlogPosts f)
                           /\ published p = true
                           /\ In t (tags_of p)).
Proof.
  eexists. split; [reflexivity|]. split.
  - apply NoDup_filter, JsArrayFacts.uniq_NoDup.
  - intros t. rewrite filter_In, JsArrayFacts.uniq_In, in_flat_map.
    unfold JsString.truthy. rewrite negb_true_iff, String.eqb_neq.
    split.
    + intros [(p & Hp%filter_In & Ht) Hne]. split; [exact Hne|].
      exists p. tauto.
    + intros [Hne (p & Hin & Hpub & Ht)]. split; [|exact Hne].
      exists p. rewrite filter_In. tauto.
Qed.

Section Pages.

Variable time_of : string -> option Z.

Local Abbreviation listPosts := (Blog.listPosts time_of).
Local Abbreviation visible := (Blog.visible time_of).

Lemma ceil_div_positive n l :
  0 < l -> JsNumber.ceil_div n (Some l) = Some (- ((- n) / l)).
Proof. destruct l; simpl; intros H; try lia; reflexivity. Qed.

(** Pages before the last one are followed by posts. *)
Lemma next_page_exists p l n :
  0 < l -> (p * l <? n) = (p <? - ((- n) / l)).
Proof.
  intros Hl.
  pose proof (Z.div_mod (- n) l ltac:(lia)) as Hdm.
  pose proof (Z.mod_pos_bound (- n) l Hl) as Hr.
  destruct (Z.ltb_spec (p * l) n), (Z.ltb_spec p (- ((- n) / l)));
    trivial; nia.
Qed.

(** X20.  The pages of [GET /] partition the visible posts.  For a limit
    that reads as a number [l >= 1] (below [2^53]) and with
    [pages = ceil(total / l)]: page [p >= 1] is the [p]-th run of [l]
    consecutive visible posts, with [current = p], [total = pages],
    [hasNext] exactly when [p < pages] and [hasPrev] exactly when [p > 1];
    pages [1] to [pages], one after the other, give every visible post
    once, in order; no page holds more than [l] posts and every page after
    the last is empty. *)
Theorem pages_partition_the_posts f tag limit l :
  JsNumber.parameter limit 10 = Some l ->
  1 <= l < 2 ^ 53 ->
  let all := visible f tag in
  let pages := - ((- Z.of_nat (List.length all)) / l) in
  (forall page p,
      JsNumber.parameter page 1 = Some p ->
      1 <= p < 2 ^ 53 ->
      listPosts f page limit tag
      = json 200
          (Page (chunk l (Z.to_nat (p - 1)) all)
             (mkPagination (Some p) (Some pages) (p <? pages) (1 <? p))))
  /\ List.concat (map (fun k => chunk l k all) (seq 0 (Z.to_nat pages))) = all
  /\ (forall k, (List.length (chunk l k all) <= Z.to_nat l)%nat)
  /\ (forall k, (Z.to_nat pages <= k)%nat -> chunk l k all = []).
Proof.
  intros Hlimit Hl all pages.
  pose proof (Z.div_mod (- Z.of_nat (List.length all)) l ltac:(lia)) as Hdm.
  pose proof (Z.mod_pos_bound (- Z.of_nat (List.length all)) l ltac:(lia))
    as Hr.
  assert (Hcover : (List.length all <= Z.to_nat pages * Z.to_nat l)%nat).
  { apply Nat2Z.inj_le. rewrite Nat2Z.inj_mul, !Z2Nat.id; subst pages; nia. }
  split; [|split; [|split]].
  - intros page p Hpage Hp. unfold Blog.listPosts. fold all.
    rewrite Hlimit, Hpage. simpl JsNumber.add. simpl JsNumber.mul.
    rewrite ceil_div_positive by lia.
    rewrite (JsArrayFacts.slice_window ((p + -1) * l) l all) by nia.
    unfold JsNumber.gt, JsNumber.lt.
    rewrite next_page_exists by lia. fold pages.
    unfold chunk.
    replace (Z.to_nat ((p + -1) * l))
      with (Z.to_nat (p - 1) * Z.to_nat l)%nat
      by (rewrite <- Z2Nat.inj_mul by lia; f_equal; lia).
    reflexivity.
  - unfold chunk. apply JsArrayFacts.runs_concat; [lia|exact Hcover].
  - intros k. unfold chunk. apply firstn_le_length.
  - intros k Hk. unfold chunk.
    rewrite skipn_all2; [apply firstn_nil|]. nia.
Qed.

(** X21.  A page or a limit that does not read as a number, or a limit of
    0, is not refused: the answer is 200 with no posts.  When the page
    does not read as a number, [current] is [null] and [hasNext] and
    [hasPrev] are false; when the limit does not, or is 0, [total] is
    [null]. *)
Theorem unreadable_page_or_limit f page limit tag :
  JsNumber.parameter page 1 = None
  \/ JsNumber.parameter limit 10 = None
  \/ JsNumber.parameter limit 10 = Some 0 ->
  exists pagination,
    listPosts f page limit tag = json 200 (Page [] pagination)
    /\ (JsNumber.parameter page 1 = None ->
        current pagination = None
        /\ hasNext pagination = false
        /\ hasPrev pagination = false)
    /\ (JsNumber.parameter limit 10 = None
        \/ JsNumber.parameter limit 10 = Some 0 ->
        total pagination = None).
Proof.
  intros H. unfold Blog.listPosts.
  set (all := visible f tag).
  assert (Hempty : forall (l : list Post.t) a,
             JsArray.slice a a l = []).
  { intros l a. unfold JsArray.slice. rewrite Z.sub_diag. reflexivity. }
  destruct (JsNumber.parameter page 1) as [p|] eqn:Hp;
    destruct (JsNumber.parameter limit 10) as [l|] eqn:Hlim.
  - destruct H as [H|[H|H]]; try discriminate H.
    injection H as ->. simpl. rewrite Z.mul_0_r, Z.add_0_r.
    eexists. split; [rewrite Hempty; reflexivity|].
    split; [discriminate|reflexivity].
  - simpl. eexists. split; [rewrite Hempty; reflexivity|].
    split; [discriminate|reflexivity].
  - simpl. eexists. split; [rewrite Hempty; reflexivity|].
    split; [intros _; repeat split|].
    intros [H'|H']; [discriminate H'|].
    injection H' as ->. reflexivity.
  - simpl. eexists. split; [rewrite Hempty; reflexivity|].
    split; [intros _; repeat split|reflexivity].
Qed.

End Pages.

End BlogListing.

Module BlogOrder.

Import Blog.

Section Order.

Variable time_of : string -> option Z.

Local Abbreviation insert_post := (Blog.insert_post time_of).
Local Abbreviation sort_newest_first := (Blog.sort_newest_first time_of).
Local Abbreviation newer_or_same := (Blog.newer_or_same time_of).
Local Abbreviation dated := (Blog.dated time_of).
Local Abbreviation visible := (Blog.visible time_of).

Lemma insert_post_permutation a l : Permutation (insert_post a l) (a :: l).
Proof.
  induction l as [|x l IH]; simpl; [reflexivity|].
  destruct (not_after time_of a x); [reflexivity|].
  rewrite IH. apply perm_swap.
Qed.

Lemma sort_newest_first_permutation l : Permutation (sort_newest_first l) l.
Proof.
  induction l as [|a l IH]; simpl; [reflexivity|].
  rewrite insert_post_permutation. now constructor.
Qed.

Lemma newer_or_same_trans a b c :
  newer_or_same a b -> newer_or_same b c -> newer_or_same a c.
Proof.
  unfold Blog.newer_or_same.
  destruct (published_time time_of a), (published_time time_of b),
    (published_time time_of c); try tauto; lia.
Qed.

Lemma insert_post_sorted a l :
  dated (a :: l) = true ->
  StronglySorted newer_or_same l ->
  StronglySorted newer_or_same (insert_post a l).
Proof.
  intros Hd Hs. induction Hs as [|x l Hs IH Hx]; simpl.
  - repeat constructor.
  - simpl in Hd. apply andb_prop in Hd as [Ha Hd].
    apply andb_prop in Hd as [Hx' Hl].
    assert (Hal : dated (a :: l) = true) by (simpl; now rewrite Ha, Hl).
    unfold not_after.
    destruct (published_time time_of a) as [ta|] eqn:Hta; [|discriminate].
    destruct (published_time time_of x) as [tx|] eqn:Htx; [|discriminate].
    destruct (Z.leb_spec tx ta) as [Hle|Hlt].
    + constructor; [now constructor|].
      assert (Hax : newer_or_same a x)
        by (unfold Blog.newer_or_same; now rewrite Hta, Htx).
      constructor; [exact Hax|].
      eapply Forall_impl; [|exact Hx].
      intros y. now apply newer_or_same_trans.
    + constructor; [now apply IH|].
      assert (Hxa : newer_or_same x a)
        by (unfold Blog.newer_or_same; rewrite Hta, Htx; lia).
      eapply Permutation_Forall;
        [symmetry; apply insert_post_permutation|].
      now constructor.
Qed.

Lemma sort_newest_first_sorted l :
  dated l = true -> StronglySorted newer_or_same (sort_newest_first l).
Proof.
  induction l as [|a l IH]; simpl; intros Hd; [constructor|].
  apply andb_prop in Hd as [Ha Hl].
  apply insert_post_sorted; [|now apply IH].
  simpl. rewrite Ha. simpl.
  unfold Blog.dated. rewrite forallb_forall. intros x Hx.
  apply (Permutation_in _ (sort_newest_first_permutation l)) in Hx.
  unfold Blog.dated in Hl. rewrite forallb_forall in Hl. now apply Hl.
Qed.

Lemma filter_filter {A : Type} (p q : A -> bool) l :
  filter q (filter p l) = filter (fun x => (p x && q x)%bool) l.
Proof.
  induction l as [|x l IH]; simpl; [reflexivity|].
  destruct (p x); simpl; [|exact IH].
  destruct (q x); now rewrite IH.
Qed.

Lemma forallb_filter {A : Type} (p q : A -> bool) l :
  forallb p l = true -> forallb p (filter q l) = true.
Proof.
  rewrite !forallb_forall. intros H x [Hx _]%filter_In. now apply H.
Qed.

(** X23.  When the [publishedAt] of every published post denotes an
    instant, the posts [GET /] pages through are the published posts (those
    with the tag, when a non-empty tag is asked for), each as often as it
    is stored, ordered from the newest to the oldest. *)
Theorem listing_is_newest_first f tag :
  dated (filter published (readBlogPosts f)) = true ->
  let wanted p :=
    (published p
     && match tag with
        | Some t => if JsString.truthy t then has_tag t p else true
        | None => true
        end)%bool in
  StronglySorted newer_or_same (visible f tag)
  /\ Permutation (visible f tag) (filter wanted (readBlogPosts f)).
Proof.
  intros Hd wanted.
  assert (Heq : forall l : list Post.t,
             filter (fun p => (published p && true)%bool) l
             = filter published l).
  { intros l. apply filter_ext. intros p. apply andb_true_r. }
  unfold Blog.visible. split.
  - apply sort_newest_first_sorted.
    destruct tag as [t|]; [|exact Hd].
    destruct (JsString.truthy t); [|exact Hd].
    now apply forallb_filter.
  - rewrite sort_newest_first_permutation. subst wanted.
    destruct tag as [t|]; [destruct (JsString.truthy t)|].
    + now rewrite filter_filter.
    + now rewrite Heq.
    + now rewrite Heq.
Qed.

End Order.

End BlogOrder.

Module SimplePosts.

Import Blog.

Lemma truthy_not_empty s : JsString.truthy s = true -> s <> "".
Proof.
  unfold JsString.truthy. rewrite negb_true_iff. apply String.eqb_neq.
Qed.

Lemma authorParts_firstName a fn ln :
  authorParts a = Some (fn, ln) -> fn <> "".
Proof.
  destruct a as [s|[fn'|] [ln'|]|]; simpl; try discriminate.
  - intros H. injection H as <- _.
    destruct (JsString.truthy (Js.first (Js.split " " s))) eqn:Ht;
      [now apply truthy_not_empty|discriminate].
  - destruct (JsString.truthy fn') eqn:Hfn; simpl; [|discriminate].
    destruct (JsString.truthy ln'); [|discriminate].
    intros H. injection H as <- _. now apply truthy_not_empty.
Qed.

(** X22.  [POST /simple] answers with 201, 400, 401 or 500 and writes the
    file only with a 201.  The access code is compared after the chains
    and before the author is read: a body the chains accept with another
    code than the valid one is answered with 401.  A 201 is given only to
    the valid code; the file then holds the posts it held followed by the
    post of the answer, which is published, carries its tags as an array,
    an author of the program "Science Club" with a non-empty first name,
    and the trimmed title. *)
Theorem createSimple_outcomes code f env raw :
  let r := createSimple code f env raw in
  let b := sanitize_simple raw in
  In (status (fst r)) [201; 400; 401; 500]
  /\ (status (fst r) <> 201 -> snd r = f)
  /\ (validate_simple b = [] ->
      s_accessCode raw <> validCode code ->
      fst r = json 401 (Error "Invalid access code"))
  /\ (status (fst r) = 201 ->
      validate_simple b = []
      /\ s_accessCode raw = validCode code
      /\ exists post,
           fst r = json 201 (PostJson post)
           /\ snd r = Stored (readBlogPosts f ++ [post])
           /\ Post.id post = uuid env
           /\ Post.title post = Js.trim (s_title raw)
           /\ published post = true
           /\ Post.tags post = TagArray (tag_names (s_tags raw))
           /\ firstName (Post.author post) <> ""
           /\ program (Post.author post) = "Science Club").
Proof.
  intros r b. subst r. unfold createSimple. fold b.
  destruct (validate_simple b) as [|e errors] eqn:Hv.
  - change (s_accessCode b) with (s_accessCode raw).
    change (s_author b) with (s_author raw).
    destruct (authorParts (s_author raw)) as [[fn ln]|] eqn:Ha;
      destruct (String.eqb_spec (s_accessCode raw) (validCode code))
        as [Hcode|Hcode]; simpl.
    + split; [simpl; auto 6|]. split; [congruence|]. split; [congruence|].
      intros _. split; [reflexivity|]. split; [exact Hcode|].
      eexists. split; [reflexivity|]. split; [reflexivity|].
      simpl. repeat split.
      now apply (authorParts_firstName _ _ _ Ha).
    + split; [simpl; auto 6|]. split; [reflexivity|]. split; [reflexivity|].
      discriminate.
    + split; [simpl; auto 6|]. split; [reflexivity|]. split; [congruence|].
      discriminate.
    + split; [simpl; auto 6|]. split; [reflexivity|]. split; [reflexivity|].
      discriminate.
  - simpl. split; [simpl; auto 6|]. split; [reflexivity|]. split; [discriminate|].
    discriminate.
Qed.

End SimplePosts.

(** ** The blog file of the sample *)

Module BlogScenario.

Import Blog BlogSample.

(** No post of the journal has the id p9. *)
Lemma p9_is_not_found :
  existsb (has_id "p9") (readBlogPosts journal) = false
  /\ getPost journal "p9" = json 404 (Error "Blog post not found")
  /\ deletePost journal "p9"
     = (json 404 (Error "Blog post not found"), journal).
Proof.
  split; [reflexivity|].
  destruct (BlogPosts.unknown_post_is_not_found journal "p9" eq_refl)
    as (Hget & _ & Hdelete & _).
  split; [exact Hget|exact Hdelete].
Defined.

(** The announcement is created as p4 and served. *)
Lemma announcement_is_served :
  validate_create (sanitize_create announcement) = []
  /\ existsb (has_id (uuid stamp)) (readBlogPosts journal) = false
  /\ exists post,
       fst (createPost journal stamp announcement) = json 201 (PostJson post)
       /\ Post.id post = "p4"
       /\ getPost (snd (createPost journal stamp announcement)) "p4"
          = json 200 (PostJson post).
Proof.
  assert (Hv : validate_create (sanitize_create announcement) = [])
    by (vm_compute; reflexivity).
  assert (Hfresh : existsb (has_id (uuid stamp)) (readBlogPosts journal)
                   = false) by (vm_compute; reflexivity).
  split; [exact Hv|]. split; [exact Hfresh|].
  destruct (BlogPosts.create_then_get journal stamp announcement Hv Hfresh)
    as (post & Hfst & Hid & _ & Hget & _).
  exists post. split; [exact Hfst|]. split; [exact Hid|exact Hget].
Defined.

(** The draft is the second post of the journal; deleting it leaves the
    other two. *)
Lemma draft_is_deleted_in_place :
  find (has_id "p2") (readBlogPosts journal) = Some draft
  /\ exists before after,
       readBlogPosts journal = (before ++ draft :: after)%list
       /\ deletePost journal "p2"
          = (json 200 (Message "Blog post deleted successfully"),
             Stored (before ++ after)).
Proof.
  split; [reflexivity|].
  destruct (BlogPosts.first_post_with_id_in_place journal "p2" draft eq_refl)
    as (before & after & Hposts & _ & _ & _ & Hdelete).
  exists before, after. split; [exact Hposts|exact Hdelete].
Defined.

(** Once published, the draft is served. *)
Lemma draft_is_published :
  find (has_id "p2") (readBlogPosts journal) = Some draft
  /\ getPost
       (snd (publishPost journal "2024-04-15T09:30:00.000Z"
               "2024-04-15T09:30:00.000Z" "p2" (Some true))) "p2"
     = json 200
         (PostJson
            (republish draft (Some true) "2024-04-15T09:30:00.000Z"
               "2024-04-15T09:30:00.000Z")).
Proof.
  split; [reflexivity|].
  exact (proj1 (BlogPosts.publication_decides_visibility journal
                  "2024-04-15T09:30:00.000Z" "2024-04-15T09:30:00.000Z"
                  "p2" (Some true) draft eq_refl)).
Defined.

(** Deleting the welcome post leaves the draft and the fair. *)
Lemma welcome_is_gone :
  ids_distinct (readBlogPosts journal) = true
  /\ existsb (has_id "p1") (readBlogPosts journal) = true
  /\ readBlogPosts (snd (deletePost journal "p1"))
     = filter (fun p => negb (has_id "p1" p)) (readBlogPosts journal)
  /\ getPost (snd (deletePost journal "p1")) "p1"
     = json 404 (Error "Blog post not found").
Proof.
  split; [reflexivity|]. split; [reflexivity|].
  destruct (BlogPosts.deleted_post_is_gone journal "p1" eq_refl eq_refl)
    as (_ & Hposts & _ & Hget & _).
  split; [exact Hposts|exact Hget].
Defined.

(** One post a page: the second page of the journal. *)
Lemma one_post_a_page :
  JsNumber.parameter (Some "1") 10 = Some 1
  /\ 1 <= 1 < 2 ^ 53
  /\ listPosts clock journal (Some "2") (Some "1") None
     = json 200
         (Page (chunk 1 1 (visible clock journal None))
            (mkPagination (Some 2) (Some 2) false true))
  /\ List.concat
       (map (fun k => chunk 1 k (visible clock journal None)) (seq 0 2))
     = visible clock journal None.
Proof.
  split; [reflexivity|]. split; [lia|].
  destruct (BlogListing.pages_partition_the_posts clock journal None
              (Some "1") 1 eq_refl ltac:(lia)) as (Hpage & Hall & _).
  split; [|exact Hall].
  exact (Hpage (Some "2") 2 eq_refl ltac:(lia)).
Defined.

(** A page that is no number *)
Lemma page_abc :
  (JsNumber.parameter (Some "abc") 1 = None
   \/ JsNumber.parameter None 10 = None
   \/ JsNumber.parameter None 10 = Some 0)
  /\ exists pagination,
       listPosts clock journal (Some "abc") None None
       = json 200 (Page [] pagination)
       /\ current pagination = None.
Proof.
  split; [left; reflexivity|].
  destruct (BlogListing.unreadable_page_or_limit clock journal (Some "abc")
              None None (or_introl eq_refl))
    as (pagination & Hlist & Hpage & _).
  exists pagination. split; [exact Hlist|].
  exact (proj1 (Hpage eq_refl)).
Defined.

(** The fair comes before the welcome post. *)
Lemma journal_newest_first :
  dated clock (filter published (readBlogPosts journal)) = true
  /\ StronglySorted (newer_or_same clock) (visible clock journal None).
Proof.
  split; [reflexivity|].
  exact (proj1 (BlogOrder.listing_is_newest_first clock journal None
                  eq_refl)).
Defined.

End BlogScenario.
